(** * fin-thread: the news pipeline of [job.go] and the composer's [Compose]

    A shallow embedding of the Go sources

    - [composer/composer.go]  ([Compose], [ComposedNews]) and
    - [job.go]                ([Job], [Run], [removeDuplicates], [composeNews],
                               [saveNews], [publish], [updateNews])

    followed by the properties of the pipeline.

    Conventions of the embedding.

    - A Go function returning [(v, error)] returns a pair [v * option error];
      [None] is Go's [nil] error.  A [nil] slice and an empty slice are both
      the empty list (the code only ever takes [len] of them or ranges over
      them).
    - The code talks to the outside through its collaborators (journalist,
      archivist, publisher, OpenAI client), the clock and the JSON codec.
      They are fields of records over an arbitrary world type [W]: a call
      takes the world and returns its results and the next world.
    - [*models.News] is an address into a heap of [models.News] values, so
      that the in-place writes of [publish] (and whatever the archivist does
      to the record it is handed) are seen through every copy of the pointer.
      Dereferencing an address with no record behind it panics, as [nil] does.
    - [*journalist.News] and [*composer.ComposedNews] are only read: they
      are the values themselves, and a slice of them holds no [nil].
    - Every call to a collaborator, every log line and every Sentry capture
      or breadcrumb is appended to the trace of the computation, with the
      arguments and the results of the call.  Spans and their tags are not
      modelled, and the context with its deadline shows only in the errors
      that the collaborators return.
    - [Run] returns nothing in Go; here it returns the name of the [return]
      statement that ended it. *)

From Stdlib Require Import ZArith Sorted.
From stdpp Require Import base option list strings gmap sorting.

Open Scope string_scope.
Open Scope list_scope.

(** Go's [error], reduced to its message. *)
Definition error := string.

(** The line feed of Go's ["\n"]. *)
Definition nl : string := String (Ascii.ascii_of_nat 10) EmptyString.

(** [time.Time], by the civil fields its accessors return in the value's own
    location. *)
Module time.
Record Time := mkTime {
  Year : Z;
  Month : Z;
  Day : Z;          (* day of the month, what [Time.Day()] returns *)
  Nanos : Z         (* time of day *)
}.

(** The zero [time.Time]: January 1, year 1, 00:00:00 UTC. *)
Definition zero : Time := mkTime 1 1 1 0.

(** Two instants fall on the same calendar day. *)
Definition sameDate (a b : Time) : bool :=
  (Year a =? Year b)%Z && (Month a =? Month b)%Z && (Day a =? Day b)%Z.
End time.

(** Modelled from the spec: package [journalist] is not among the sources.
    [News] has the attributes of the spec's RawItem, under the names by
    which [job.go] and [composer.go] read them. *)
Module journalist.
Record News := mkNews {
  ID : string;
  Title : string;
  Description : string;
  Link : string;
  Date : time.Time;
  ProviderName : string;
  IsSuspicious : bool
}.

(** [type NewsList []*News] *)
Abbreviation NewsList := (list News).
End journalist.

(** Modelled from the spec: package [archivist/models] is not among the
    sources.  [News] has the attributes of the spec's PersistedRecord, under
    the names by which [job.go] reads and writes them.  [MetaData] is a JSON
    byte slice: [None] is the [nil] slice.  The nullable composed text and
    publication of the spec are Go's zero values. *)
Module models.
Record News := mkNews {
  Hash : string;
  ChannelID : string;
  ProviderName : string;
  OriginalTitle : string;
  OriginalDesc : string;
  OriginalDate : time.Time;
  URL : string;
  IsSuspicious : bool;
  ComposedText : string;
  MetaData : option string;
  PublicationID : string;
  PublishedAt : time.Time
}.

(** [n.MetaData.String()] *)
Definition MetaData_String (n : News) : string :=
  match MetaData n with Some b => b | None => "" end.

Definition set_composed (text : string) (meta : string) (n : News) : News :=
  mkNews (Hash n) (ChannelID n) (ProviderName n) (OriginalTitle n)
         (OriginalDesc n) (OriginalDate n) (URL n) (IsSuspicious n)
         text (Some meta) (PublicationID n) (PublishedAt n).

Definition set_publication (id : string) (at_ : time.Time) (n : News) : News :=
  mkNews (Hash n) (ChannelID n) (ProviderName n) (OriginalTitle n)
         (OriginalDesc n) (OriginalDate n) (URL n) (IsSuspicious n)
         (ComposedText n) (MetaData n) id at_.
End models.

(** The anonymous struct [{Tickers, Markets, Hashtags []string}] that
    [saveNews] encodes and [publish] decodes. *)
Record Meta := mkMeta {
  meta_Tickers : list string;
  meta_Markets : list string;
  meta_Hashtags : list string
}.

Definition zeroMeta : Meta := mkMeta [] [] [].

(** [openai.ChatCompletionRequest], as [Compose] fills it. *)
Record ChatMessage := mkChatMessage { Role : string; Content : string }.

Record ChatCompletionRequest := mkChatCompletionRequest {
  Model : string;
  Messages : list ChatMessage;
  Temperature : Z;
  MaxTokens : Z;
  TopP : Z;
  FrequencyPenalty : Z;
  PresencePenalty : Z
}.

(** [openai.ChatCompletionResponse]: the messages of its choices. *)
Record ChatCompletionResponse := mkChatCompletionResponse {
  Choices : list ChatMessage
}.

(** An address of a [models.News] on the heap. *)
Abbreviation ptr := nat.

Inductive LogLevel := Info | Warn.

(** What a run does to the outside, in order. *)
Inductive Event :=
| EvGetLatestNews (until : time.Time) (news : journalist.NewsList) (err : option error)
| EvFindAllByHashes (hashes : list string) (found : list models.News) (err : option error)
| EvChatCompletion (req : ChatCompletionRequest) (resp : ChatCompletionResponse) (err : option error)
| EvCreate (n : ptr) (rec : models.News) (err : option error)
| EvPublish (n : ptr) (rec : models.News) (text : string) (id : string) (err : option error)
| EvUpdate (n : ptr) (rec : models.News) (err : option error)
| EvLog (lvl : LogLevel) (msg : string) (err : error)
| EvCapture (err : error)
| EvBreadcrumb (msg : string) (count : option nat).

Definition isPublish (e : Event) : bool :=
  match e with EvPublish _ _ _ _ _ => true | _ => false end.
Definition isCreate (e : Event) : bool :=
  match e with EvCreate _ _ _ => true | _ => false end.
Definition isUpdate (e : Event) : bool :=
  match e with EvUpdate _ _ _ => true | _ => false end.
Definition isFindAllByHashes (e : Event) : bool :=
  match e with EvFindAllByHashes _ _ _ => true | _ => false end.
Definition isChatCompletion (e : Event) : bool :=
  match e with EvChatCompletion _ _ _ => true | _ => false end.
Definition isErrorReport (e : Event) : bool :=
  match e with EvLog _ _ _ | EvCapture _ => true | _ => false end.

(** The create calls of a trace: record handed over, and the answer. *)
Definition createCalls (t : list Event) : list (models.News * option error) :=
  omap (fun e => match e with EvCreate _ r err => Some (r, err) | _ => None end) t.

(** ** The monad of the embedding: world and heap, a trace, and panics *)

Record St (W : Type) := mkSt { world : W; heap : list models.News }.
Arguments mkSt {W}.
Arguments world {W}.
Arguments heap {W}.

Inductive Res (A : Type) :=
| Done (a : A)
| Panicked (why : string).
Arguments Done {A}.
Arguments Panicked {A}.

Definition M (W A : Type) : Type := St W -> Res A * St W * list Event.

Section Monad.
Context {W : Type}.

Definition ret {A} (a : A) : M W A := fun s => (Done a, s, []).

Definition bind {A B} (m : M W A) (k : A -> M W B) : M W B := fun s =>
  match m s with
  | (Done a, s1, t1) =>
      match k a s1 with
      | (r, s2, t2) => (r, s2, t1 ++ t2)
      end
  | (Panicked why, s1, t1) => (Panicked why, s1, t1)
  end.

Definition panic {A} (why : string) : M W A := fun s => (Panicked why, s, []).

Definition emit (e : Event) : M W unit := fun s => (Done tt, s, [e]).

(** A call into the world. *)
Definition call {A} (f : W -> A * W) : M W A := fun s =>
  match f (world s) with
  | (a, w) => (Done a, mkSt w (heap s), [])
  end.

(** [&models.News{...}] *)
Definition alloc (r : models.News) : M W ptr := fun s =>
  (Done (length (heap s)), mkSt (world s) (heap s ++ [r]), []).

(** [*n] for reading *)
Definition load (n : ptr) : M W models.News := fun s =>
  match heap s !! n with
  | Some r => (Done r, s, [])
  | None => (Panicked "invalid memory address or nil pointer dereference", s, [])
  end.

(** [*n = r] *)
Definition store (n : ptr) (r : models.News) : M W unit := fun s =>
  match heap s !! n with
  | Some _ => (Done tt, mkSt (world s) (<[n := r]> (heap s)), [])
  | None => (Panicked "invalid memory address or nil pointer dereference", s, [])
  end.
End Monad.

Notation "'do' x <- m ; k" := (bind m (fun x => k))
  (at level 10, x name, m at level 100, k at level 200).
Notation "'do' ' pat <- m ; k" := (bind m (fun x => match x with pat => k end))
  (at level 10, pat pattern, m at level 100, k at level 200).
Notation "'run' m ; k" := (bind m (fun _ => k))
  (at level 10, m at level 100, k at level 200).

(** The three components of a finished computation. *)
Definition result {W A} (o : Res A * St W * list Event) : Res A :=
  let '(r, _, _) := o in r.
Definition final {W A} (o : Res A * St W * list Event) : St W :=
  let '(_, s, _) := o in s.
Definition events {W A} (o : Res A * St W * list Event) : list Event :=
  let '(_, _, t) := o in t.

(** Package [composer]: its data.  [Composer] holds the OpenAI client, whose
    one method takes the world, and its [Config], of which [Compose] reads
    the prompt; the declaration of [Config] is not among the sources. *)
Module composer.
Record ComposedNews := mkComposedNews {
  ID : string;
  Text : string;
  Tickers : list string;
  Markets : list string;
  Hashtags : list string
}.

Record Config := mkConfig { ComposePrompt : string }.

Record Composer (W : Type) := mkComposer {
  CreateChatCompletion :
    ChatCompletionRequest -> W -> (ChatCompletionResponse * option error) * W;
  Config_ : Config
}.
Arguments CreateChatCompletion {W}.
Arguments Config_ {W}.
End composer.

(** What the Go runtime and the libraries outside this repository provide:
    the clock, the JSON codec at the three types the code uses it at, and the
    journalist package's [NewsList.ToContentJSON]. *)
Record Runtime (W : Type) := mkRuntime {
  time_Now : W -> time.Time * W;
  encodeMeta : Meta -> string * option error;
  decodeMeta : string -> Meta * option error;
  decodeComposed : string -> list composer.ComposedNews * option error;
  ToContentJSON : journalist.NewsList -> string * option error
}.
Arguments time_Now {W}.
Arguments encodeMeta {W}.
Arguments decodeMeta {W}.
Arguments decodeComposed {W}.
Arguments ToContentJSON {W}.

(** [json.Marshal] of the metadata struct. *)
Definition json_Marshal_Meta {W} (rt : Runtime W) (m : Meta) : string * option error :=
  encodeMeta rt m.

(** [json.Unmarshal] into the metadata struct.  Go's decoder validates its
    input first and rejects an empty one (the [nil] slice included) with
    "unexpected end of JSON input"; anything else is left to the codec. *)
Definition json_Unmarshal_Meta {W} (rt : Runtime W) (data : option string)
  : Meta * option error :=
  match data with
  | None => (zeroMeta, Some "unexpected end of JSON input")
  | Some b =>
      if String.eqb b "" then (zeroMeta, Some "unexpected end of JSON input")
      else decodeMeta rt b
  end.

(** [json.Unmarshal] into [[]*ComposedNews]. *)
Definition json_Unmarshal_ComposedNews {W} (rt : Runtime W) (data : string)
  : list composer.ComposedNews * option error :=
  if String.eqb data "" then ([], Some "unexpected end of JSON input")
  else decodeComposed rt data.

(** [slices.Contains] on strings. *)
Fixpoint slices_Contains (s : list string) (v : string) : bool :=
  match s with
  | [] => false
  | x :: rest => if String.eqb v x then true else slices_Contains rest v
  end.

(** ** composer/composer.go *)

Section Compose.
Context {W : Type} (rt : Runtime W).

(** [lo.Filter(news, func(n, _) bool { return n.Date.Day() == time.Now().Day() })]:
    the clock is read once per item, and only the day of the month is
    compared. *)
Fixpoint filterToday (news : journalist.NewsList) : M W journalist.NewsList :=
  match news with
  | [] => ret []
  | n :: rest =>
      do now <- call (time_Now rt);
      do kept <- filterToday rest;
      ret (if (time.Day (journalist.Date n) =? time.Day now)%Z
           then n :: kept else kept)
  end.

Definition composeRequest (c : composer.Composer W) (jsonNews : string)
  : ChatCompletionRequest :=
  {| Model := "gpt-3.5-turbo-1106";
     Messages :=
       [ {| Role := "system";
            Content := composer.ComposePrompt (composer.Config_ c) |};
         {| Role := "user"; Content := jsonNews |} ];
     Temperature := 1;
     MaxTokens := 2048;
     TopP := 1;
     FrequencyPenalty := 0;
     PresencePenalty := 0 |}.

(** [func (c *Composer) Compose(ctx, news) ([]*ComposedNews, error)] *)
Definition Compose (c : composer.Composer W) (news : journalist.NewsList)
  : M W (list composer.ComposedNews * option error) :=
  (* Filter out news that are not from today *)
  do todayNews <- filterToday news;
  if (length todayNews =? 0)%nat then ret ([], None)
  else
    (* Convert news to JSON *)
    let '(jsonNews, err) := ToContentJSON rt todayNews in
    match err with
    | Some e =>
        ret ([], Some ("[Compose] error in NewsList.ToContentJSON: " +:+ e))
    | None =>
        (* Compose news *)
        let req := composeRequest c jsonNews in
        do '(resp, err) <- call (composer.CreateChatCompletion c req);
        run emit (EvChatCompletion req resp err);
        match err with
        | Some e =>
            ret ([], Some ("[Compose] error in OpenAiClient.CreateChatCompletion: " +:+ e))
        | None =>
            match Choices resp with
            | [] => panic "index out of range [0] with length 0"
            | choice :: _ =>
                let '(fullComposedNews, err) :=
                  json_Unmarshal_ComposedNews rt (Content choice) in
                match err with
                | Some e =>
                    ret ([], Some ("[Compose] error in json.Unmarshal: " +:+ e
                                   +:+ " for object: " +:+ Content choice))
                | None => ret (fullComposedNews, None)
                end
            end
        end
    end.
End Compose.

(** ** job.go *)

(** Modelled from the spec: the source collaborator, [journalist.Journalist],
    with its name and its one method. *)
Record Journalist (W : Type) := mkJournalist {
  Name : string;
  GetLatestNews : time.Time -> W -> (journalist.NewsList * option error) * W
}.
Arguments Name {W}.
Arguments GetLatestNews {W}.

(** Modelled from the spec: the persistence collaborator,
    [app.archivist.Entities.News].  [Create] and [Update] are handed the
    pointer: they answer with the record as they leave it and the error. *)
Record Archivist (W : Type) := mkArchivist {
  FindAllByHashes : list string -> W -> (list models.News * option error) * W;
  Create : models.News -> W -> (models.News * option error) * W;
  Update : models.News -> W -> (models.News * option error) * W
}.
Arguments FindAllByHashes {W}.
Arguments Create {W}.
Arguments Update {W}.

(** Modelled from the spec: the publish collaborator, [app.publisher]. *)
Record Publisher (W : Type) := mkPublisher {
  ChannelID : string;
  Publish : string -> W -> (string * option error) * W
}.
Arguments ChannelID {W}.
Arguments Publish {W}.

(** Modelled from the spec: [App] is declared outside the sources.  These
    are the fields that the job uses, the collaborators of the spec; its
    logger and the Sentry hub are the [EvLog], [EvCapture] and
    [EvBreadcrumb] events. *)
Record App (W : Type) := mkApp {
  app_composer : composer.Composer W;
  app_publisher : Publisher W;
  app_archivist : Archivist W
}.
Arguments app_composer {W}.
Arguments app_publisher {W}.
Arguments app_archivist {W}.

Record Job (W : Type) := mkJob {
  app : App W;                 (* app with all the dependencies and configuration *)
  job_journalist : Journalist W; (* journalist that will fetch news *)
  until : time.Time;           (* fetch articles until this date *)
  omitSuspicious : bool;       (* if true, will not publish suspicious articles *)
  omitEmptyMeta : bool;        (* if true, will not publish articles with empty meta *)
  shouldComposeText : bool;    (* if true, will compose text for the article using OpenAI *)
  shouldSaveToDB : bool;       (* if true, will save all news to the database *)
  shouldRemoveClones : bool    (* if true, will remove duplicated news found in the DB *)
}.
Arguments mkJob {W}.
Arguments app {W}.
Arguments job_journalist {W}.
Arguments until {W}.
Arguments omitSuspicious {W}.
Arguments omitEmptyMeta {W}.
Arguments shouldComposeText {W}.
Arguments shouldSaveToDB {W}.
Arguments shouldRemoveClones {W}.

(** [JobData] holds the news passed between the job functions. *)
Record JobData := mkJobData {
  News : journalist.NewsList;                 (* Original news fetched from the journalist *)
  ComposedNews : list composer.ComposedNews;  (* Composed news with custom text and meta *)
  DBNews : list ptr                           (* News entities from/for the database *)
}.

(** The builder methods. *)
Definition NewJob {W} (a : App W) (j : Journalist W) : Job W :=
  mkJob a j time.zero false false false false false.
Definition FetchUntil {W} (t : time.Time) (job : Job W) : Job W :=
  mkJob (app job) (job_journalist job) t (omitSuspicious job)
        (omitEmptyMeta job) (shouldComposeText job) (shouldSaveToDB job)
        (shouldRemoveClones job).
Definition OmitSuspicious {W} (job : Job W) : Job W :=
  mkJob (app job) (job_journalist job) (until job) true
        (omitEmptyMeta job) (shouldComposeText job) (shouldSaveToDB job)
        (shouldRemoveClones job).
Definition OmitEmptyMeta {W} (job : Job W) : Job W :=
  mkJob (app job) (job_journalist job) (until job) (omitSuspicious job)
        true (shouldComposeText job) (shouldSaveToDB job)
        (shouldRemoveClones job).
Definition ComposeText {W} (job : Job W) : Job W :=
  mkJob (app job) (job_journalist job) (until job) (omitSuspicious job)
        (omitEmptyMeta job) true (shouldSaveToDB job)
        (shouldRemoveClones job).
Definition RemoveClones {W} (job : Job W) : Job W :=
  mkJob (app job) (job_journalist job) (until job) (omitSuspicious job)
        (omitEmptyMeta job) (shouldComposeText job) (shouldSaveToDB job)
        true.
Definition SaveToDB {W} (job : Job W) : Job W :=
  mkJob (app job) (job_journalist job) (until job) (omitSuspicious job)
        (omitEmptyMeta job) (shouldComposeText job) true
        (shouldRemoveClones job).

(** Which [return] of [Run]'s closure ended the run. *)
Inductive RunExit :=
| NoNews                   (* [len(news) == 0] after GetLatestNews *)
| RemoveDuplicatesFailed
| NoUniqueNews             (* [len(jobData.News) == 0] after removeDuplicates *)
| ComposeNewsFailed
| SaveNewsFailed
| PublishFailed
| UpdateNewsFailed
| Finished.                (* fell off the end of the closure *)

(** How one iteration of a loop with [continue] and [return] inside ends. *)
Inductive Step (A : Type) :=
| Next                     (* go on with the following element *)
| Return (a : A).
Arguments Next {A}.
Arguments Return {A}.

Section Job.
Context {W : Type} (rt : Runtime W).

(** removeDuplicates removes duplicated news found in the DB *)
Definition removeDuplicates (job : Job W) (news : journalist.NewsList)
  : M W (journalist.NewsList * option error) :=
  if negb (shouldRemoveClones job) || negb (shouldSaveToDB job)
  then ret (news, None)
  else
    let hashes := map journalist.ID news in
    do '(exists_, err) <- call (FindAllByHashes (app_archivist (app job)) hashes);
    run emit (EvFindAllByHashes hashes exists_ err);
    match err with
    | Some e =>
        ret ([], Some ("[Job.removeDuplicates][News.FindAllByHashes]: " +:+ e))
    | None =>
        let existedHashes := map models.Hash exists_ in
        let uniqueNews :=
          fold_left
            (fun (acc : journalist.NewsList) n =>
               if negb (slices_Contains existedHashes (journalist.ID n))
               then acc ++ [n] else acc)
            news [] in
        ret (uniqueNews, None)
    end.

(** composeNews composes text for the article using OpenAI and finds meta *)
Definition composeNews (job : Job W) (news : journalist.NewsList)
  : M W (list composer.ComposedNews * option error) :=
  if negb (shouldComposeText job) then ret ([], None)
  else
    do '(composedNews, err) <- Compose rt (app_composer (app job)) news;
    match err with
    | Some e => ret ([], Some ("[Job.composeNews][composer.Compose]: " +:+ e))
    | None => ret (composedNews, None)
    end.

(** Map composed news by hash for convenience: a later item with the same
    id replaces an earlier one. *)
Definition mapComposedNews (composed : list composer.ComposedNews)
  : gmap string composer.ComposedNews :=
  fold_left (fun m n => <[composer.ID n := n]> m) composed ∅.

(** The literal [&models.News{...}] of [saveNews]; the fields it leaves
    out have their zero value. *)
Definition newDBNews (job : Job W) (n : journalist.News) : models.News :=
  {| models.Hash := journalist.ID n;
     models.ChannelID := ChannelID (app_publisher (app job));
     models.ProviderName := journalist.ProviderName n;
     models.OriginalTitle := journalist.Title n;
     models.OriginalDesc := journalist.Description n;
     models.OriginalDate := journalist.Date n;
     models.URL := journalist.Link n;
     models.IsSuspicious := journalist.IsSuspicious n;
     models.ComposedText := "";
     models.MetaData := None;
     models.PublicationID := "";
     models.PublishedAt := time.zero |}.

Definition metaOf (val : composer.ComposedNews) : Meta :=
  {| meta_Tickers := composer.Tickers val;
     meta_Markets := composer.Markets val;
     meta_Hashtags := composer.Hashtags val |}.

(** The first loop of [saveNews]: one record per news, in order. *)
Fixpoint buildDBNews (job : Job W)
    (composedNewsMap : gmap string composer.ComposedNews)
    (news : journalist.NewsList) : M W (list ptr * option error) :=
  match news with
  | [] => ret ([], None)
  | n :: rest =>
      do p <- alloc (newDBNews job n);
      do st <-
        (* Save composed text and meta if found in the map *)
        match composedNewsMap !! journalist.ID n with
        | Some val =>
            let '(meta, err) := json_Marshal_Meta rt (metaOf val) in
            match err with
            | Some e =>
                ret (Return ("[Job.saveNews][json.Marshal] meta: " +:+ e))
            | None =>
                do r <- load p;
                (* dbNews[i].ComposedText = val.Text; dbNews[i].MetaData = meta *)
                run store p (models.set_composed (composer.Text val) meta r);
                ret Next
            end
        | None => ret Next
        end;
      match st with
      | Return e => ret ([], Some e)
      | Next =>
          do '(ps, err) <- buildDBNews job composedNewsMap rest;
          match err with
          | Some e => ret ([], Some e)
          | None => ret (p :: ps, None)
          end
      end
  end.

(** The second loop of [saveNews]: one [Create] per record, stopping at the
    first that fails. *)
Fixpoint createAll (job : Job W) (dbNews : list ptr) : M W (option error) :=
  match dbNews with
  | [] => ret None
  | n :: rest =>
      do r <- load n;
      do '(r', err) <- call (Create (app_archivist (app job)) r);
      run store n r';
      run emit (EvCreate n r err);
      match err with
      | Some e => ret (Some ("[Job.saveNews][News.Create]: " +:+ e))
      | None => createAll job rest
      end
  end.

Definition saveNews (job : Job W) (data : JobData)
  : M W (list ptr * option error) :=
  if negb (shouldSaveToDB job) then ret ([], None)
  else if (length (News data) <? length (ComposedNews data))%nat
  then ret ([], Some "[Job.saveNews]: Composed news count is more than original news count")
  else
    let composedNewsMap := mapComposedNews (ComposedNews data) in
    do '(dbNews, err) <- buildDBNews job composedNewsMap (News data);
    match err with
    | Some e => ret ([], Some e)
    | None =>
        do err <- createAll job dbNews;
        match err with
        | Some e => ret ([], Some e)
        | None => ret (dbNews, None)
        end
    end.

(** [fmt.Sprintf("%v", b)] *)
Definition fmt_bool (b : bool) : string := if b then "true" else "false".

Definition formatNews (job : Job W) (n : models.News) : string :=
  if shouldComposeText job
  then "Hash: " +:+ models.Hash n +:+ nl
       +:+ "Provider: " +:+ models.ProviderName n +:+ nl
       +:+ "Meta: " +:+ models.MetaData_String n +:+ nl
       +:+ "IsSuspicious:" +:+ fmt_bool (models.IsSuspicious n) +:+ nl
       +:+ " " +:+ models.ComposedText n
  else models.OriginalTitle n +:+ nl +:+ models.OriginalDesc n.

(** The body of the loop of [publish], for the record at [n]. *)
Definition publishOne (job : Job W) (n : ptr) : M W (Step error) :=
  do r <- load n;
  (* Skip suspicious news if needed *)
  if models.IsSuspicious r && omitSuspicious job then ret Next
  else
    (* Skip news with empty meta if needed *)
    let skip : Step error + unit :=
      if omitEmptyMeta job then
        let '(meta, err) := json_Unmarshal_Meta rt (models.MetaData r) in
        match err with
        | Some e => inl (Return ("[Job.publish][json.Unmarshal] meta: " +:+ e))
        | None =>
            if (length (meta_Tickers meta) =? 0)%nat
               && (length (meta_Markets meta) =? 0)%nat
               && (length (meta_Hashtags meta) =? 0)%nat
            then inl Next
            else inr tt
        end
      else inr tt in
    match skip with
    | inl st => ret st
    | inr _ =>
        (* Format news *)
        let formattedText := formatNews job r in
        do '(id, err) <- call (Publish (app_publisher (app job)) formattedText);
        run emit (EvPublish n r formattedText id err);
        match err with
        | Some e => ret (Return ("[Job.publish][publisher.Publish]: " +:+ e))
        | None =>
            (* Save publication data to the entity *)
            do now <- call (time_Now rt);
            (* n.PublicationID = id; n.PublishedAt = time.Now() *)
            run store n (models.set_publication id now r);
            ret Next
        end
    end.

Fixpoint publishLoop (job : Job W) (dbNews : list ptr) : M W (option error) :=
  match dbNews with
  | [] => ret None
  | n :: rest =>
      do st <- publishOne job n;
      match st with
      | Return e => ret (Some e)
      | Next => publishLoop job rest
      end
  end.

(** publish publishes the news to the channel *)
Definition publish (job : Job W) (dbNews : list ptr)
  : M W (list ptr * option error) :=
  do err <- publishLoop job dbNews;
  match err with
  | Some e => ret ([], Some e)
  | None => ret (dbNews, None)
  end.

Fixpoint updateAll (job : Job W) (dbNews : list ptr) : M W (option error) :=
  match dbNews with
  | [] => ret None
  | n :: rest =>
      do r <- load n;
      do '(r', err) <- call (Update (app_archivist (app job)) r);
      run store n r';
      run emit (EvUpdate n r err);
      match err with
      | Some e => ret (Some ("[Job.updateNews][News.Update]: " +:+ e))
      | None => updateAll job rest
      end
  end.

(** updateNews updates news in the database *)
Definition updateNews (job : Job W) (dbNews : list ptr) : M W (option error) :=
  if negb (shouldSaveToDB job) then ret None
  else updateAll job dbNews.

Definition jobName (job : Job W) : string := "Run." +:+ Name (job_journalist job).

(** [job.app.logger.X(fmt.Sprintf("[%s][stage]", jobName), "error", err)]
    followed by [hub.CaptureException(err)] *)
Definition report (job : Job W) (lvl : LogLevel) (stage : string) (e : error)
  : M W unit :=
  run emit (EvLog lvl ("[" +:+ jobName job +:+ "][" +:+ stage +:+ "]") e);
  emit (EvCapture e).

Definition breadcrumb (msg : string) (count : option nat) : M W unit :=
  emit (EvBreadcrumb msg count).

(** The closure that [Run] returns, and the scheduler executes. *)
Definition Run (job : Job W) : M W RunExit :=
  do '(news, err) <- call (GetLatestNews (job_journalist job) (until job));
  run emit (EvGetLatestNews (until job) news err);
  run match err with
      | Some e => report job Info "GetLatestNews" e
      | None => ret tt
      end;
  run breadcrumb "GetLatestNews returned %d news" (Some (length news));
  if (length news =? 0)%nat then ret NoNews
  else
    do '(uniqueNews, err) <- removeDuplicates job news;
    match err with
    | Some e => run report job Info "removeDuplicates" e; ret RemoveDuplicatesFailed
    | None =>
    run breadcrumb "removeDuplicates returned %d news" (Some (length uniqueNews));
    if (length uniqueNews =? 0)%nat then ret NoUniqueNews
    else
      do '(composedNews, err) <- composeNews job uniqueNews;
      match err with
      | Some e => run report job Warn "composeNews" e; ret ComposeNewsFailed
      | None =>
      run breadcrumb "composeNews returned %d news" (Some (length composedNews));
      let jobData := mkJobData uniqueNews composedNews [] in
      do '(dbNews, err) <- saveNews job jobData;
      match err with
      | Some e => run report job Warn "saveNews" e; ret SaveNewsFailed
      | None =>
      run breadcrumb "saveNews returned %d news" (Some (length dbNews));
      do '(dbNews', err) <- publish job dbNews;
      match err with
      | Some e => run report job Warn "publish" e; ret PublishFailed
      | None =>
      run breadcrumb "publish returned %d news" (Some (length dbNews'));
      do err <- updateNews job dbNews';
      match err with
      | Some e => run report job Warn "updateNews" e; ret UpdateNewsFailed
      | None =>
      run breadcrumb "updateNews finished" None;
      ret Finished
      end end end end end.
End Job.

(** ** A small concrete world, to run the pipeline on

    The world counts the [Create] calls made so far; [Create] fails on the
    call numbered [failAt] (from 0).  The database holds the records
    [stored], every publication succeeds, the clock shows November 15, 2023,
    and the OpenAI client answers with one choice that decodes to
    [composed]. *)
Module demo.
Definition World := nat.

Definition now : time.Time := time.mkTime 2023 11 15 0.

Definition allIDs (news : journalist.NewsList) : string :=
  fold_right (fun n acc => journalist.ID n +:+ ";" +:+ acc) "" news.

Definition rt (composed : list composer.ComposedNews) : Runtime World :=
  {| time_Now := fun w => (now, w);
     encodeMeta := fun m =>
       (match meta_Tickers m, meta_Markets m, meta_Hashtags m with
        | [], [], [] => "{}"
        | _, _, _ => "{...}"
        end, None);
     decodeMeta := fun b =>
       if String.eqb b "{}" then (zeroMeta, None)
       else if String.eqb b "{...}" then (mkMeta ["T"] [] [], None)
       else (zeroMeta, Some "invalid character");
     decodeComposed := fun _ => (composed, None);
     ToContentJSON := fun news => (allIDs news, None) |}.

Definition theComposer : composer.Composer World :=
  {| composer.CreateChatCompletion := fun _ w =>
       (({| Choices := [ {| Role := "assistant"; Content := "[...]" |} ] |}, None), w);
     composer.Config_ := {| composer.ComposePrompt := "prompt" |} |}.

Definition thePublisher : Publisher World :=
  {| ChannelID := "@channel";
     Publish := fun _ w => (("msg", None), w) |}.

Definition theArchivist (stored : list models.News) (failAt : option nat)
  : Archivist World :=
  {| FindAllByHashes := fun hashes w =>
       ((List.filter (fun r => slices_Contains hashes (models.Hash r)) stored, None), w);
     Create := fun r w =>
       ((r, match failAt with
            | Some k => if (w =? k)%nat then Some "connection lost" else None
            | None => None
            end), S w);
     Update := fun r w => ((r, None), w) |}.

Definition theApp (stored : list models.News) (failAt : option nat) : App World :=
  {| app_composer := theComposer;
     app_publisher := thePublisher;
     app_archivist := theArchivist stored failAt |}.

Definition theJournalist (news : journalist.NewsList) (err : option error)
  : Journalist World :=
  {| Name := "feed"; GetLatestNews := fun _ w => ((news, err), w) |}.

Definition item (id : string) (date : time.Time) (suspicious : bool)
  : journalist.News :=
  {| journalist.ID := id;
     journalist.Title := "title " +:+ id;
     journalist.Description := "description " +:+ id;
     journalist.Link := "https://example.org/" +:+ id;
     journalist.Date := date;
     journalist.ProviderName := "provider";
     journalist.IsSuspicious := suspicious |}.

Definition A := item "A" now false.
Definition B := item "B" now false.
Definition C := item "C" now true.

(** An item of the 15th of the month before. *)
Definition stale := item "old" (time.mkTime 2023 10 15 0) false.

Definition composedA : composer.ComposedNews :=
  composer.mkComposedNews "A" "text A" ["AAPL"] [] [].
Definition composedC : composer.ComposedNews :=
  composer.mkComposedNews "C" "text C" [] [] [].
Definition composedStale : composer.ComposedNews :=
  composer.mkComposedNews "old" "text old" ["MSFT"] [] [].

Definition start : St World := {| world := 0%nat; heap := [] |}.

Definition record (hash : string) (suspicious : bool) (meta : option string)
  : models.News :=
  {| models.Hash := hash; models.ChannelID := "@channel";
     models.ProviderName := "provider"; models.OriginalTitle := "t";
     models.OriginalDesc := "d"; models.OriginalDate := now;
     models.URL := "u"; models.IsSuspicious := suspicious;
     models.ComposedText := ""; models.MetaData := meta;
     models.PublicationID := ""; models.PublishedAt := time.zero |}.

(** The job with nothing switched on, on an empty database. *)
Definition job (news : journalist.NewsList) (err : option error) : Job World :=
  NewJob (theApp [] None) (theJournalist news err).

(** The job that saves, on a database where the create call numbered
    [failAt] fails. *)
Definition savingJob (news : journalist.NewsList) (failAt : option nat)
  : Job World :=
  SaveToDB (ComposeText (NewJob (theApp [] failAt) (theJournalist news None))).

(** The saving job that also drops duplicates, on a database that holds a
    record of hash "B". *)
Definition dedupeJob : Job World :=
  RemoveClones (SaveToDB
    (NewJob (theApp [record "B" false None] None) (theJournalist [A; B; C] None))).

(** The saving job with both filters of [publish] switched on. *)
Definition filteringJob (news : journalist.NewsList) : Job World :=
  OmitEmptyMeta (OmitSuspicious (savingJob news None)).

(** The data of a run that composed [A] out of [A] and [B]. *)
Definition twoNews : JobData :=
  {| News := [A; B]; ComposedNews := [composedA]; DBNews := [] |}.

(** As many composed news as news: [A] was composed, [B] was not, and the
    second composed news is for an id that is not among the news. *)
Definition asManyComposed : JobData :=
  {| News := [A; B]; ComposedNews := [composedA; composedStale]; DBNews := [] |}.

(** More composed news than news. *)
Definition tooManyComposed : JobData :=
  {| News := [A]; ComposedNews := [composedA; composedC]; DBNews := [] |}.

Definition threeNews : JobData :=
  {| News := [A; B; C]; ComposedNews := []; DBNews := [] |}.

(** A heap of two records, the second without metadata. *)
Definition twoRecords : St World :=
  {| world := 0%nat;
     heap := [record "h0" false (Some "{...}"); record "h1" false None] |}.

(** A heap of one suspicious record without metadata. *)
Definition oneSuspicious : St World :=
  {| world := 0%nat; heap := [record "h0" true None] |}.

(** A publisher that refuses every message. *)
Definition failingPublisher : Publisher World :=
  {| ChannelID := "@channel";
     Publish := fun _ w => (("", Some "flood control"), w) |}.

(** The saving job whose publisher refuses every message. *)
Definition publishFailsJob : Job World :=
  SaveToDB
    (NewJob {| app_composer := theComposer;
               app_publisher := failingPublisher;
               app_archivist := theArchivist [] None |}
            (theJournalist [A] None)).

(** The saving job that drops duplicates and fetches only [B], on a
    database that holds a record of hash "B". *)
Definition knownJob : Job World :=
  RemoveClones (SaveToDB
    (NewJob (theApp [record "B" false None] None) (theJournalist [B] None))).

(** An OpenAI client that answers with no choice, and one that fails. *)
Definition silentComposer : composer.Composer World :=
  {| composer.CreateChatCompletion := fun _ w => (({| Choices := [] |}, None), w);
     composer.Config_ := {| composer.ComposePrompt := "prompt" |} |}.
Definition failingComposer : composer.Composer World :=
  {| composer.CreateChatCompletion := fun _ w =>
       (({| Choices := [] |}, Some "rate limit"), w);
     composer.Config_ := {| composer.ComposePrompt := "prompt" |} |}.

(** The saving job whose fetch returns [A] together with an error. *)
Definition faultyJob : Job World :=
  SaveToDB (ComposeText
    (NewJob (theApp [] None) (theJournalist [A] (Some "timeout")))).

(** An item of the day before, and a second composed news for "A". *)
Definition yesterday := item "D" (time.mkTime 2023 11 14 0) false.
Definition composedAgain : composer.ComposedNews :=
  composer.mkComposedNews "A" "text A, again" [] ["US"] [].
End demo.

(** * The vocabulary of the properties *)

Section Vocabulary.
Context {W : Type} (rt : Runtime W).

(** [holds m Q P]: whatever the state, every event of [m] satisfies [P],
    and a value it returns satisfies [Q]. *)
Definition holds {A} (m : M W A) (Q : A -> Prop) (P : Event -> Prop) : Prop :=
  forall s, Forall P (events (m s)) /\
            forall a, result (m s) = Done a -> Q a.

Definition emptyMeta (m : Meta) : bool :=
  (length (meta_Tickers m) =? 0)%nat
  && (length (meta_Markets m) =? 0)%nat
  && (length (meta_Hashtags m) =? 0)%nat.

(** What is known of a record when [publish] hands its text to the
    publisher: neither filter of the loop skipped it. *)
Definition passedFilters (job : Job W) (r : models.News) : Prop :=
  models.IsSuspicious r && omitSuspicious job = false
  /\ (omitEmptyMeta job = true ->
      exists meta, json_Unmarshal_Meta rt (models.MetaData r) = (meta, None)
                   /\ emptyMeta meta = false).

(** Everything [publish] leaves of a record but its publication. *)
Definition samePersisted (r r' : models.News) : Prop :=
  r' = models.set_publication (models.PublicationID r') (models.PublishedAt r') r.

(** [publish] writes to the records it published, and there only the
    publication; a suspicious record is left as it was when
    [omitSuspicious] is set. *)
Definition publishFrame (job : Job W) (h h' : list models.News) : Prop :=
  forall p r, h !! p = Some r ->
    exists r', h' !! p = Some r' /\ samePersisted r r'
      /\ (models.IsSuspicious r && omitSuspicious job = true -> r' = r).

(** The composed news that [saveNews] finds for an id: the last one of the
    list with that id, as later entries of the map replace earlier ones. *)
Fixpoint findComposed (id : string) (composed : list composer.ComposedNews)
  : option composer.ComposedNews :=
  match composed with
  | [] => None
  | c :: rest =>
      match findComposed id rest with
      | Some c' => Some c'
      | None => if String.eqb (composer.ID c) id then Some c else None
      end
  end.

(** The record that [saveNews] builds for a news [n], given the composed
    news of the run. *)
Definition persistedFrom (job : Job W) (composed : list composer.ComposedNews)
    (n : journalist.News) (r : models.News) : Prop :=
  models.Hash r = journalist.ID n
  /\ models.ChannelID r = ChannelID (app_publisher (app job))
  /\ models.ProviderName r = journalist.ProviderName n
  /\ models.OriginalTitle r = journalist.Title n
  /\ models.OriginalDesc r = journalist.Description n
  /\ models.OriginalDate r = journalist.Date n
  /\ models.URL r = journalist.Link n
  /\ models.IsSuspicious r = journalist.IsSuspicious n
  /\ models.PublicationID r = ""
  /\ models.PublishedAt r = time.zero
  /\ match findComposed (journalist.ID n) composed with
     | Some c =>
         models.ComposedText r = composer.Text c
         /\ exists meta,
             json_Marshal_Meta rt
               {| meta_Tickers := composer.Tickers c;
                  meta_Markets := composer.Markets c;
                  meta_Hashtags := composer.Hashtags c |} = (meta, None)
             /\ models.MetaData r = Some meta
     | None => models.ComposedText r = "" /\ models.MetaData r = None
     end.

(** The records of a create loop that all succeeded, and of one that failed
    at the record numbered [k]. *)
Definition allCreated (recs : list models.News) : list (models.News * option error) :=
  map (fun r => (r, None)) recs.

Definition failedAt (k : nat) (r : models.News) (e0 : error)
    (recs : list models.News) : list (models.News * option error) :=
  allCreated (take k recs) ++ [(r, Some e0)].

(** An event that is no call to create, publish or update a record. *)
Definition neutral (e : Event) : Prop :=
  isCreate e = false /\ isPublish e = false /\ isUpdate e = false.

(** What C9 says of the outcome of a run of [job]. *)
Definition createFailureIsFatal (job : Job W)
    (o : Res RunExit * St W * list Event) : Prop :=
  forall k r e,
    createCalls (events o) !! k = Some (r, Some e) ->
    result o = Done SaveNewsFailed
    /\ length (createCalls (events o)) = S k
    /\ (forall i ri erri,
           i < k -> createCalls (events o) !! i = Some (ri, erri) -> erri = None)
    /\ Forall (fun ev => isPublish ev = false /\ isUpdate ev = false) (events o)
    /\ exists before,
         events o
         = before
           ++ [EvLog Warn ("[" +:+ jobName job +:+ "][saveNews]")
                 ("[Job.saveNews][News.Create]: " +:+ e);
               EvCapture ("[Job.saveNews][News.Create]: " +:+ e)].

(** The job with another journalist. *)
Definition withJournalist (j : Journalist W) (job : Job W) : Job W :=
  mkJob (app job) j (until job) (omitSuspicious job) (omitEmptyMeta job)
        (shouldComposeText job) (shouldSaveToDB job) (shouldRemoveClones job).

(** The journalist that returns the same news and never an error. *)
Definition withoutFetchError (j : Journalist W) : Journalist W :=
  {| Name := Name j;
     GetLatestNews := fun t w =>
       let '((news, _), w') := GetLatestNews j t w in ((news, None), w') |}.

(** What [Run] emits about the error of the fetch. *)
Definition fetchReport (job : Job W) (err : option error) : list Event :=
  match err with
  | Some e => [EvLog Info ("[" +:+ jobName job +:+ "][GetLatestNews]") e; EvCapture e]
  | None => []
  end.

(** What it is for a run to go on with the news of the fetch.  [o] is what
    follows the breadcrumb of the fetch, and [s1] the state there.  The
    events of [o] start with those of [removeDuplicates] on these news; when
    it returns some news and no error, there follow a breadcrumb with their
    number and the events of [composeNews] on them; when that returns no
    error, a breadcrumb and the events of [saveNews] on the news and what
    was composed for them; when that returns no error, a breadcrumb and the
    events of [publish] on the records; when that returns no error, a
    breadcrumb and the events of [updateNews] on what [publish] returned;
    and when that returns no error, a last breadcrumb, with which the run
    ends. *)
Definition proceedsWith (job : Job W) (news : journalist.NewsList) (s1 : St W)
    (o : Res RunExit * St W * list Event) : Prop :=
  exists tail2,
    events o = events (removeDuplicates job news s1) ++ tail2
    /\ forall unique s2 t2,
         removeDuplicates job news s1 = (Done (unique, None), s2, t2) ->
         unique <> [] ->
  exists tail3,
    tail2 = EvBreadcrumb "removeDuplicates returned %d news" (Some (length unique))
              :: events (composeNews rt job unique s2) ++ tail3
    /\ forall composed s3 t3,
         composeNews rt job unique s2 = (Done (composed, None), s3, t3) ->
  exists tail4,
    tail3 = EvBreadcrumb "composeNews returned %d news" (Some (length composed))
              :: events (saveNews rt job (mkJobData unique composed []) s3) ++ tail4
    /\ forall dbNews s4 t4,
         saveNews rt job (mkJobData unique composed []) s3
           = (Done (dbNews, None), s4, t4) ->
  exists tail5,
    tail4 = EvBreadcrumb "saveNews returned %d news" (Some (length dbNews))
              :: events (publish rt job dbNews s4) ++ tail5
    /\ forall dbNews' s5 t5,
         publish rt job dbNews s4 = (Done (dbNews', None), s5, t5) ->
  exists tail6,
    tail5 = EvBreadcrumb "publish returned %d news" (Some (length dbNews'))
              :: events (updateNews job dbNews' s5) ++ tail6
    /\ forall s6 t6,
         updateNews job dbNews' s5 = (Done None, s6, t6) ->
         tail6 = [EvBreadcrumb "updateNews finished" None]
         /\ result o = Done Finished
         /\ final o = s6.

(** The update calls of a trace: record handed over, and the answer. *)
Definition updateCalls (t : list Event) : list (models.News * option error) :=
  omap (fun e => match e with EvUpdate _ r err => Some (r, err) | _ => None end) t.

(** The stage of [Run] that calls a collaborator: the fetch is 0, then
    dedupe, compose, persist, publish and update.  Log lines, captures and
    breadcrumbs belong to no stage. *)
Definition callStage (e : Event) : option nat :=
  match e with
  | EvGetLatestNews _ _ _ => Some 0
  | EvFindAllByHashes _ _ _ => Some 1
  | EvChatCompletion _ _ _ => Some 2
  | EvCreate _ _ _ => Some 3
  | EvPublish _ _ _ _ _ => Some 4
  | EvUpdate _ _ _ => Some 5
  | EvLog _ _ _ | EvCapture _ | EvBreadcrumb _ _ => None
  end.

(** The last stage that a run went through, by its exit. *)
Definition reach (x : RunExit) : nat :=
  match x with
  | NoNews => 0
  | RemoveDuplicatesFailed | NoUniqueNews => 1
  | ComposeNewsFailed => 2
  | SaveNewsFailed => 3
  | PublishFailed => 4
  | UpdateNewsFailed | Finished => 5
  end.

(** The exit that [Run] takes when a call answers with an error; the error
    of the fetch is none of them. *)
Definition failureExit (e : Event) : option RunExit :=
  match e with
  | EvFindAllByHashes _ _ (Some _) => Some RemoveDuplicatesFailed
  | EvChatCompletion _ _ (Some _) => Some ComposeNewsFailed
  | EvCreate _ _ (Some _) => Some SaveNewsFailed
  | EvPublish _ _ _ _ (Some _) => Some PublishFailed
  | EvUpdate _ _ (Some _) => Some UpdateNewsFailed
  | _ => None
  end.

(** The calls of a trace come stage after stage. *)
Definition stagesInOrder (t : list Event) : Prop :=
  StronglySorted le (omap callStage t).

(** A trace of calls of the stage [n] that all succeeded, or, with
    [failed], whose failures are those of the exit [x]. *)
Definition stageTrace (n : nat) (x : RunExit) (failed : bool) (t : list Event)
  : Prop :=
  Forall (fun e => (callStage e = None \/ callStage e = Some n)
                   /\ (failureExit e = None
                       \/ (failed = true /\ failureExit e = Some x))) t.

(** What a run keeps, from the stage [n] on: its calls are of the stages
    from [n], in order and not beyond the stage of its exit, and a call that
    failed names the exit. *)
Definition staged (n : nat) (o : Res RunExit * St W * list Event) : Prop :=
  Forall (fun e => forall k, callStage e = Some k -> n <= k) (events o)
  /\ stagesInOrder (events o)
  /\ match result o with
     | Done x =>
         n <= reach x
         /\ Forall (fun e => forall k, callStage e = Some k -> k <= reach x)
                   (events o)
         /\ Forall (fun e => failureExit e = None \/ failureExit e = Some x)
                   (events o)
     | Panicked _ => Forall (fun e => failureExit e = None) (events o)
     end.

(** What a run that reaches its end does with the publications: a record
    that the publisher accepted is handed to [Update] with the id that the
    publisher gave for it. *)
Definition writesBack (o : Res RunExit * St W * list Event) : Prop :=
  result o = Done Finished ->
  forall n r text id,
    EvPublish n r text id None ∈ events o ->
    exists now, EvUpdate n (models.set_publication id now r) None ∈ events o.
End Vocabulary.

(** * Properties *)

(** ** The monad *)

Section Laws.
Context {W : Type}.

Lemma bind_inv {A B} (m : M W A) (k : A -> M W B) s r s' t :
  bind m k s = (r, s', t) ->
  (exists why, m s = (Panicked why, s', t) /\ r = Panicked why) \/
  (exists a s1 t1 t2,
      m s = (Done a, s1, t1) /\ k a s1 = (r, s', t2) /\ t = t1 ++ t2).
Proof.
  unfold bind. destruct (m s) as [[[a | why] s1] t1].
  - destruct (k a s1) as [[r2 s2] t2] eqn:Ek. intros [= <- <- <-].
    right. exists a, s1, t1, t2. auto.
  - intros [= <- <- <-]. left. exists why. auto.
Qed.

Lemma bind_Done {A B} (m : M W A) (k : A -> M W B) s a s1 t1 :
  m s = (Done a, s1, t1) ->
  bind m k s = (result (k a s1), final (k a s1), t1 ++ events (k a s1)).
Proof.
  intros E. unfold bind. rewrite E.
  destruct (k a s1) as [[r s2] t2]. reflexivity.
Qed.

Lemma bind_Panicked {A B} (m : M W A) (k : A -> M W B) s why s1 t1 :
  m s = (Panicked why, s1, t1) ->
  bind m k s = (Panicked why, s1, t1).
Proof. intros E. unfold bind. rewrite E. reflexivity. Qed.

Lemma bind_ret {A B} (a : A) (k : A -> M W B) s : bind (ret a) k s = k a s.
Proof. unfold bind, ret. destruct (k a s) as [[r s2] t2]. reflexivity. Qed.

Lemma bind_assoc {A B C} (m : M W A) (f : A -> M W B) (g : B -> M W C) s :
  bind (bind m f) g s = bind m (fun x => bind (f x) g) s.
Proof.
  unfold bind. destruct (m s) as [[[a | why] s1] t1]; [| reflexivity].
  destruct (f a s1) as [[[b | why] s2] t2]; [| reflexivity].
  destruct (g b s2) as [[r s3] t3]. rewrite app_assoc. reflexivity.
Qed.

Lemma bind_alloc {B} r (k : ptr -> M W B) s :
  bind (alloc r) k s = k (length (heap s)) (mkSt (world s) (heap s ++ [r])).
Proof.
  unfold bind, alloc.
  destruct (k (length (heap s)) _) as [[r2 s2] t2]. reflexivity.
Qed.

Lemma bind_load {B} n r (k : models.News -> M W B) s :
  heap s !! n = Some r -> bind (load n) k s = k r s.
Proof.
  intros H. unfold bind, load. rewrite H.
  destruct (k r s) as [[r2 s2] t2]. reflexivity.
Qed.

Lemma bind_load_nil {B} n (k : models.News -> M W B) s :
  heap s !! n = None ->
  bind (load n) k s
  = (Panicked "invalid memory address or nil pointer dereference", s, []).
Proof. intros H. unfold bind, load. rewrite H. reflexivity. Qed.

Lemma bind_store {B} n r r0 (k : unit -> M W B) s :
  heap s !! n = Some r0 ->
  bind (store n r) k s = k tt (mkSt (world s) (<[n := r]> (heap s))).
Proof.
  intros H. unfold bind, store. rewrite H.
  destruct (k tt _) as [[r2 s2] t2]. reflexivity.
Qed.

Lemma bind_call {A B} (f : W -> A * W) a w (k : A -> M W B) s :
  f (world s) = (a, w) -> bind (call f) k s = k a (mkSt w (heap s)).
Proof.
  intros H. unfold bind, call. rewrite H.
  destruct (k a _) as [[r2 s2] t2]. reflexivity.
Qed.

Lemma bind_emit {B} e (k : unit -> M W B) s :
  bind (emit e) k s = (result (k tt s), final (k tt s), e :: events (k tt s)).
Proof.
  unfold bind, emit. destruct (k tt s) as [[r2 s2] t2]. reflexivity.
Qed.

Lemma out_eta {A} (o : Res A * St W * list Event) :
  o = (result o, final o, events o).
Proof. destruct o as [[r s] t]. reflexivity. Qed.

Lemma holds_ret {A} (a : A) (Q : A -> Prop) P : Q a -> holds (W:=W) (ret a) Q P.
Proof.
  intros Ha s. split; [constructor |]. cbn. intros b [= <-]. exact Ha.
Qed.

Lemma holds_panic {A} why (Q : A -> Prop) P : holds (W:=W) (panic why) Q P.
Proof. intros s. split; [constructor | cbn; discriminate]. Qed.

Lemma holds_emit e (Q : unit -> Prop) (P : Event -> Prop) :
  P e -> Q tt -> holds (W:=W) (emit e) Q P.
Proof.
  intros He Hq s. split; cbn.
  - constructor; [exact He | constructor].
  - intros [] _. exact Hq.
Qed.

Lemma holds_call {A} (f : W -> A * W) (Q : A -> Prop) P :
  (forall a, Q a) -> holds (call f) Q P.
Proof.
  intros Hq s. unfold call. destruct (f (world s)) as [a w].
  split; [constructor | intros b _; apply Hq].
Qed.

Lemma holds_alloc r (Q : ptr -> Prop) P : (forall p, Q p) -> holds (W:=W) (alloc r) Q P.
Proof. intros Hq s. split; [constructor | intros b _; apply Hq]. Qed.

Lemma holds_load n (Q : models.News -> Prop) P :
  (forall r, Q r) -> holds (W:=W) (load n) Q P.
Proof.
  intros Hq s. unfold load. destruct (heap s !! n).
  - split; [constructor | intros b _; apply Hq].
  - split; [constructor | cbn; discriminate].
Qed.

Lemma holds_store n r (Q : unit -> Prop) P : Q tt -> holds (W:=W) (store n r) Q P.
Proof.
  intros Hq s. unfold store. destruct (heap s !! n).
  - split; [constructor | intros [] _; exact Hq].
  - split; [constructor | cbn; discriminate].
Qed.

Lemma holds_bind {A B} (m : M W A) (k : A -> M W B) Q Q' P :
  holds m Q P -> (forall a, Q a -> holds (k a) Q' P) ->
  holds (bind m k) Q' P.
Proof.
  intros Hm Hk s. destruct (Hm s) as [Hev Hres].
  unfold bind. destruct (m s) as [[[a | why] s1] t1].
  - cbn in Hev, Hres. specialize (Hk a (Hres a eq_refl) s1).
    destruct (k a s1) as [[r s2] t2]. destruct Hk as [Hev2 Hres2].
    split; cbn in *.
    + apply Forall_app. auto.
    + exact Hres2.
  - split; [exact Hev | cbn; discriminate].
Qed.

Lemma holds_weaken {A} (m : M W A) (Q Q' : A -> Prop) (P P' : Event -> Prop) :
  holds m Q P -> (forall a, Q a -> Q' a) -> (forall e, P e -> P' e) ->
  holds m Q' P'.
Proof.
  intros Hm Hq Hp s. destruct (Hm s) as [Hev Hres]. split.
  - eapply Forall_impl; eauto.
  - intros a Ha. auto.
Qed.

Lemma holds_post {A} (m : M W A) (Q Q' : A -> Prop) (P : Event -> Prop) :
  holds m Q P -> (forall a, Q a -> Q' a) -> holds m Q' P.
Proof. intros Hm Hq. eapply holds_weaken; eauto. Qed.

Lemma holds_events {A} (m : M W A) Q P s : holds m Q P -> Forall P (events (m s)).
Proof. intros H. apply H. Qed.
End Laws.

(** One step of a proof by [holds]: a primitive, a [bind] whose first
    computation is a primitive, or a case distinction of the code. *)
Ltac holds_first :=
  first
    [ apply (holds_call _ (fun _ => True)); intros; exact I
    | apply (holds_alloc _ (fun _ => True)); intros; exact I
    | apply (holds_load _ (fun _ => True)); intros; exact I
    | apply (holds_store _ _ (fun _ => True)); exact I
    | apply (holds_emit _ (fun _ => True)); [ | exact I ] ].

Ltac holds_step :=
  lazymatch goal with
  | |- holds (ret _) _ _ => apply holds_ret
  | |- holds (panic _) _ _ => apply holds_panic
  | |- holds (emit _) _ _ => apply holds_emit
  | |- holds (call _) _ _ => apply holds_call; intros ?
  | |- holds (load _) _ _ => apply holds_load; intros ?
  | |- holds (store _ _) _ _ => apply holds_store
  | |- holds (alloc _) _ _ => apply holds_alloc; intros ?
  | |- holds (bind (call _) _) _ _ => eapply holds_bind; [ holds_first | intros ? _ ]
  | |- holds (bind (load _) _) _ _ => eapply holds_bind; [ holds_first | intros ? _ ]
  | |- holds (bind (alloc _) _) _ _ => eapply holds_bind; [ holds_first | intros ? _ ]
  | |- holds (bind (store _ _) _) _ _ => eapply holds_bind; [ holds_first | intros ? _ ]
  | |- holds (bind (emit _) _) _ _ => eapply holds_bind; [ holds_first | intros ? _ ]
  | |- holds (match ?x with _ => _ end) _ _ => destruct x eqn:?
  | |- holds _ _ _ => progress cbn beta iota
  end.

(** ** [slices.Contains] and the loop of [removeDuplicates] *)

Lemma slices_Contains_spec (s : list string) (v : string) :
  slices_Contains s v = true <-> v ∈ s.
Proof.
  induction s as [| x s IH]; simpl.
  - split; [discriminate | intros H; inversion H].
  - destruct (String.eqb v x) eqn:E.
    + apply String.eqb_eq in E. subst. split; [intros _; left | reflexivity].
    + apply String.eqb_neq in E. rewrite IH. split.
      * intros H. right. exact H.
      * intros H. inversion H; subst; [contradiction | assumption].
Qed.

Lemma unique_loop_filter (existed : list string) (news acc : journalist.NewsList) :
  fold_left
    (fun (acc : journalist.NewsList) n =>
       if negb (slices_Contains existed (journalist.ID n)) then acc ++ [n] else acc)
    news acc
  = acc ++ filter (fun n => journalist.ID n ∉ existed) news.
Proof.
  revert acc. induction news as [| n news IH]; intros acc; cbn [fold_left].
  - symmetry. apply app_nil_r.
  - rewrite IH. destruct (slices_Contains existed (journalist.ID n)) eqn:E; cbn [negb].
    + apply slices_Contains_spec in E.
      rewrite filter_cons_False by (intros H; apply H; exact E). reflexivity.
    + assert (journalist.ID n ∉ existed) as Hn.
      { intros H. apply slices_Contains_spec in H. congruence. }
      rewrite filter_cons_True by exact Hn.
      rewrite <- app_assoc. reflexivity.
Qed.

Section Properties.
Context {W : Type} (rt : Runtime W).

(** *** The dedupe stage, and the count check of the persist stage *)

(** C3. Dedupe.  When both [shouldRemoveClones] and [shouldSaveToDB] are
    set and the archivist answers the query, [removeDuplicates] asks once,
    for the ids of the input in order, and returns exactly the input items
    whose id is not the hash of a record found, in the input order.  When
    one of the two flags is off, it returns its input as it is, and asks
    nothing. *)
Theorem C3_removeDuplicates_filters (job : Job W) (news : journalist.NewsList)
    (s : St W) :
  (forall found w',
      shouldRemoveClones job = true -> shouldSaveToDB job = true ->
      FindAllByHashes (app_archivist (app job)) (map journalist.ID news) (world s)
        = ((found, None), w') ->
      removeDuplicates job news s
      = (Done (filter (fun n => journalist.ID n ∉ map models.Hash found) news, None),
         mkSt w' (heap s),
         [EvFindAllByHashes (map journalist.ID news) found None]))
  /\ (shouldRemoveClones job && shouldSaveToDB job = false ->
      removeDuplicates job news s = (Done (news, None), s, [])).
Proof.
  split.
  - intros found w' Hc Hs Hq. unfold removeDuplicates.
    rewrite Hc, Hs. simpl. unfold bind, call. rewrite Hq. simpl.
    rewrite unique_loop_filter. reflexivity.
  - intros Hf. unfold removeDuplicates.
    destruct (shouldRemoveClones job), (shouldSaveToDB job);
      simpl in *; try discriminate; reflexivity.
Qed.

(** C4. Persist, the count check.  With [shouldSaveToDB] set, when there
    are more composed news than news, [saveNews] returns its consistency
    error at once: the state is untouched and the trace is empty, so no
    [Create] was called. *)
Theorem C4_saveNews_count_check (job : Job W) (data : JobData) (s : St W) :
  shouldSaveToDB job = true ->
  length (News data) < length (ComposedNews data) ->
  saveNews rt job data s
  = (Done ([], Some "[Job.saveNews]: Composed news count is more than original news count"),
     s, [])
  /\ createCalls (events (saveNews rt job data s)) = [].
Proof.
  intros Hs Hlt. unfold saveNews. rewrite Hs. simpl.
  apply Nat.ltb_lt in Hlt. rewrite Hlt. split; reflexivity.
Qed.

(** *** The events of each stage *)

Lemma removeDuplicates_holds (job : Job W) news (P : Event -> Prop) :
  (forall h f e, P (EvFindAllByHashes h f e)) ->
  holds (removeDuplicates job news) (fun _ => True) P.
Proof.
  intros HP. unfold removeDuplicates.
  repeat (holds_step; auto).
Qed.

Lemma filterToday_holds news (P : Event -> Prop) :
  holds (filterToday rt news) (fun _ => True) P.
Proof.
  induction news as [| n news IH]; cbn [filterToday].
  - holds_step. exact I.
  - holds_step. eapply holds_bind; [exact IH | intros kept _].
    holds_step. exact I.
Qed.

Lemma Compose_holds (c : composer.Composer W) news (P : Event -> Prop) :
  (forall req resp e, P (EvChatCompletion req resp e)) ->
  holds (Compose rt c news) (fun _ => True) P.
Proof.
  intros HP. unfold Compose.
  eapply holds_bind; [apply filterToday_holds | intros today _].
  repeat (holds_step; auto).
Qed.

Lemma composeNews_holds (job : Job W) news (P : Event -> Prop) :
  (forall req resp e, P (EvChatCompletion req resp e)) ->
  holds (composeNews rt job news) (fun _ => True) P.
Proof.
  intros HP. unfold composeNews.
  holds_step; [holds_step; exact I |].
  eapply holds_bind; [apply Compose_holds; exact HP | intros [composed err] _].
  repeat (holds_step; auto).
Qed.

Lemma buildDBNews_holds (job : Job W) m news (P : Event -> Prop) :
  holds (buildDBNews rt job m news) (fun _ => True) P.
Proof.
  induction news as [| n news IH]; cbn [buildDBNews].
  - holds_step. exact I.
  - holds_step. eapply holds_bind with (Q := fun _ => True).
    + repeat (holds_step; auto).
    + intros st _. holds_step; [| holds_step; exact I].
      eapply holds_bind; [exact IH | intros [ps err] _].
      repeat (holds_step; auto).
Qed.

Lemma createAll_holds (job : Job W) dbNews (P : Event -> Prop) :
  (forall n r e, P (EvCreate n r e)) ->
  holds (createAll job dbNews) (fun _ => True) P.
Proof.
  intros HP. induction dbNews as [| n rest IH]; cbn [createAll].
  - holds_step. exact I.
  - do 2 holds_step. destruct a0 as [r' err].
    do 2 holds_step; [apply HP |].
    holds_step; [holds_step; exact I | exact IH].
Qed.

Lemma saveNews_holds (job : Job W) data (P : Event -> Prop) :
  (forall n r e, P (EvCreate n r e)) ->
  holds (saveNews rt job data) (fun _ => True) P.
Proof.
  intros HP. unfold saveNews.
  holds_step; [holds_step; exact I |].
  holds_step; [holds_step; exact I |].
  eapply holds_bind; [apply buildDBNews_holds | intros [dbNews err] _].
  holds_step; [holds_step; exact I |].
  eapply holds_bind; [apply createAll_holds; exact HP | intros err' _].
  repeat (holds_step; auto).
Qed.

Lemma updateNews_holds (job : Job W) dbNews (P : Event -> Prop) :
  (forall n r e, P (EvUpdate n r e)) ->
  holds (updateNews job dbNews) (fun _ => True) P.
Proof.
  intros HP. unfold updateNews.
  holds_step; [holds_step; exact I |].
  induction dbNews as [| n rest IH]; cbn [updateAll].
  - holds_step. exact I.
  - do 2 holds_step. destruct a0 as [r' err].
    do 2 holds_step; [apply HP |].
    holds_step; [holds_step; exact I | exact IH].
Qed.

Lemma report_holds (job : Job W) lvl stage e (P : Event -> Prop) :
  (forall l m x, P (EvLog l m x)) -> (forall x, P (EvCapture x)) ->
  holds (report job lvl stage e) (fun _ => True) P.
Proof.
  intros Hl Hc. unfold report. holds_step; [apply Hl |].
  holds_step; [apply Hc | exact I].
Qed.

Lemma breadcrumb_holds msg c (P : Event -> Prop) :
  P (EvBreadcrumb msg c) -> holds (@breadcrumb W msg c) (fun _ => True) P.
Proof. intros HP. unfold breadcrumb. apply holds_emit; [exact HP | exact I]. Qed.

(** The events of a run satisfy [P] as soon as those of the three stages
    that work on the records do, and [P] holds of every other event.  [Qs]
    is what is known of the records that [saveNews] hands to [publish], and
    [publish] to [updateNews]. *)
Lemma Run_holds (job : Job W) (P : Event -> Prop) (Qs : list ptr -> Prop) :
  (forall e, isCreate e = false -> isPublish e = false -> isUpdate e = false -> P e) ->
  (forall data,
      holds (saveNews rt job data) (fun out => out.2 = None -> Qs out.1) P) ->
  (forall d, Qs d ->
      holds (publish rt job d) (fun out => out.2 = None -> Qs out.1) P) ->
  (forall d, Qs d -> holds (updateNews job d) (fun _ => True) P) ->
  holds (Run rt job) (fun _ => True) P.
Proof.
  intros Hother Hsave Hpub Hupd.
  assert (forall lvl stage e, holds (report job lvl stage e) (fun _ => True) P) as Hrep.
  { intros. apply report_holds; intros; apply Hother; reflexivity. }
  assert (forall msg c, holds (@breadcrumb W msg c) (fun _ => True) P) as Hbc.
  { intros. unfold breadcrumb. holds_step; [apply Hother; reflexivity | exact I]. }
  unfold Run.
  holds_step. destruct a as [news ferr].
  holds_step; [apply Hother; reflexivity |].
  eapply holds_bind with (Q := fun _ => True).
  { destruct ferr; [apply Hrep | holds_step; exact I]. }
  intros _ _.
  eapply holds_bind; [apply Hbc | intros _ _].
  holds_step; [holds_step; exact I |].
  eapply holds_bind.
  { apply removeDuplicates_holds. intros. apply Hother; reflexivity. }
  intros [uniqueNews err] _.
  destruct err as [e |].
  { eapply holds_bind; [apply Hrep | intros _ _]. holds_step. exact I. }
  eapply holds_bind; [apply Hbc | intros _ _].
  holds_step; [holds_step; exact I |].
  eapply holds_bind.
  { apply composeNews_holds. intros. apply Hother; reflexivity. }
  intros [composedNews err] _.
  destruct err as [e |].
  { eapply holds_bind; [apply Hrep | intros _ _]. holds_step. exact I. }
  eapply holds_bind; [apply Hbc | intros _ _].
  eapply holds_bind; [apply Hsave | intros [dbNews err] Hq].
  destruct err as [e |].
  { eapply holds_bind; [apply Hrep | intros _ _]. holds_step. exact I. }
  specialize (Hq eq_refl). cbn in Hq.
  eapply holds_bind; [apply Hbc | intros _ _].
  eapply holds_bind; [apply Hpub; exact Hq | intros [dbNews' err] Hq'].
  destruct err as [e |].
  { eapply holds_bind; [apply Hrep | intros _ _]. holds_step. exact I. }
  specialize (Hq' eq_refl). cbn in Hq'.
  eapply holds_bind; [apply Hbc | intros _ _].
  eapply holds_bind; [apply Hupd; exact Hq' | intros err _].
  destruct err as [e |].
  { eapply holds_bind; [apply Hrep | intros _ _]. holds_step. exact I. }
  eapply holds_bind; [apply Hbc | intros _ _].
  holds_step. exact I.
Qed.

(** *** The publish stage *)

Lemma publishOne_holds (job : Job W) n (P : Event -> Prop) :
  (forall r id err,
      passedFilters rt job r -> P (EvPublish n r (formatNews job r) id err)) ->
  holds (publishOne rt job n) (fun _ => True) P.
Proof.
  intros HP. unfold publishOne.
  holds_step. rename a into r.
  holds_step; [holds_step; exact I |].
  destruct (omitEmptyMeta job) eqn:Hom.
  - destruct (json_Unmarshal_Meta rt (models.MetaData r)) as [meta [e |]] eqn:Hdec.
    + holds_step. exact I.
    + fold (emptyMeta meta). destruct (emptyMeta meta) eqn:Hem.
      * holds_step. exact I.
      * holds_step. destruct a as [id err].
        holds_step.
        { apply HP. split; [assumption |]. intros _. exists meta. auto. }
        repeat (holds_step; auto).
  - holds_step. destruct a as [id err].
    holds_step.
    { apply HP. split; [assumption | intros ?; congruence]. }
    repeat (holds_step; auto).
Qed.

Lemma publish_holds (job : Job W) dbNews (P : Event -> Prop) :
  (forall n r id err,
      passedFilters rt job r -> P (EvPublish n r (formatNews job r) id err)) ->
  holds (publish rt job dbNews) (fun _ => True) P.
Proof.
  intros HP. unfold publish.
  eapply holds_bind with (Q := fun _ => True).
  - induction dbNews as [| n rest IH]; cbn [publishLoop].
    + holds_step. exact I.
    + eapply holds_bind; [apply publishOne_holds; intros; apply HP; assumption |].
      intros st _. holds_step; [exact IH | holds_step; exact I].
  - intros err _. repeat (holds_step; auto).
Qed.

Lemma samePersisted_refl r : samePersisted r r.
Proof. destruct r. reflexivity. Qed.

Lemma samePersisted_trans r1 r2 r3 :
  samePersisted r1 r2 -> samePersisted r2 r3 -> samePersisted r1 r3.
Proof.
  unfold samePersisted. intros H12 H23. rewrite H23 at 1. rewrite H12 at 1.
  reflexivity.
Qed.

Lemma samePersisted_MetaData r r' :
  samePersisted r r' -> models.MetaData r' = models.MetaData r.
Proof. intros ->. reflexivity. Qed.

Lemma samePersisted_IsSuspicious r r' :
  samePersisted r r' -> models.IsSuspicious r' = models.IsSuspicious r.
Proof. intros ->. reflexivity. Qed.

Lemma publishFrame_refl (job : Job W) h : publishFrame job h h.
Proof.
  intros p r H. exists r. split; [exact H |].
  split; [apply samePersisted_refl | reflexivity].
Qed.

Lemma publishFrame_trans (job : Job W) h1 h2 h3 :
  publishFrame job h1 h2 -> publishFrame job h2 h3 -> publishFrame job h1 h3.
Proof.
  intros H12 H23 p r H. destruct (H12 p r H) as (r2 & H2 & Hs2 & Hk2).
  destruct (H23 p r2 H2) as (r3 & H3 & Hs3 & Hk3).
  exists r3. split; [exact H3 |]. split.
  - eapply samePersisted_trans; eauto.
  - intros Hsus. rewrite <- (Hk2 Hsus). apply Hk3.
    rewrite (samePersisted_IsSuspicious _ _ Hs2). exact Hsus.
Qed.

Lemma publishOne_frame (job : Job W) n s res s' t :
  publishOne rt job n s = (res, s', t) -> publishFrame job (heap s) (heap s').
Proof.
  unfold publishOne, bind, load, call, store, emit, ret.
  intros H. repeat (case_match; simplify_eq; cbn in * );
    try apply publishFrame_refl.
  all: intros p r' Hp; cbn.
  all: destruct (decide (p = n)) as [-> |Hne].
  all: try (rewrite list_lookup_insert_ne by congruence;
            exists r'; split; [assumption |];
            split; [apply samePersisted_refl | reflexivity]).
  all: rewrite list_lookup_insert_eq by (eapply lookup_lt_Some; eassumption).
  all: eexists; split; [reflexivity |].
  all: assert (r' = a) by congruence; subst r'.
  all: split; [reflexivity | intros ?; congruence].
Qed.

Lemma publishLoop_frame (job : Job W) dbNews s res s' t :
  publishLoop rt job dbNews s = (res, s', t) ->
  publishFrame job (heap s) (heap s').
Proof.
  revert s res s' t. induction dbNews as [| n rest IH]; intros s res s' t.
  - cbn. intros [= <- <- <-]. apply publishFrame_refl.
  - cbn [publishLoop]. intros H. apply bind_inv in H.
    destruct H as [(why & H & ->) | (st & s1 & t1 & t2 & H1 & H2 & ->)].
    + eapply publishOne_frame; eassumption.
    + eapply publishFrame_trans; [eapply publishOne_frame; eassumption |].
      destruct st as [| e].
      * eapply IH; eassumption.
      * cbn in H2. injection H2 as <- <- <-. apply publishFrame_refl.
Qed.

Lemma publish_frame (job : Job W) dbNews s :
  publishFrame job (heap s) (heap (final (publish rt job dbNews s))).
Proof.
  unfold publish, bind.
  destruct (publishLoop rt job dbNews s) as [[[err | why] s1] t1] eqn:E.
  - apply publishLoop_frame in E. destruct err; exact E.
  - apply publishLoop_frame in E. exact E.
Qed.

(** *** What a run publishes *)

(** C1, as the code has it.  With [shouldSaveToDB] off, [saveNews] returns
    no record at all (and touches nothing), so the loop of [publish] has
    nothing to range over: a run calls neither the publisher nor the
    archivist's [Create] and [Update]. *)
Theorem C1_without_persistence_nothing_is_published (job : Job W) :
  shouldSaveToDB job = false ->
  (forall data s, saveNews rt job data s = (Done ([], None), s, []))
  /\ (forall s,
        Forall (fun e => isPublish e = false /\ isCreate e = false
                         /\ isUpdate e = false)
               (events (Run rt job s))).
Proof.
  intros Hs. split.
  - intros data s. unfold saveNews. rewrite Hs. reflexivity.
  - intros s. apply (holds_events _ (fun _ => True)).
    apply Run_holds with (Qs := fun d => d = []).
    + intros e Hc Hp Hu. auto.
    + intros data. unfold saveNews. rewrite Hs. cbn.
      apply holds_ret. reflexivity.
    + intros d ->. unfold publish. cbn [publishLoop].
      eapply holds_bind; [apply (holds_ret _ (fun e => e = None)); reflexivity |].
      intros e ->. apply holds_ret. reflexivity.
    + intros d _. unfold updateNews. rewrite Hs. cbn.
      apply holds_ret. exact I.
Qed.

(** C7. Suspicious news.  With [omitSuspicious] set, no record handed to
    the publisher in a run is suspicious, whatever was composed for it; and
    [publish] leaves every suspicious record on the heap exactly as it found
    it, its publication id and date included. *)
Theorem C7_suspicious_never_published (job : Job W) :
  omitSuspicious job = true ->
  (forall s,
      Forall (fun e => forall n r text id err,
                  e = EvPublish n r text id err -> models.IsSuspicious r = false)
             (events (Run rt job s)))
  /\ (forall dbNews s p r,
        heap s !! p = Some r -> models.IsSuspicious r = true ->
        heap (final (publish rt job dbNews s)) !! p = Some r).
Proof.
  intros Hom. split.
  - intros s. apply (holds_events _ (fun _ => True)).
    apply Run_holds with (Qs := fun _ => True).
    + intros e Hc Hp Hu n r text id err ->. discriminate.
    + intros data. eapply holds_post; [apply saveNews_holds | auto].
      intros n r e n' r' text id err. discriminate.
    + intros d _. eapply holds_post; [apply publish_holds | auto].
      intros n r id err [Hsus _] n' r' text' id' err' [= <- <- <- <- <-].
      rewrite Hom in Hsus. rewrite andb_true_r in Hsus. exact Hsus.
    + intros d _. apply updateNews_holds.
      intros n r e n' r' text id err. discriminate.
  - intros dbNews s p r Hp Hsus.
    destruct (publish_frame job dbNews s p r Hp) as (r' & Hp' & _ & Hkeep).
    rewrite Hp'. f_equal. apply Hkeep. rewrite Hsus, Hom. reflexivity.
Qed.

(** C8. Empty metadata.  With [shouldComposeText] and [omitEmptyMeta] set,
    no record handed to the publisher in a run has metadata that decodes to
    no tickers, no markets and no hashtags. *)
Theorem C8_empty_meta_never_published (job : Job W) (s : St W) :
  shouldComposeText job = true ->
  omitEmptyMeta job = true ->
  Forall (fun e => forall n r text id err meta,
              e = EvPublish n r text id err ->
              json_Unmarshal_Meta rt (models.MetaData r) = (meta, None) ->
              ~ (meta_Tickers meta = [] /\ meta_Markets meta = []
                 /\ meta_Hashtags meta = []))
         (events (Run rt job s)).
Proof.
  intros _ Hom. apply (holds_events _ (fun _ => True)).
  apply Run_holds with (Qs := fun _ => True).
  - intros e Hc Hp Hu n r text id err meta ->. discriminate.
  - intros data. eapply holds_post; [apply saveNews_holds | auto].
    intros n r e n' r' text id err meta. discriminate.
  - intros d _. eapply holds_post; [apply publish_holds | auto].
    intros n r id err [_ Hmeta] n' r' text' id' err' meta [= <- <- <- <- <-] Hdec.
    destruct (Hmeta Hom) as (meta' & Hdec' & Hne).
    rewrite Hdec in Hdec'. injection Hdec' as <-.
    intros (Ht & Hm & Hh). unfold emptyMeta in Hne.
    rewrite Ht, Hm, Hh in Hne. discriminate.
  - intros d _. apply updateNews_holds.
    intros n r e n' r' text id err meta. discriminate.
Qed.

Lemma publishLoop_app (job : Job W) before rest s s1 t1 :
  publishLoop rt job before s = (Done None, s1, t1) ->
  publishLoop rt job (before ++ rest) s
  = (result (publishLoop rt job rest s1), final (publishLoop rt job rest s1),
     t1 ++ events (publishLoop rt job rest s1)).
Proof.
  revert s s1 t1. induction before as [| n before IH]; intros s s1 t1.
  - cbn. intros [= <- <-].
    destruct (publishLoop rt job rest s) as [[r s2] t2]. reflexivity.
  - cbn [publishLoop app]. intros H. apply bind_inv in H.
    destruct H as [(why & H & [=]) | (st & s0 & t0 & t2 & H1 & H2 & ->)].
    change ((n :: before) ++ rest) with (n :: (before ++ rest)).
    cbn [publishLoop].
    rewrite (bind_Done _ _ _ _ _ _ H1). destruct st as [| e].
    + rewrite (IH _ _ _ H2). cbn [result final events].
      rewrite app_assoc. reflexivity.
    + cbn in H2. discriminate.
Qed.

(** With [omitEmptyMeta] set, when the loop of [publish] reaches a record
    that has no metadata and that the suspicious filter does not skip,
    [publish] returns the decode error there: that record and the ones
    after it are not handed to the publisher, and the heap is as the records
    before left it. *)
Lemma publish_missing_meta (job : Job W) (before rest : list ptr)
    (n : ptr) (r : models.News) (s s1 : St W) (t1 : list Event) :
  omitEmptyMeta job = true ->
  publishLoop rt job before s = (Done None, s1, t1) ->
  heap s !! n = Some r ->
  models.MetaData r = None ->
  models.IsSuspicious r && omitSuspicious job = false ->
  publish rt job (before ++ n :: rest) s
  = (Done ([], Some "[Job.publish][json.Unmarshal] meta: unexpected end of JSON input"),
     s1, t1).
Proof.
  intros Hom Hbefore Hn Hmeta Hsus.
  destruct (publishLoop_frame _ _ _ _ _ _ Hbefore n r Hn) as (r' & Hn' & Hsame & _).
  assert (publishOne rt job n s1
          = (Done (Return "[Job.publish][json.Unmarshal] meta: unexpected end of JSON input"),
             s1, [])) as Hone.
  { unfold publishOne, bind, load. rewrite Hn'.
    rewrite (samePersisted_IsSuspicious _ _ Hsame), Hsus, Hom.
    rewrite (samePersisted_MetaData _ _ Hsame), Hmeta. reflexivity. }
  unfold publish. erewrite bind_Done.
  2:{ rewrite (publishLoop_app _ _ _ _ _ _ Hbefore). cbn [publishLoop].
      rewrite (bind_Done _ _ _ _ _ _ Hone). cbn. rewrite app_nil_r. reflexivity. }
  cbn. rewrite app_nil_r. reflexivity.
Qed.

(** *** The persist stage *)

Lemma mapComposedNews_lookup_from (composed : list composer.ComposedNews)
    (m : gmap string composer.ComposedNews) (id : string) :
  fold_left (fun m n => <[composer.ID n := n]> m) composed m !! id
  = match findComposed id composed with
    | Some c => Some c
    | None => m !! id
    end.
Proof.
  revert m. induction composed as [| c rest IH]; intros m; cbn [fold_left findComposed].
  - reflexivity.
  - rewrite IH. destruct (findComposed id rest) as [c' |]; [reflexivity |].
    destruct (String.eqb (composer.ID c) id) eqn:E.
    + apply String.eqb_eq in E. subst id. apply lookup_insert_eq.
    + apply String.eqb_neq in E. apply lookup_insert_ne. exact E.
Qed.

Lemma mapComposedNews_lookup composed id :
  mapComposedNews composed !! id = findComposed id composed.
Proof.
  unfold mapComposedNews. rewrite mapComposedNews_lookup_from.
  destruct (findComposed id composed); [reflexivity | apply lookup_empty].
Qed.

Lemma findComposed_Some id composed c :
  findComposed id composed = Some c -> c ∈ composed /\ composer.ID c = id.
Proof.
  induction composed as [| c0 rest IH]; cbn [findComposed]; [discriminate |].
  destruct (findComposed id rest) as [c' |].
  - intros [= ->]. destruct (IH eq_refl) as [Hin Hid].
    split; [right; exact Hin | exact Hid].
  - destruct (String.eqb (composer.ID c0) id) eqn:E; [| discriminate].
    intros [= ->]. apply String.eqb_eq in E. split; [left | exact E].
Qed.

Lemma findComposed_None id composed :
  findComposed id composed = None ->
  forall c, c ∈ composed -> composer.ID c <> id.
Proof.
  induction composed as [| c0 rest IH]; cbn [findComposed].
  - intros _ c Hc. inversion Hc.
  - destruct (findComposed id rest) as [c' |]; [discriminate |].
    destruct (String.eqb (composer.ID c0) id) eqn:E; [discriminate |].
    intros _ c Hc. apply String.eqb_neq in E.
    inversion Hc; subst; [exact E | apply IH; auto].
Qed.

Lemma persistedFrom_meta_iff (job : Job W) composed n r :
  persistedFrom rt job composed n r ->
  (is_Some (models.MetaData r)
   <-> exists c, c ∈ composed /\ composer.ID c = journalist.ID n).
Proof.
  intros H. do 10 destruct H as [_ H].
  destruct (findComposed (journalist.ID n) composed) as [c |] eqn:E.
  - destruct H as (_ & meta & _ & Hm). split.
    + intros _. exists c. apply findComposed_Some. exact E.
    + intros _. rewrite Hm. eauto.
  - destruct H as [_ Hm]. split.
    + rewrite Hm. intros [x Hx]. discriminate.
    + intros (c & Hc & Hid). exfalso.
      exact (findComposed_None _ _ E c Hc Hid).
Qed.

(** The first loop: it allocates the records one after the other at the end
    of the heap, calls nobody, and cannot panic. *)
Lemma buildDBNews_spec (job : Job W) composed news s res s' t :
  buildDBNews rt job (mapComposedNews composed) news s = (res, s', t) ->
  t = [] /\ world s' = world s
  /\ exists ps err recs,
       res = Done (ps, err) /\ heap s' = heap s ++ recs
       /\ (err = None ->
           ps = seq (length (heap s)) (length news)
           /\ Forall2 (persistedFrom rt job composed) news recs).
Proof.
  revert s res s' t. induction news as [| n news IH]; intros s res s' t.
  - cbn. intros [= <- <- <-]. split; [reflexivity |]. split; [reflexivity |].
    exists [], None, []. split; [reflexivity |].
    split; [rewrite app_nil_r; reflexivity |].
    intros _. split; [reflexivity | constructor].
  - cbn [buildDBNews]. rewrite bind_alloc.
    set (s1 := {| world := world s; heap := heap s ++ [newDBNews job n] |}).
    assert (heap s1 !! length (heap s) = Some (newDBNews job n)) as Hp.
    { subst s1. cbn. rewrite lookup_app_r by lia.
      rewrite Nat.sub_diag. reflexivity. }
    rewrite mapComposedNews_lookup.
    assert (forall r s2,
               heap s2 = heap s ++ [r] -> world s2 = world s ->
               persistedFrom rt job composed n r ->
               (do x <- buildDBNews rt job (mapComposedNews composed) news;
                let (ps, err) := x in
                match err with
                | Some e => ret ([], Some e)
                | None => ret (length (heap s) :: ps, None)
                end) s2 = (res, s', t) ->
               t = [] /\ world s' = world s
               /\ exists ps err recs,
                   res = Done (ps, err) /\ heap s' = heap s ++ recs
                   /\ (err = None ->
                       ps = seq (length (heap s)) (length (n :: news))
                       /\ Forall2 (persistedFrom rt job composed) (n :: news) recs))
      as Hrest.
    { intros r s2 Hh2 Hw2 Hr Heq.
      apply bind_inv in Heq.
      destruct Heq as [(why & H & ->) | ([ps err] & s3 & t3 & t4 & H1 & H2 & ->)].
      - apply IH in H. destruct H as (_ & _ & ps & err & recs & [=] & _).
      - apply IH in H1.
        destruct H1 as (-> & Hw & ps' & err' & recs & [= <- <-] & Hh & Hok).
        destruct err as [e |]; cbn in H2; injection H2 as <- <- <-.
        + split; [reflexivity |]. split; [congruence |].
          exists [], (Some e), (r :: recs). split; [reflexivity |].
          split; [| intros [=]].
          rewrite Hh, Hh2, <- app_assoc. reflexivity.
        + destruct (Hok eq_refl) as [-> Hall].
          split; [reflexivity |]. split; [congruence |].
          eexists _, None, (r :: recs). split; [reflexivity |].
          split; [rewrite Hh, Hh2, <- app_assoc; reflexivity |].
          intros _. split.
          * rewrite Hh2, length_app. cbn. rewrite Nat.add_1_r. reflexivity.
          * constructor; [exact Hr | exact Hall]. }
    destruct (findComposed (journalist.ID n) composed) as [val |] eqn:Efind.
    + destruct (json_Marshal_Meta rt (metaOf val)) as [meta [e |]] eqn:Emar.
      * rewrite bind_ret. cbn. intros [= <- <- <-].
        split; [reflexivity |]. split; [reflexivity |].
        eexists [], (Some _), [_]. split; [reflexivity |].
        split; [reflexivity | intros [=]].
      * rewrite bind_assoc, (bind_load _ _ _ _ Hp).
        rewrite bind_assoc, (bind_store _ _ _ _ _ Hp). rewrite bind_ret.
        intros Heq. refine (Hrest _ _ _ _ _ Heq); [| reflexivity |].
        -- subst s1. cbn. rewrite insert_app_r_alt by lia.
           rewrite Nat.sub_diag. reflexivity.
        -- unfold persistedFrom. rewrite Efind. cbn.
           repeat split. exists meta. auto.
    + rewrite bind_ret. intros Heq.
      refine (Hrest _ _ _ _ _ Heq); [reflexivity | reflexivity |].
      unfold persistedFrom. rewrite Efind. cbn. repeat split.
Qed.

Lemma Forall2_impl_elem {A B} (P Q : A -> B -> Prop) (l : list A) (k : list B) :
  Forall2 P l k -> (forall x y, x ∈ l -> P x y -> Q x y) -> Forall2 Q l k.
Proof.
  induction 1 as [| x y l k Hxy Hlk IH]; intros Himp; constructor.
  - apply Himp; [left | exact Hxy].
  - apply IH. intros x' y' Hin. apply Himp. right. exact Hin.
Qed.

Lemma createCalls_create n r err t :
  createCalls (EvCreate n r err :: t) = (r, err) :: createCalls t.
Proof. reflexivity. Qed.

Lemma createCalls_app t1 t2 :
  createCalls (t1 ++ t2) = createCalls t1 ++ createCalls t2.
Proof. unfold createCalls. apply omap_app. Qed.

Lemma createCalls_none t :
  Forall (fun e => isCreate e = false) t -> createCalls t = [].
Proof.
  induction 1 as [| e t He Ht IH]; [reflexivity |].
  destruct e; try discriminate; exact IH.
Qed.

(** The second loop, over pointers to distinct records: it hands the
    records to [Create] in order, as they are on the heap when the loop
    starts, and stops right after the first failure. *)
Lemma createAll_calls (job : Job W) ps recs s res s' t :
  NoDup ps ->
  Forall2 (fun p r => heap s !! p = Some r) ps recs ->
  createAll job ps s = (res, s', t) ->
  (res = Done None /\ createCalls t = allCreated recs)
  \/ (exists k r e0,
         recs !! k = Some r
         /\ res = Done (Some ("[Job.saveNews][News.Create]: " +:+ e0))
         /\ createCalls t = failedAt k r e0 recs).
Proof.
  intros Hnd. revert recs s res s' t.
  induction Hnd as [| n rest Hn Hnd IH]; intros recs s res s' t Hheap.
  - inversion Hheap; subst. cbn. intros [= <- <- <-]. left. auto.
  - inversion Hheap as [| ? r ? recs' Hr Hrest]; subst.
    cbn [createAll]. rewrite (bind_load _ _ _ _ Hr).
    destruct (Create (app_archivist (app job)) r (world s)) as [[r' err] w] eqn:Ec.
    rewrite (bind_call _ _ _ _ _ Ec). cbn beta iota.
    rewrite (bind_store _ _ r) by exact Hr. rewrite bind_emit.
    set (s2 := {| world := world {| world := w; heap := heap s |};
                  heap := <[n := r']> (heap {| world := w; heap := heap s |}) |}).
    destruct err as [e0 |].
    + cbn. intros [= <- <- <-]. right. exists 0, r, e0. auto.
    + destruct (createAll job rest s2) as [[res2 s3] t2] eqn:Erest.
      cbn [result final events]. intros [= <- <- <-].
      assert (Forall2 (fun p r => heap s2 !! p = Some r) rest recs') as Hheap2.
      { eapply Forall2_impl_elem; [exact Hrest |].
        intros p x Hin Hp. subst s2. cbn.
        rewrite list_lookup_insert_ne; [exact Hp |].
        intros ->. contradiction. }
      destruct (IH _ _ _ _ _ Hheap2 Erest) as [[-> Hc] | (k & x & e0 & Hk & -> & Hc)].
      * left. split; [reflexivity |].
        rewrite createCalls_create, Hc. reflexivity.
      * right. exists (S k), x, e0. split; [exact Hk |]. split; [reflexivity |].
        rewrite createCalls_create, Hc. reflexivity.
Qed.

(** What [saveNews] does when it is to save: it either gives up before any
    [Create] (the count check, or a failure to encode metadata), or builds
    the records of all the news and creates them in order, up to the first
    failure. *)
Lemma saveNews_cases (job : Job W) (data : JobData) (s : St W) :
  shouldSaveToDB job = true ->
  (events (saveNews rt job data s) = []
   /\ exists e, result (saveNews rt job data s) = Done ([], Some e))
  \/ exists recs,
       Forall2 (persistedFrom rt job (ComposedNews data)) (News data) recs
       /\ ((result (saveNews rt job data s)
            = Done (seq (length (heap s)) (length (News data)), None)
            /\ createCalls (events (saveNews rt job data s)) = allCreated recs)
           \/ (exists k r e0,
                  recs !! k = Some r
                  /\ result (saveNews rt job data s)
                     = Done ([], Some ("[Job.saveNews][News.Create]: " +:+ e0))
                  /\ createCalls (events (saveNews rt job data s))
                     = failedAt k r e0 recs)).
Proof.
  intros Hs. unfold saveNews. rewrite Hs. cbn [negb].
  destruct (length (News data) <? length (ComposedNews data))%nat.
  { left. cbn. eauto. }
  destruct (buildDBNews rt job (mapComposedNews (ComposedNews data)) (News data) s)
    as [[res1 s1] t1] eqn:Eb.
  destruct (buildDBNews_spec _ _ _ _ _ _ _ Eb)
    as (-> & Hw & ps & err & recs & -> & Hh & Hok).
  rewrite (bind_Done _ _ _ _ _ _ Eb). cbn beta iota.
  destruct err as [e |].
  { left. cbn. eauto. }
  destruct (Hok eq_refl) as [-> Hall]. right. exists recs. split; [exact Hall |].
  set (ps := seq (length (heap s)) (length (News data))).
  destruct (createAll job ps s1) as [[res2 s2] t2] eqn:Ec.
  assert (Forall2 (fun p r => heap s1 !! p = Some r) ps recs) as Hheap.
  { apply Forall2_same_length_lookup_2.
    - subst ps. rewrite length_seq. eapply Forall2_length. exact Hall.
    - intros i p r Hp Hr. subst ps. apply lookup_seq in Hp as [-> Hi].
      rewrite Hh, lookup_app_r by lia.
      replace (length (heap s) + i - length (heap s)) with i by lia. exact Hr. }
  destruct (createAll_calls _ _ _ _ _ _ _ (NoDup_seq _ _) Hheap Ec)
    as [[-> Hc] | (k & r & e0 & Hk & -> & Hc)];
    rewrite (bind_Done _ _ _ _ _ _ Ec).
  - left. cbn [result events ret app]. rewrite app_nil_r.
    split; [reflexivity | exact Hc].
  - right. exists k, r, e0. cbn [result events ret app]. rewrite app_nil_r. auto.
Qed.

Lemma allCreated_lookup recs i ri erri :
  allCreated recs !! i = Some (ri, erri) -> recs !! i = Some ri /\ erri = None.
Proof.
  unfold allCreated. rewrite list_lookup_fmap.
  destruct (recs !! i) as [x |]; cbn; [| discriminate].
  intros [= <- <-]. auto.
Qed.

Lemma failedAt_length k r e0 recs :
  recs !! k = Some r -> length (failedAt k r e0 recs) = S k.
Proof.
  intros Hk. apply lookup_lt_Some in Hk. unfold failedAt, allCreated.
  rewrite length_app, length_map, length_take. cbn. lia.
Qed.

Lemma failedAt_lookup k r e0 recs i ri erri :
  recs !! k = Some r ->
  failedAt k r e0 recs !! i = Some (ri, erri) ->
  (i < k /\ recs !! i = Some ri /\ erri = None)
  \/ (i = k /\ ri = r /\ erri = Some e0).
Proof.
  intros Hk Hi. pose proof (lookup_lt_Some _ _ _ Hk) as Hlt.
  assert (length (allCreated (take k recs)) = k) as Hlen.
  { unfold allCreated. rewrite length_map, length_take. lia. }
  unfold failedAt in Hi. destruct (decide (i < k)) as [Hik | Hik].
  - rewrite lookup_app_l in Hi by lia.
    apply allCreated_lookup in Hi as [Hi ->].
    rewrite lookup_take_lt in Hi by lia. left. auto.
  - rewrite lookup_app_r in Hi by lia. rewrite Hlen in Hi.
    destruct (i - k) as [| d] eqn:Hd; cbn in Hi; [| discriminate].
    injection Hi as <- <-. right. split; [lia | auto].
Qed.

(** When every composed news can be encoded, the first loop builds all the
    records and returns no error. *)
Lemma buildDBNews_encodes (job : Job W) composed news s :
  (forall c, c ∈ composed ->
     exists meta,
       json_Marshal_Meta rt
         {| meta_Tickers := composer.Tickers c;
            meta_Markets := composer.Markets c;
            meta_Hashtags := composer.Hashtags c |} = (meta, None)) ->
  exists ps,
    result (buildDBNews rt job (mapComposedNews composed) news s) = Done (ps, None).
Proof.
  intros Henc. revert s. induction news as [| n news IH]; intros s.
  - exists []. reflexivity.
  - cbn [buildDBNews]. rewrite bind_alloc.
    set (s1 := {| world := world s; heap := heap s ++ [newDBNews job n] |}).
    assert (heap s1 !! length (heap s) = Some (newDBNews job n)) as Hp.
    { subst s1. cbn. rewrite lookup_app_r by lia.
      rewrite Nat.sub_diag. reflexivity. }
    rewrite mapComposedNews_lookup.
    assert (forall s2,
               exists ps,
                 result ((do x <- buildDBNews rt job (mapComposedNews composed) news;
                          let (ps, err) := x in
                          match err with
                          | Some e => ret ([], Some e)
                          | None => ret (length (heap s) :: ps, None)
                          end) s2) = Done (ps, None)) as Hrest.
    { intros s2. destruct (IH s2) as [ps Hps].
      destruct (buildDBNews rt job (mapComposedNews composed) news s2)
        as [[r s3] t3] eqn:E.
      cbn [result] in Hps. subst r.
      rewrite (bind_Done _ _ _ _ _ _ E). cbn. eauto. }
    destruct (findComposed (journalist.ID n) composed) as [val |] eqn:Efind.
    + apply findComposed_Some in Efind as [Hin _].
      destruct (Henc val Hin) as [meta Hmeta].
      change (json_Marshal_Meta rt (metaOf val) = (meta, None)) in Hmeta.
      rewrite Hmeta.
      rewrite bind_assoc, (bind_load _ _ _ _ Hp).
      rewrite bind_assoc, (bind_store _ _ _ _ _ Hp). rewrite bind_ret.
      apply Hrest.
    + rewrite bind_ret. apply Hrest.
Qed.

(** [saveNews] when the count check passes and every composed news can be
    encoded: it builds the records and hands them to [Create] one by one. *)
Lemma saveNews_creates (job : Job W) (data : JobData) (s : St W) :
  shouldSaveToDB job = true ->
  length (ComposedNews data) <= length (News data) ->
  (forall c, c ∈ ComposedNews data ->
     exists meta,
       json_Marshal_Meta rt
         {| meta_Tickers := composer.Tickers c;
            meta_Markets := composer.Markets c;
            meta_Hashtags := composer.Hashtags c |} = (meta, None)) ->
  exists recs,
    Forall2 (persistedFrom rt job (ComposedNews data)) (News data) recs
    /\ ((result (saveNews rt job data s)
         = Done (seq (length (heap s)) (length (News data)), None)
         /\ createCalls (events (saveNews rt job data s)) = allCreated recs)
        \/ (exists k r e0,
               recs !! k = Some r
               /\ result (saveNews rt job data s)
                  = Done ([], Some ("[Job.saveNews][News.Create]: " +:+ e0))
               /\ createCalls (events (saveNews rt job data s))
                  = failedAt k r e0 recs)).
Proof.
  intros Hs Hcount Henc. unfold saveNews. rewrite Hs. cbn [negb].
  rewrite (proj2 (Nat.ltb_ge _ _) Hcount).
  destruct (buildDBNews_encodes job (ComposedNews data) (News data) s Henc)
    as [ps0 Hps0].
  destruct (buildDBNews rt job (mapComposedNews (ComposedNews data)) (News data) s)
    as [[res1 s1] t1] eqn:Eb.
  destruct (buildDBNews_spec _ _ _ _ _ _ _ Eb)
    as (-> & Hw & ps & err & recs & -> & Hh & Hok).
  cbn [result] in Hps0. injection Hps0 as -> ->.
  rewrite (bind_Done _ _ _ _ _ _ Eb). cbn beta iota.
  destruct (Hok eq_refl) as [-> Hall]. exists recs. split; [exact Hall |].
  set (ps := seq (length (heap s)) (length (News data))).
  destruct (createAll job ps s1) as [[res2 s2] t2] eqn:Ec.
  assert (Forall2 (fun p r => heap s1 !! p = Some r) ps recs) as Hheap.
  { apply Forall2_same_length_lookup_2.
    - subst ps. rewrite length_seq. eapply Forall2_length. exact Hall.
    - intros i p r Hp Hr. subst ps. apply lookup_seq in Hp as [-> Hi].
      rewrite Hh, lookup_app_r by lia.
      replace (length (heap s) + i - length (heap s)) with i by lia. exact Hr. }
  destruct (createAll_calls _ _ _ _ _ _ _ (NoDup_seq _ _) Hheap Ec)
    as [[-> Hc] | (k & r & e0 & Hk & -> & Hc)];
    rewrite (bind_Done _ _ _ _ _ _ Ec).
  - left. cbn [result events ret app]. rewrite app_nil_r.
    split; [reflexivity | exact Hc].
  - right. exists k, r, e0. cbn [result events ret app]. rewrite app_nil_r. auto.
Qed.

(** C6. Persist, the records.  A [saveNews] that saves builds one record per
    news, in the order of the news.  The record of a news copies its id (as
    the hash), provider name, title, description, date, link and suspicious
    flag, and has no publication yet.  It carries the text and the encoded
    tickers, markets and hashtags of the composed news with the same id (the
    last one, if several have it), and otherwise an empty text and no
    metadata; so it has metadata exactly when some composed news has its
    id.

    First, when [saveNews] returns no error, these records are the ones it
    handed to [Create], one call per news, and each call succeeded.  Second,
    [saveNews] does get there: when there are no more composed news than
    news (as many, for one) and the composed news can be encoded, the
    records are built and handed to [Create] in order, and either every
    call succeeds and [saveNews] returns one pointer per news and no error,
    or the calls stop at the first that fails, which is the error
    returned. *)
Theorem C6_saveNews_builds_one_record_per_news (job : Job W) (data : JobData)
    (s : St W) :
  shouldSaveToDB job = true ->
  (forall s' dbNews t,
      saveNews rt job data s = (Done (dbNews, None), s', t) ->
      length dbNews = length (News data)
      /\ Forall2
           (fun n created =>
              persistedFrom rt job (ComposedNews data) n created.1
              /\ created.2 = None
              /\ (is_Some (models.MetaData created.1)
                  <-> exists c, c ∈ ComposedNews data
                                /\ composer.ID c = journalist.ID n))
           (News data) (createCalls t))
  /\ (length (ComposedNews data) <= length (News data) ->
      (forall c, c ∈ ComposedNews data ->
         exists meta,
           json_Marshal_Meta rt
             {| meta_Tickers := composer.Tickers c;
                meta_Markets := composer.Markets c;
                meta_Hashtags := composer.Hashtags c |} = (meta, None)) ->
      exists recs,
        Forall2
          (fun n r =>
             persistedFrom rt job (ComposedNews data) n r
             /\ (is_Some (models.MetaData r)
                 <-> exists c, c ∈ ComposedNews data
                               /\ composer.ID c = journalist.ID n))
          (News data) recs
        /\ ((exists dbNews,
                result (saveNews rt job data s) = Done (dbNews, None)
                /\ length dbNews = length (News data)
                /\ createCalls (events (saveNews rt job data s))
                   = map (fun r => (r, None)) recs)
            \/ (exists k r e0,
                   recs !! k = Some r
                   /\ result (saveNews rt job data s)
                      = Done ([], Some ("[Job.saveNews][News.Create]: " +:+ e0))
                   /\ createCalls (events (saveNews rt job data s))
                      = map (fun r => (r, None)) (take k recs) ++ [(r, Some e0)]))).
Proof.
  intros Hs. split.
  - intros s' dbNews t Heq.
    destruct (saveNews_cases job data s Hs) as [[_ [e He]] | (recs & Hall & Hcases)].
    { rewrite Heq in He. discriminate. }
    destruct Hcases as [[Hres Hc] | (k & r & e0 & _ & Hres & _)];
      rewrite Heq in *; cbn [result events] in *; [| discriminate].
    injection Hres as ->. split; [apply length_seq |].
    rewrite Hc. unfold allCreated. apply Forall2_fmap_r.
    eapply Forall2_impl; [exact Hall |].
    intros n r Hr. cbn. split; [exact Hr |]. split; [reflexivity |].
    eapply persistedFrom_meta_iff. exact Hr.
  - intros Hcount Henc.
    destruct (saveNews_creates job data s Hs Hcount Henc) as (recs & Hall & Hcases).
    exists recs. split.
    + eapply Forall2_impl; [exact Hall |].
      intros n r Hr. split; [exact Hr |].
      eapply persistedFrom_meta_iff. exact Hr.
    + destruct Hcases as [[Hres Hc] | (k & r & e0 & Hk & Hres & Hc)].
      * left. eexists. split; [exact Hres |]. split; [apply length_seq | exact Hc].
      * right. exists k, r, e0. auto.
Qed.

(** *** A failing [Create] within a run *)

Lemma neutral_createCalls t : Forall neutral t -> createCalls t = [].
Proof.
  intros H. apply createCalls_none.
  eapply Forall_impl; [exact H |]. intros e [He _]. exact He.
Qed.

Lemma createFailureIsFatal_no_create (job : Job W)
    (o : Res RunExit * St W * list Event) :
  createCalls (events o) = [] -> createFailureIsFatal job o.
Proof. intros H k r e Hk. rewrite H in Hk. discriminate. Qed.

Lemma createFailureIsFatal_bind {A} (job : Job W) (m : M W A)
    (k : A -> M W RunExit) s :
  holds m (fun _ => True) neutral ->
  (forall a s1, createFailureIsFatal job (k a s1)) ->
  createFailureIsFatal job (bind m k s).
Proof.
  intros Hm Hk. pose proof (holds_events m _ _ s Hm) as Hev.
  destruct (m s) as [[[a | why] s1] t1] eqn:Em; cbn [events] in Hev.
  - rewrite (bind_Done _ _ _ _ _ _ Em). specialize (Hk a s1).
    destruct (k a s1) as [[r2 s2] t2]. cbn [result final events] in *.
    intros i r e. unfold createFailureIsFatal in Hk. cbn [result events] in *.
    rewrite createCalls_app, (neutral_createCalls _ Hev). cbn [app].
    intros Hi. destruct (Hk i r e Hi) as (H1 & H2 & H3 & H4 & before & H5).
    repeat split; try assumption.
    + apply Forall_app. split; [| exact H4].
      eapply Forall_impl; [exact Hev |]. intros ev (_ & Hp & Hu). auto.
    + exists (t1 ++ before). rewrite H5, app_assoc. reflexivity.
  - rewrite (bind_Panicked _ _ _ _ _ _ Em).
    apply createFailureIsFatal_no_create. cbn. apply neutral_createCalls, Hev.
Qed.

Lemma createFailureIsFatal_ret (job : Job W) x s :
  createFailureIsFatal job (@ret W _ x s).
Proof. apply createFailureIsFatal_no_create. reflexivity. Qed.

(** The create calls of [saveNews], by what it returns. *)
Lemma saveNews_calls (job : Job W) (data : JobData) (s : St W) :
  (exists d, result (saveNews rt job data s) = Done (d, None)
             /\ forall i ri erri,
                 createCalls (events (saveNews rt job data s)) !! i = Some (ri, erri) ->
                 erri = None)
  \/ (exists e, result (saveNews rt job data s) = Done ([], Some e)
                /\ (createCalls (events (saveNews rt job data s)) = []
                    \/ exists k r e0 recs,
                        recs !! k = Some r
                        /\ e = "[Job.saveNews][News.Create]: " +:+ e0
                        /\ createCalls (events (saveNews rt job data s))
                           = failedAt k r e0 recs)).
Proof.
  destruct (shouldSaveToDB job) eqn:Hs.
  - destruct (saveNews_cases job data s Hs) as [[Hev [e He]] | (recs & Hall & Hcases)].
    + right. exists e. split; [exact He |]. left. rewrite Hev. reflexivity.
    + destruct Hcases as [[Hres Hc] | (k & r & e0 & Hk & Hres & Hc)].
      * left. eexists. split; [exact Hres |].
        intros i ri erri Hi. rewrite Hc in Hi.
        apply allCreated_lookup in Hi. tauto.
      * right. eexists. split; [exact Hres |]. right. exists k, r, e0, recs. auto.
  - left. exists []. unfold saveNews. rewrite Hs. cbn. split; [reflexivity |].
    intros i ri erri Hi. discriminate.
Qed.

Lemma Run_createFailureIsFatal (job : Job W) (s : St W) :
  createFailureIsFatal job (Run rt job s).
Proof.
  assert (forall lvl stage e, holds (report job lvl stage e) (fun _ => True) neutral)
    as Hrep.
  { intros. apply report_holds; intros; repeat split. }
  assert (forall msg c, holds (@breadcrumb W msg c) (fun _ => True) neutral) as Hbc.
  { intros. unfold breadcrumb. apply holds_emit; repeat split. }
  unfold Run.
  apply createFailureIsFatal_bind; [holds_step; exact I |].
  intros [news ferr] s1.
  apply createFailureIsFatal_bind; [apply holds_emit; repeat split |].
  intros _ s2.
  apply createFailureIsFatal_bind.
  { destruct ferr; [apply Hrep | apply holds_ret; exact I]. }
  intros _ s3.
  apply createFailureIsFatal_bind; [apply Hbc |]. intros _ s4.
  destruct (length news =? 0)%nat; [apply createFailureIsFatal_ret |].
  apply createFailureIsFatal_bind.
  { apply removeDuplicates_holds. intros. repeat split. }
  intros [uniqueNews err] s5. destruct err as [e |].
  { apply createFailureIsFatal_bind; [apply Hrep |]. intros _ s6.
    apply createFailureIsFatal_ret. }
  apply createFailureIsFatal_bind; [apply Hbc |]. intros _ s6.
  destruct (length uniqueNews =? 0)%nat; [apply createFailureIsFatal_ret |].
  apply createFailureIsFatal_bind.
  { apply composeNews_holds. intros. repeat split. }
  intros [composedNews err] s7. destruct err as [e |].
  { apply createFailureIsFatal_bind; [apply Hrep |]. intros _ s8.
    apply createFailureIsFatal_ret. }
  apply createFailureIsFatal_bind; [apply Hbc |]. intros _ s8.
  (* the persist stage *)
  set (data := {| News := uniqueNews; ComposedNews := composedNews; DBNews := [] |}).
  match goal with |- createFailureIsFatal _ (bind _ ?K _) => set (K0 := K) end.
  assert (forall d sS,
             Forall (fun e => isCreate e = false) (events (K0 (d, None) sS)))
    as Htail.
  { intros d sS. subst K0. cbn beta iota.
    apply (holds_events _ (fun _ => True)).
    eapply holds_bind; [apply breadcrumb_holds; reflexivity | intros _ _].
    eapply holds_bind.
    { apply publish_holds with (P := fun e => isCreate e = false). reflexivity. }
    intros [d' err] _. destruct err as [e |].
    { eapply holds_bind; [apply report_holds; reflexivity | intros _ _].
      apply holds_ret. exact I. }
    eapply holds_bind; [apply breadcrumb_holds; reflexivity | intros _ _].
    eapply holds_bind; [apply updateNews_holds; reflexivity | intros err _].
    destruct err as [e |].
    { eapply holds_bind; [apply report_holds; reflexivity | intros _ _].
      apply holds_ret. exact I. }
    eapply holds_bind; [apply breadcrumb_holds; reflexivity | intros _ _].
    apply holds_ret. exact I. }
  pose proof (holds_events _ _ _ s8
                (saveNews_holds job data (fun e => isCreate e = true)
                   (fun _ _ _ => eq_refl))) as Hcreates.
  destruct (saveNews rt job data s8) as [[res sS] tS] eqn:Es.
  cbn [result events] in *.
  destruct (saveNews_calls job data s8)
    as [(d & Hres & Hnone) | (e & Hres & Hfail)];
    rewrite Es in *; cbn [result events] in *; subst res;
    rewrite (bind_Done _ _ _ _ _ _ Es).
  - (* every create succeeded *)
    unfold createFailureIsFatal. cbn [result events]. intros i r e.
    rewrite createCalls_app, (createCalls_none _ (Htail d sS)), app_nil_r.
    intros Hi. apply Hnone in Hi. discriminate.
  - (* saveNews failed *)
    subst K0. unfold createFailureIsFatal. cbn -[createCalls]. intros i r e'.
    rewrite createCalls_app. cbn [createCalls omap app]. rewrite app_nil_r.
    intros Hi. destruct Hfail as [Hnil | (k & r0 & e0 & recs & Hk & -> & Hc)].
    { rewrite Hnil in Hi. discriminate. }
    rewrite Hc in *.
    destruct (failedAt_lookup _ _ _ _ _ _ _ Hk Hi) as [(_ & _ & [=]) | (-> & -> & [= ->])].
    split; [reflexivity |]. split; [apply failedAt_length; exact Hk |]. split.
    { intros j rj errj Hj Hlook.
      destruct (failedAt_lookup _ _ _ _ _ _ _ Hk Hlook) as [(_ & _ & ->) | (-> & _)];
        [reflexivity | lia]. }
    split.
    + apply Forall_app. split.
      * eapply Forall_impl; [exact Hcreates |].
        intros ev Hev. destruct ev; try discriminate. auto.
      * repeat constructor.
    + exists tS. reflexivity.
Qed.

Lemma failedAt_lookup_lt k r e0 recs i ri :
  recs !! k = Some r -> i < k -> recs !! i = Some ri ->
  failedAt k r e0 recs !! i = Some (ri, None).
Proof.
  intros Hk Hik Hi. pose proof (lookup_lt_Some _ _ _ Hk) as Hlt.
  unfold failedAt, allCreated. rewrite lookup_app_l.
  - rewrite list_lookup_fmap, lookup_take_lt, Hi by lia. reflexivity.
  - rewrite length_map, length_take. lia.
Qed.

Lemma failedAt_lookup_eq k r e0 recs :
  recs !! k = Some r -> failedAt k r e0 recs !! k = Some (r, Some e0).
Proof.
  intros Hk. pose proof (lookup_lt_Some _ _ _ Hk) as Hlt.
  unfold failedAt, allCreated. rewrite lookup_app_r.
  - rewrite length_map, length_take.
    replace (k - k `min` length recs) with 0 by lia. reflexivity.
  - rewrite length_map, length_take. lia.
Qed.

(** C9. A failing [Create].  When the create call numbered [k] (from 0) of
    [saveNews] fails with [e], the calls so far were for the records of the
    first [k + 1] news, in order, all before it succeeded, it is the last
    call, and [saveNews] returns the error.  In a run, the exit is then the
    one after [saveNews], the run calls neither the publisher nor the
    archivist's [Update], and it ends on the warning and the capture of
    that error. *)
Theorem C9_create_failure_stops_the_run (job : Job W) :
  (forall data s k r e,
      createCalls (events (saveNews rt job data s)) !! k = Some (r, Some e) ->
      result (saveNews rt job data s)
      = Done ([], Some ("[Job.saveNews][News.Create]: " +:+ e))
      /\ length (createCalls (events (saveNews rt job data s))) = S k
      /\ forall i, i <= k ->
           exists n ri erri,
             News data !! i = Some n
             /\ createCalls (events (saveNews rt job data s)) !! i = Some (ri, erri)
             /\ persistedFrom rt job (ComposedNews data) n ri
             /\ (i < k -> erri = None))
  /\ (forall s k r e,
        createCalls (events (Run rt job s)) !! k = Some (r, Some e) ->
        result (Run rt job s) = Done SaveNewsFailed
        /\ length (createCalls (events (Run rt job s))) = S k
        /\ (forall i ri erri,
               i < k ->
               createCalls (events (Run rt job s)) !! i = Some (ri, erri) ->
               erri = None)
        /\ Forall (fun ev => isPublish ev = false /\ isUpdate ev = false)
                  (events (Run rt job s))
        /\ exists before,
             events (Run rt job s)
             = before
               ++ [EvLog Warn ("[" +:+ jobName job +:+ "][saveNews]")
                     ("[Job.saveNews][News.Create]: " +:+ e);
                   EvCapture ("[Job.saveNews][News.Create]: " +:+ e)]).
Proof.
  split.
  - intros data s k r e Hk.
    destruct (shouldSaveToDB job) eqn:Hs.
    2:{ unfold saveNews in Hk. rewrite Hs in Hk. discriminate. }
    destruct (saveNews_cases job data s Hs) as [[Hev _] | (recs & Hall & Hcases)].
    { rewrite Hev in Hk. discriminate. }
    destruct Hcases as [[_ Hc] | (k0 & r0 & e0 & Hk0 & Hres & Hc)]; rewrite Hc in *.
    { apply allCreated_lookup in Hk as [_ [=]]. }
    destruct (failedAt_lookup _ _ _ _ _ _ _ Hk0 Hk)
      as [(_ & _ & [=]) | (-> & -> & [= ->])].
    split; [exact Hres |]. split; [apply failedAt_length; exact Hk0 |].
    intros i Hi. pose proof (lookup_lt_Some _ _ _ Hk0) as Hlt.
    destruct (lookup_lt_is_Some_2 recs i) as [ri Hri]; [lia |].
    destruct (Forall2_lookup_r _ _ _ _ _ Hall Hri) as (n & Hn & Hp).
    destruct (decide (i < k0)) as [Hlt' | Hge].
    + exists n, ri, None. split; [exact Hn |].
      split; [apply failedAt_lookup_lt; assumption |]. auto.
    + assert (i = k0) as -> by lia. exists n, r0, (Some e0).
      assert (ri = r0) as -> by congruence.
      split; [exact Hn |]. split; [apply failedAt_lookup_eq; exact Hk0 |].
      split; [exact Hp | lia].
  - intros s k r e Hk. exact (Run_createFailureIsFatal job s k r e Hk).
Qed.

(** *** The fetch, and what follows it *)

Lemma bind_ext {A B} (m1 m2 : M W A) (k1 k2 : A -> M W B) s :
  m1 s = m2 s -> (forall a s1, k1 a s1 = k2 a s1) ->
  bind m1 k1 s = bind m2 k2 s.
Proof.
  intros Hm Hk. unfold bind. rewrite Hm.
  destruct (m2 s) as [[[a | why] s1] t1]; [| reflexivity].
  rewrite Hk. reflexivity.
Qed.

Lemma buildDBNews_withJournalist j (job : Job W) m news :
  buildDBNews rt (withJournalist j job) m news = buildDBNews rt job m news.
Proof.
  induction news as [| n news IH]; cbn [buildDBNews]; [reflexivity |].
  rewrite IH. reflexivity.
Qed.

Lemma createAll_withJournalist j (job : Job W) dbNews :
  createAll (withJournalist j job) dbNews = createAll job dbNews.
Proof.
  induction dbNews as [| n rest IH]; cbn [createAll]; [reflexivity |].
  rewrite IH. reflexivity.
Qed.

Lemma publishLoop_withJournalist j (job : Job W) dbNews :
  publishLoop rt (withJournalist j job) dbNews = publishLoop rt job dbNews.
Proof.
  induction dbNews as [| n rest IH]; cbn [publishLoop]; [reflexivity |].
  rewrite IH. reflexivity.
Qed.

Lemma updateAll_withJournalist j (job : Job W) dbNews :
  updateAll (withJournalist j job) dbNews = updateAll job dbNews.
Proof.
  induction dbNews as [| n rest IH]; cbn [updateAll]; [reflexivity |].
  rewrite IH. reflexivity.
Qed.

Lemma saveNews_withJournalist j (job : Job W) data s :
  saveNews rt (withJournalist j job) data s = saveNews rt job data s.
Proof.
  unfold saveNews. cbn [shouldSaveToDB withJournalist].
  destruct (negb (shouldSaveToDB job)); [reflexivity |].
  destruct (length (News data) <? length (ComposedNews data))%nat; [reflexivity |].
  rewrite buildDBNews_withJournalist. apply bind_ext; [reflexivity |].
  intros [dbNews err] s1. destruct err; [reflexivity |].
  rewrite createAll_withJournalist. reflexivity.
Qed.

Lemma publish_withJournalist j (job : Job W) dbNews :
  publish rt (withJournalist j job) dbNews = publish rt job dbNews.
Proof. unfold publish. rewrite publishLoop_withJournalist. reflexivity. Qed.

Lemma updateNews_withJournalist j (job : Job W) dbNews :
  updateNews (withJournalist j job) dbNews = updateNews job dbNews.
Proof.
  unfold updateNews. rewrite updateAll_withJournalist. reflexivity.
Qed.

Lemma bind_emit_eq {B} e (k : unit -> M W B) s r s' t :
  k tt s = (r, s', t) -> bind (emit e) k s = (r, s', e :: t).
Proof. intros H. rewrite bind_emit, H. reflexivity. Qed.

Lemma bind_report_eq {B} (job : Job W) lvl stage e (k : unit -> M W B) s r s' t :
  k tt s = (r, s', t) ->
  bind (report job lvl stage e) k s
  = (r, s', EvLog lvl ("[" +:+ jobName job +:+ "][" +:+ stage +:+ "]") e
            :: EvCapture e :: t).
Proof.
  intros H. unfold report. rewrite bind_assoc.
  apply bind_emit_eq. apply bind_emit_eq. exact H.
Qed.

(** A run whose fetch fails, and the run of the job whose journalist keeps
    the error to itself: the same outcome [out] follows the fetch. *)
Lemma Run_fetch_error (job : Job W) (s : St W) news e w1 :
  GetLatestNews (job_journalist job) (until job) (world s) = ((news, Some e), w1) ->
  exists out : Res RunExit * St W * list Event,
    Run rt job s
    = (result out, final out,
       EvGetLatestNews (until job) news (Some e)
         :: EvLog Info ("[" +:+ jobName job +:+ "][GetLatestNews]") e
         :: EvCapture e :: events out)
    /\ Run rt (withJournalist (withoutFetchError (job_journalist job)) job) s
       = (result out, final out,
          EvGetLatestNews (until job) news None :: events out).
Proof.
  intros Hf.
  set (quiet := withJournalist (withoutFetchError (job_journalist job)) job).
  assert (GetLatestNews (job_journalist quiet) (until quiet) (world s)
          = ((news, None), w1)) as Hq.
  { cbn. rewrite Hf. reflexivity. }
  eexists. split.
  - unfold Run. rewrite (bind_call _ _ _ _ _ Hf). cbn beta iota.
    apply bind_emit_eq. apply bind_report_eq. apply out_eta.
  - unfold Run. rewrite (bind_call _ _ _ _ _ Hq). cbn beta iota.
    apply bind_emit_eq. rewrite bind_ret. rewrite <- out_eta.
    apply bind_ext; [reflexivity |]. intros _ s2.
    destruct (length news =? 0)%nat; [reflexivity |].
    apply bind_ext; [reflexivity |]. intros [uniqueNews err] s3.
    destruct err; [reflexivity |].
    apply bind_ext; [reflexivity |]. intros _ s4.
    destruct (length uniqueNews =? 0)%nat; [reflexivity |].
    apply bind_ext; [reflexivity |]. intros [composedNews err] s5.
    destruct err; [reflexivity |].
    apply bind_ext; [reflexivity |]. intros _ s6.
    apply bind_ext; [apply saveNews_withJournalist |]. intros [dbNews err] s7.
    destruct err; [reflexivity |].
    apply bind_ext; [reflexivity |]. intros _ s8.
    apply bind_ext; [unfold quiet; rewrite publish_withJournalist; reflexivity |].
    intros [dbNews' err] s9. destruct err; [reflexivity |].
    apply bind_ext; [reflexivity |]. intros _ s10.
    apply bind_ext; [unfold quiet; rewrite updateNews_withJournalist; reflexivity |].
    intros err s11. destruct err; reflexivity.
Qed.

(** *** [Compose] *)

(** Under a clock that stands still, the filter of [Compose] keeps the news
    whose day of the month is that of the clock. *)
Lemma filterToday_steady (now : time.Time) news s :
  (forall w, time_Now rt w = (now, w)) ->
  filterToday rt news s
  = (Done (List.filter
             (fun n => (time.Day (journalist.Date n) =? time.Day now)%Z) news),
     s, []).
Proof.
  intros Hclock. destruct s as [w h].
  induction news as [| n news IH]; cbn [filterToday List.filter]; [reflexivity |].
  rewrite (bind_call (time_Now rt) now w _ {| world := w; heap := h |} (Hclock w)).
  cbn [heap].
  rewrite (bind_Done _ _ _ _ _ _ IH). cbn.
  destruct (time.Day (journalist.Date n) =? time.Day now)%Z; reflexivity.
Qed.

(** When the filter keeps nothing, [Compose] returns no composed news and
    no error, and the OpenAI client is not called. *)
Lemma Compose_nothing_today (c : composer.Composer W) news s s1 t1 :
  filterToday rt news s = (Done [], s1, t1) ->
  Compose rt c news s = (Done ([], None), s1, t1).
Proof.
  intros H. unfold Compose. rewrite (bind_Done _ _ _ _ _ _ H). cbn.
  rewrite app_nil_r. reflexivity.
Qed.
End Properties.

(** ** The properties on the concrete world *)

(** C2. [Compose] is to take the news of the current calendar day only, and
    its own comment says that it filters out the news that are not from
    today.  It compares the day of the month alone: on November 15, 2023 a
    news of October 15, 2023 goes to the OpenAI client, and what the client
    composed for it is returned. *)
Theorem C2_Compose_takes_news_of_another_month :
  time.sameDate (journalist.Date demo.stale) demo.now = false
  /\ Compose (demo.rt [demo.composedStale]) demo.theComposer [demo.stale] demo.start
     = (Done ([demo.composedStale], None), demo.start,
        [EvChatCompletion
           (composeRequest demo.theComposer (demo.allIDs [demo.stale]))
           {| Choices := [ {| Role := "assistant"; Content := "[...]" |} ] |}
           None]).
Proof. split; vm_compute; reflexivity. Qed.

(** C1 fails as stated: the job that does not save fetches one news, which
    no filter would skip, and the run never calls the publisher. *)
Lemma C1_counterexample :
  shouldSaveToDB (demo.job [demo.A] None) = false
  /\ omitSuspicious (demo.job [demo.A] None) = false
  /\ omitEmptyMeta (demo.job [demo.A] None) = false
  /\ GetLatestNews (job_journalist (demo.job [demo.A] None))
       (until (demo.job [demo.A] None)) (world demo.start)
     = (([demo.A], None), 0)
  /\ result (Run (demo.rt []) (demo.job [demo.A] None) demo.start) = Done Finished
  /\ List.filter isPublish
       (events (Run (demo.rt []) (demo.job [demo.A] None) demo.start)) = [].
Proof. repeat split; vm_compute; reflexivity. Qed.

(** C10 fails as stated: with [omitEmptyMeta] and [omitSuspicious] set, a
    suspicious record without metadata is skipped, and [publish] returns no
    error. *)
Lemma C10_counterexample :
  omitEmptyMeta (demo.filteringJob []) = true
  /\ omitSuspicious (demo.filteringJob []) = true
  /\ (models.MetaData <$> heap demo.oneSuspicious !! 0) = Some None
  /\ (models.IsSuspicious <$> heap demo.oneSuspicious !! 0) = Some true
  /\ publish (demo.rt []) (demo.filteringJob []) [0] demo.oneSuspicious
     = (Done ([0], None), demo.oneSuspicious, []).
Proof. repeat split; vm_compute; reflexivity. Qed.

(** The theorems above, at work on the concrete world. *)

Lemma C1_witness :
  saveNews (demo.rt []) (demo.job [demo.A] None) demo.twoNews demo.start
  = (Done ([], None), demo.start, [])
  /\ Forall (fun e => isPublish e = false /\ isCreate e = false
                      /\ isUpdate e = false)
            (events (Run (demo.rt []) (demo.job [demo.A] None) demo.start)).
Proof.
  destruct (C1_without_persistence_nothing_is_published
              (demo.rt []) (demo.job [demo.A] None) eq_refl) as [Hsave Hrun].
  split; [apply Hsave | apply Hrun].
Defined.

Lemma C3_witness :
  removeDuplicates demo.dedupeJob [demo.A; demo.B; demo.C] demo.start
  = (Done ([demo.A; demo.C], None), demo.start,
     [EvFindAllByHashes ["A"; "B"; "C"] [demo.record "B" false None] None])
  /\ removeDuplicates (demo.job [] None) [demo.A; demo.B] demo.start
     = (Done ([demo.A; demo.B], None), demo.start, []).
Proof.
  split.
  - exact (proj1 (C3_removeDuplicates_filters
                    demo.dedupeJob [demo.A; demo.B; demo.C] demo.start)
             [demo.record "B" false None] 0 eq_refl eq_refl eq_refl).
  - exact (proj2 (C3_removeDuplicates_filters
                    (demo.job [] None) [demo.A; demo.B] demo.start) eq_refl).
Defined.

Lemma C4_witness :
  saveNews (demo.rt []) (demo.savingJob [] None) demo.tooManyComposed demo.start
  = (Done ([], Some "[Job.saveNews]: Composed news count is more than original news count"),
     demo.start, [])
  /\ createCalls
       (events (saveNews (demo.rt []) (demo.savingJob [] None)
                  demo.tooManyComposed demo.start)) = [].
Proof.
  apply (C4_saveNews_count_check (demo.rt []) (demo.savingJob [] None)
           demo.tooManyComposed demo.start); [reflexivity | vm_compute; lia].
Defined.

Lemma C6_witness :
  (length [0; 1] = length (News demo.twoNews)
   /\ Forall2
        (fun n created =>
           persistedFrom (demo.rt []) (demo.savingJob [] None)
             (ComposedNews demo.twoNews) n created.1
           /\ created.2 = None
           /\ (is_Some (models.MetaData created.1)
               <-> exists c, c ∈ ComposedNews demo.twoNews
                             /\ composer.ID c = journalist.ID n))
        (News demo.twoNews)
        (createCalls
           (events (saveNews (demo.rt []) (demo.savingJob [] None)
                      demo.twoNews demo.start))))
  /\ exists recs,
       Forall2
         (fun n r =>
            persistedFrom (demo.rt []) (demo.savingJob [] None)
              (ComposedNews demo.asManyComposed) n r
            /\ (is_Some (models.MetaData r)
                <-> exists c, c ∈ ComposedNews demo.asManyComposed
                              /\ composer.ID c = journalist.ID n))
         (News demo.asManyComposed) recs
       /\ ((exists dbNews,
               result (saveNews (demo.rt []) (demo.savingJob [] None)
                         demo.asManyComposed demo.start) = Done (dbNews, None)
               /\ length dbNews = length (News demo.asManyComposed)
               /\ createCalls
                    (events (saveNews (demo.rt []) (demo.savingJob [] None)
                               demo.asManyComposed demo.start))
                  = map (fun r => (r, None)) recs)
           \/ (exists k r e0,
                  recs !! k = Some r
                  /\ result (saveNews (demo.rt []) (demo.savingJob [] None)
                               demo.asManyComposed demo.start)
                     = Done ([], Some ("[Job.saveNews][News.Create]: " +:+ e0))
                  /\ createCalls
                       (events (saveNews (demo.rt []) (demo.savingJob [] None)
                                  demo.asManyComposed demo.start))
                     = map (fun r => (r, None)) (take k recs) ++ [(r, Some e0)])).
Proof.
  split.
  - apply (proj1 (C6_saveNews_builds_one_record_per_news
                    (demo.rt []) (demo.savingJob [] None) demo.twoNews demo.start
                    eq_refl)
             (final (saveNews (demo.rt []) (demo.savingJob [] None)
                       demo.twoNews demo.start))).
    vm_compute. reflexivity.
  - apply (proj2 (C6_saveNews_builds_one_record_per_news
                    (demo.rt []) (demo.savingJob [] None) demo.asManyComposed
                    demo.start eq_refl)).
    + vm_compute. lia.
    + intros c _. eexists. reflexivity.
Defined.

Lemma C7_witness :
  Forall (fun e => forall n r text id err,
              e = EvPublish n r text id err -> models.IsSuspicious r = false)
         (events (Run (demo.rt [demo.composedA; demo.composedC])
                    (OmitSuspicious (demo.savingJob [demo.A; demo.B; demo.C] None))
                    demo.start))
  /\ heap (final (publish (demo.rt [])
                    (OmitSuspicious (demo.savingJob [] None)) [0] demo.oneSuspicious))
       !! 0
     = Some (demo.record "h0" true None).
Proof.
  split.
  - exact (proj1 (C7_suspicious_never_published
                    (demo.rt [demo.composedA; demo.composedC])
                    (OmitSuspicious (demo.savingJob [demo.A; demo.B; demo.C] None))
                    eq_refl) demo.start).
  - exact (proj2 (C7_suspicious_never_published
                    (demo.rt []) (OmitSuspicious (demo.savingJob [] None)) eq_refl)
             [0] demo.oneSuspicious 0 (demo.record "h0" true None) eq_refl eq_refl).
Defined.

Lemma C8_witness :
  Forall (fun e => forall n r text id err meta,
              e = EvPublish n r text id err ->
              json_Unmarshal_Meta (demo.rt [demo.composedA; demo.composedC])
                (models.MetaData r) = (meta, None) ->
              ~ (meta_Tickers meta = [] /\ meta_Markets meta = []
                 /\ meta_Hashtags meta = []))
         (events (Run (demo.rt [demo.composedA; demo.composedC])
                    (OmitEmptyMeta (demo.savingJob [demo.A; demo.C] None))
                    demo.start)).
Proof.
  exact (C8_empty_meta_never_published
           (demo.rt [demo.composedA; demo.composedC])
           (OmitEmptyMeta (demo.savingJob [demo.A; demo.C] None))
           demo.start eq_refl eq_refl).
Defined.

Lemma C9_witness :
  (result (saveNews (demo.rt []) (demo.savingJob [] (Some 1)) demo.threeNews demo.start)
   = Done ([], Some ("[Job.saveNews][News.Create]: " +:+ "connection lost"))
   /\ length (createCalls
                (events (saveNews (demo.rt []) (demo.savingJob [] (Some 1))
                           demo.threeNews demo.start))) = 2
   /\ forall i, i <= 1 ->
        exists n ri erri,
          News demo.threeNews !! i = Some n
          /\ createCalls
               (events (saveNews (demo.rt []) (demo.savingJob [] (Some 1))
                          demo.threeNews demo.start)) !! i = Some (ri, erri)
          /\ persistedFrom (demo.rt []) (demo.savingJob [] (Some 1))
               (ComposedNews demo.threeNews) n ri
          /\ (i < 1 -> erri = None))
  /\ (result (Run (demo.rt []) (demo.savingJob [demo.A; demo.B; demo.C] (Some 1))
                demo.start)
      = Done SaveNewsFailed
      /\ length (createCalls
                   (events (Run (demo.rt [])
                              (demo.savingJob [demo.A; demo.B; demo.C] (Some 1))
                              demo.start))) = 2
      /\ (forall i ri erri,
             i < 1 ->
             createCalls
               (events (Run (demo.rt [])
                          (demo.savingJob [demo.A; demo.B; demo.C] (Some 1))
                          demo.start)) !! i = Some (ri, erri) ->
             erri = None)
      /\ Forall (fun ev => isPublish ev = false /\ isUpdate ev = false)
                (events (Run (demo.rt [])
                           (demo.savingJob [demo.A; demo.B; demo.C] (Some 1))
                           demo.start))
      /\ exists before,
           events (Run (demo.rt [])
                     (demo.savingJob [demo.A; demo.B; demo.C] (Some 1))
                     demo.start)
           = before
             ++ [EvLog Warn
                   ("[" +:+ jobName (demo.savingJob [demo.A; demo.B; demo.C] (Some 1))
                    +:+ "][saveNews]")
                   ("[Job.saveNews][News.Create]: " +:+ "connection lost");
                 EvCapture ("[Job.saveNews][News.Create]: " +:+ "connection lost")]).
Proof.
  split.
  - apply (proj1 (C9_create_failure_stops_the_run
                    (demo.rt []) (demo.savingJob [] (Some 1)))
             demo.threeNews demo.start 1
             (newDBNews (demo.savingJob [] (Some 1)) demo.B) "connection lost").
    vm_compute. reflexivity.
  - apply (proj2 (C9_create_failure_stops_the_run
                    (demo.rt []) (demo.savingJob [demo.A; demo.B; demo.C] (Some 1)))
             demo.start 1
             (newDBNews (demo.savingJob [] (Some 1)) demo.B) "connection lost").
    vm_compute. reflexivity.
Defined.

(** * Further properties of the pipeline *)

Section Stages.
Context {W : Type} (rt : Runtime W).

Lemma stageTrace_nil n x failed : stageTrace n x failed [].
Proof. constructor. Qed.

Lemma stageTrace_app n x failed t1 t2 :
  stageTrace n x failed t1 -> stageTrace n x failed t2 ->
  stageTrace n x failed (t1 ++ t2).
Proof. intros H1 H2. apply Forall_app. auto. Qed.

Lemma stageTrace_failed n x t : stageTrace n x false t -> stageTrace n x true t.
Proof.
  intros H. eapply Forall_impl; [exact H |].
  intros e [Hs [Hf | [[=] _]]]. split; [exact Hs | left; exact Hf].
Qed.

(** The dedupe stage asks the archivist and nobody else; an error of the
    query is an error of the stage. *)
Lemma removeDuplicates_stageTrace (job : Job W) news s :
  stageTrace 1 RemoveDuplicatesFailed
    (match result (removeDuplicates job news s) with
     | Done (_, Some _) => true
     | _ => false
     end)
    (events (removeDuplicates job news s)).
Proof.
  unfold removeDuplicates.
  destruct (negb (shouldRemoveClones job) || negb (shouldSaveToDB job));
    [apply stageTrace_nil |].
  destruct (FindAllByHashes (app_archivist (app job)) (map journalist.ID news) (world s))
    as [[found err] w] eqn:Eq.
  rewrite (bind_call _ _ _ _ _ Eq). cbn beta iota. rewrite bind_emit.
  destruct err as [e |]; cbn; (constructor; [| constructor]); cbn; auto.
Qed.

Lemma filterToday_silent news s :
  events (filterToday rt news s) = []
  /\ heap (final (filterToday rt news s)) = heap s
  /\ exists today, result (filterToday rt news s) = Done today
                   /\ sublist today news.
Proof.
  revert s. induction news as [| n news IH]; intros s; cbn [filterToday].
  - cbn. split; [reflexivity |]. split; [reflexivity |]. exists []. split; constructor.
  - destruct (time_Now rt (world s)) as [now w] eqn:En.
    rewrite (bind_call _ _ _ _ _ En).
    destruct (IH {| world := w; heap := heap s |}) as (Hev & Hh & today & Hres & Hsub).
    destruct (filterToday rt news {| world := w; heap := heap s |})
      as [[res s1] t1] eqn:Ef. cbn [result final events] in *. subst res t1.
    rewrite (bind_Done _ _ _ _ _ _ Ef). cbn.
    split; [reflexivity |]. split; [exact Hh |].
    destruct (time.Day (journalist.Date n) =? time.Day now)%Z.
    + exists (n :: today). split; [reflexivity |]. constructor. exact Hsub.
    + exists today. split; [reflexivity |]. constructor. exact Hsub.
Qed.

(** The compose stage calls the OpenAI client and nobody else; an error of
    the client is an error of the stage. *)
Lemma composeNews_stageTrace (job : Job W) news s :
  stageTrace 2 ComposeNewsFailed
    (match result (composeNews rt job news s) with
     | Done (_, Some _) => true
     | _ => false
     end)
    (events (composeNews rt job news s)).
Proof.
  unfold composeNews. destruct (negb (shouldComposeText job)); [apply stageTrace_nil |].
  unfold Compose. rewrite bind_assoc.
  destruct (filterToday_silent news s) as (Hev & _ & today & Hres & _).
  destruct (filterToday rt news s) as [[res s1] t1] eqn:Ef.
  cbn [result events] in *. subst res t1.
  rewrite (bind_Done _ _ _ _ _ _ Ef). cbn [app result final events].
  destruct (length today =? 0)%nat; [rewrite bind_ret; apply stageTrace_nil |].
  destruct (ToContentJSON rt today) as [json [e |]];
    [rewrite bind_ret; apply stageTrace_nil |].
  rewrite bind_assoc.
  destruct (composer.CreateChatCompletion (app_composer (app job))
              (composeRequest (app_composer (app job)) json) (world s1))
    as [[resp err] w] eqn:Ec.
  rewrite (bind_call _ _ _ _ _ Ec). cbn beta iota.
  rewrite bind_assoc, bind_emit.
  destruct err as [e |].
  { rewrite bind_ret. cbn. constructor; [| constructor]. cbn. auto. }
  destruct (Choices resp) as [| choice rest].
  { cbn. constructor; [| constructor]. cbn. auto. }
  destruct (json_Unmarshal_ComposedNews rt (Content choice)) as [full [e |]];
    rewrite bind_ret; cbn; (constructor; [| constructor]); cbn; auto.
Qed.

(** The persist stage calls [Create] and nobody else; an error of a
    [Create] is an error of the stage. *)
Lemma createAll_stageTrace (job : Job W) dbNews s :
  stageTrace 3 SaveNewsFailed
    (match result (createAll job dbNews s) with
     | Done (Some _) => true
     | _ => false
     end)
    (events (createAll job dbNews s)).
Proof.
  revert s. induction dbNews as [| n rest IH]; intros s; cbn [createAll].
  - apply stageTrace_nil.
  - destruct (heap s !! n) as [r |] eqn:Hn.
    2:{ rewrite (bind_load_nil _ _ _ Hn). apply stageTrace_nil. }
    rewrite (bind_load _ _ _ _ Hn).
    destruct (Create (app_archivist (app job)) r (world s)) as [[r' err] w] eqn:Ec.
    rewrite (bind_call _ _ _ _ _ Ec). cbn beta iota.
    rewrite (bind_store _ _ r) by exact Hn. rewrite bind_emit.
    destruct err as [e |].
    + cbn. constructor; [| constructor]. cbn. auto.
    + cbn [result events]. constructor; [cbn; auto | apply IH].
Qed.

Lemma saveNews_stageTrace (job : Job W) data s :
  stageTrace 3 SaveNewsFailed
    (match result (saveNews rt job data s) with
     | Done (_, Some _) => true
     | _ => false
     end)
    (events (saveNews rt job data s)).
Proof.
  unfold saveNews. destruct (negb (shouldSaveToDB job)); [apply stageTrace_nil |].
  destruct (length (News data) <? length (ComposedNews data))%nat;
    [apply stageTrace_nil |].
  pose proof (holds_events _ _ _ s
                (buildDBNews_holds rt job (mapComposedNews (ComposedNews data))
                   (News data) (fun _ => False))) as Hb.
  destruct (buildDBNews rt job (mapComposedNews (ComposedNews data)) (News data) s)
    as [[[[dbNews err] | why] s1] t1] eqn:Eb; cbn [events] in Hb.
  2:{ rewrite (bind_Panicked _ _ _ _ _ _ Eb). cbn.
      eapply Forall_impl; [exact Hb | intros e []]. }
  assert (t1 = []) as -> by (destruct t1; [reflexivity | inversion Hb; contradiction]).
  rewrite (bind_Done _ _ _ _ _ _ Eb). cbn beta iota. cbn [app].
  destruct err as [e |]; [apply stageTrace_nil |].
  pose proof (createAll_stageTrace job dbNews s1) as Hc.
  destruct (createAll job dbNews s1) as [[[err | why] s2] t2] eqn:Ec;
    cbn [result events] in Hc.
  - rewrite (bind_Done _ _ _ _ _ _ Ec). destruct err as [e |]; cbn;
      rewrite app_nil_r; exact Hc.
  - rewrite (bind_Panicked _ _ _ _ _ _ Ec). cbn. exact Hc.
Qed.

(** One turn of the loop of [publish]: nothing happens to the record (it
    is missing, skipped, or its metadata does not decode), or it is handed
    to the publisher, which marks it or fails. *)
Lemma publishOne_cases (job : Job W) n s res s' t :
  publishOne rt job n s = (res, s', t) ->
  (t = [] /\ s' = s)
  \/ (exists r id now,
         heap s !! n = Some r /\ passedFilters rt job r
         /\ t = [EvPublish n r (formatNews job r) id None]
         /\ res = Done Next
         /\ heap s' = <[n := models.set_publication id now r]> (heap s))
  \/ (exists r id e,
         heap s !! n = Some r /\ passedFilters rt job r
         /\ t = [EvPublish n r (formatNews job r) id (Some e)]
         /\ res = Done (Return ("[Job.publish][publisher.Publish]: " +:+ e))
         /\ heap s' = heap s).
Proof.
  unfold publishOne. destruct (heap s !! n) as [r |] eqn:Hn.
  2:{ rewrite (bind_load_nil _ _ _ Hn). intros [= <- <- <-]. left. auto. }
  rewrite (bind_load _ _ _ _ Hn).
  destruct (models.IsSuspicious r && omitSuspicious job) eqn:Hsus.
  { intros [= <- <- <-]. left. auto. }
  assert (passedFilters rt job r ->
             (do x <- call (Publish (app_publisher (app job)) (formatNews job r));
              let (id, err) := x in
              run emit (EvPublish n r (formatNews job r) id err);
              match err with
              | Some e => ret (Return ("[Job.publish][publisher.Publish]: " +:+ e))
              | None =>
                  do now <- call (time_Now rt);
                  run store n (models.set_publication id now r);
                  ret Next
              end) s = (res, s', t) ->
             (t = [] /\ s' = s)
             \/ (exists r0 id now,
                    Some r = Some r0 /\ passedFilters rt job r0
                    /\ t = [EvPublish n r0 (formatNews job r0) id None]
                    /\ res = Done Next
                    /\ heap s' = <[n := models.set_publication id now r0]> (heap s))
             \/ (exists r0 id e,
                    Some r = Some r0 /\ passedFilters rt job r0
                    /\ t = [EvPublish n r0 (formatNews job r0) id (Some e)]
                    /\ res = Done (Return ("[Job.publish][publisher.Publish]: " +:+ e))
                    /\ heap s' = heap s)) as Hcall.
  { intros Hpass.
    destruct (Publish (app_publisher (app job)) (formatNews job r) (world s))
      as [[id err] w] eqn:Ep.
    rewrite (bind_call _ _ _ _ _ Ep). cbn beta iota. rewrite bind_emit.
    destruct err as [e |].
    - cbn. intros [= <- <- <-]. right. right. exists r, id, e.
      repeat split; try apply Hpass; auto.
    - destruct (time_Now rt w) as [now w2] eqn:En.
      rewrite (bind_call (time_Now rt) now w2 _ {| world := w; heap := heap s |} En).
      rewrite (bind_store _ _ r) by exact Hn. cbn.
      intros [= <- <- <-]. right. left. exists r, id, now.
      repeat split; try apply Hpass; auto. }
  destruct (omitEmptyMeta job) eqn:Hom.
  - destruct (json_Unmarshal_Meta rt (models.MetaData r)) as [meta [e |]] eqn:Hdec.
    { intros [= <- <- <-]. left. auto. }
    change ((length (meta_Tickers meta) =? 0)%nat
            && (length (meta_Markets meta) =? 0)%nat
            && (length (meta_Hashtags meta) =? 0)%nat) with (emptyMeta meta).
    destruct (emptyMeta meta) eqn:Hem.
    { intros [= <- <- <-]. left. auto. }
    intros Heq. refine (Hcall _ Heq).
    split; [exact Hsus |]. intros _. exists meta. auto.
  - intros Heq. refine (Hcall _ Heq).
    split; [exact Hsus |]. rewrite Hom. intros [=].
Qed.

(** The publish stage calls the publisher and nobody else; an error of the
    publisher is an error of the stage. *)
Lemma publishLoop_stageTrace (job : Job W) dbNews s :
  stageTrace 4 PublishFailed
    (match result (publishLoop rt job dbNews s) with
     | Done (Some _) => true
     | _ => false
     end)
    (events (publishLoop rt job dbNews s)).
Proof.
  revert s. induction dbNews as [| n rest IH]; intros s; cbn [publishLoop].
  - apply stageTrace_nil.
  - destruct (publishOne rt job n s) as [[res1 s1] t1] eqn:E1.
    destruct (publishOne_cases _ _ _ _ _ _ E1)
      as [[-> ->] | [(r & id & now & _ & _ & -> & -> & _)
                    | (r & id & e & _ & _ & -> & -> & _)]].
    + destruct res1 as [[| e] | why].
      * rewrite (bind_Done _ _ _ _ _ _ E1). cbn [app result events].
        specialize (IH s). destruct (publishLoop rt job rest s) as [[r2 s2] t2].
        exact IH.
      * rewrite (bind_Done _ _ _ _ _ _ E1). cbn. constructor.
      * rewrite (bind_Panicked _ _ _ _ _ _ E1). cbn. constructor.
    + rewrite (bind_Done _ _ _ _ _ _ E1). cbn [app result events].
      specialize (IH s1). destruct (publishLoop rt job rest s1) as [[r2 s2] t2].
      cbn [result events] in *. constructor; [cbn; auto | exact IH].
    + rewrite (bind_Done _ _ _ _ _ _ E1). cbn.
      constructor; [| constructor]. cbn. auto.
Qed.

Lemma publish_stageTrace (job : Job W) dbNews s :
  stageTrace 4 PublishFailed
    (match result (publish rt job dbNews s) with
     | Done (_, Some _) => true
     | _ => false
     end)
    (events (publish rt job dbNews s)).
Proof.
  unfold publish. pose proof (publishLoop_stageTrace job dbNews s) as H.
  destruct (publishLoop rt job dbNews s) as [[[err | why] s1] t1] eqn:E;
    cbn [result events] in H.
  - rewrite (bind_Done _ _ _ _ _ _ E). destruct err; cbn; rewrite app_nil_r; exact H.
  - rewrite (bind_Panicked _ _ _ _ _ _ E). exact H.
Qed.

(** The update stage calls [Update] and nobody else; an error of an
    [Update] is an error of the stage. *)
Lemma updateNews_stageTrace (job : Job W) dbNews s :
  stageTrace 5 UpdateNewsFailed
    (match result (updateNews job dbNews s) with
     | Done (Some _) => true
     | _ => false
     end)
    (events (updateNews job dbNews s)).
Proof.
  unfold updateNews. destruct (negb (shouldSaveToDB job)); [apply stageTrace_nil |].
  revert s. induction dbNews as [| n rest IH]; intros s; cbn [updateAll].
  - apply stageTrace_nil.
  - destruct (heap s !! n) as [r |] eqn:Hn.
    2:{ rewrite (bind_load_nil _ _ _ Hn). apply stageTrace_nil. }
    rewrite (bind_load _ _ _ _ Hn).
    destruct (Update (app_archivist (app job)) r (world s)) as [[r' err] w] eqn:Ec.
    rewrite (bind_call _ _ _ _ _ Ec). cbn beta iota.
    rewrite (bind_store _ _ r) by exact Hn. rewrite bind_emit.
    destruct err as [e |].
    + cbn. constructor; [| constructor]. cbn. auto.
    + cbn [result events]. constructor; [cbn; auto | apply IH].
Qed.

(** *** The order of the stages in a run *)

Lemma omap_callStage_stage n x failed t :
  stageTrace n x failed t -> Forall (fun k => k = n) (omap callStage t).
Proof.
  induction 1 as [| e t [He _] Ht IH]; [constructor |].
  cbn. destruct He as [-> | ->]; [exact IH | constructor; auto].
Qed.

Lemma omap_callStage_from n t :
  Forall (fun e => forall k, callStage e = Some k -> n <= k) t ->
  Forall (fun k => n <= k) (omap callStage t).
Proof.
  induction 1 as [| e t He Ht IH]; [constructor |].
  cbn. destruct (callStage e) as [k |]; [constructor; auto | exact IH].
Qed.

Lemma stagesInOrder_app n t1 t2 :
  Forall (fun k => k = n) (omap callStage t1) ->
  Forall (fun k => n <= k) (omap callStage t2) ->
  stagesInOrder t2 -> stagesInOrder (t1 ++ t2).
Proof.
  unfold stagesInOrder. rewrite omap_app.
  induction 1 as [| k l -> Hl IH]; intros H2 Hs; [exact Hs |].
  cbn. constructor; [apply IH; assumption |].
  apply Forall_app. split; [| exact H2].
  eapply Forall_impl; [exact Hl |]. intros k ->. constructor.
Qed.

Lemma stagesInOrder_stage n x failed t : stageTrace n x failed t -> stagesInOrder t.
Proof.
  intros H. rewrite <- (app_nil_r t).
  eapply stagesInOrder_app; [eapply omap_callStage_stage; exact H | | ]; constructor.
Qed.

Lemma stageTrace_from n x failed t :
  stageTrace n x failed t ->
  Forall (fun e => forall k, callStage e = Some k -> n <= k) t.
Proof.
  intros H. eapply Forall_impl; [exact H |].
  intros e [[He | He] _] k Hk; rewrite He in Hk; [discriminate |].
  injection Hk as <-. constructor.
Qed.

Lemma stageTrace_upto n x failed m t :
  n <= m -> stageTrace n x failed t ->
  Forall (fun e => forall k, callStage e = Some k -> k <= m) t.
Proof.
  intros Hnm H. eapply Forall_impl; [exact H |].
  intros e [[He | He] _] k Hk; rewrite He in Hk; [discriminate |].
  injection Hk as <-. exact Hnm.
Qed.

Lemma staged_weaken n n' (o : Res RunExit * St W * list Event) :
  n' <= n -> staged n o -> staged n' o.
Proof.
  intros Hle (Hfrom & Hord & Hres). split; [| split; [exact Hord |]].
  - eapply Forall_impl; [exact Hfrom |]. intros e He k Hk. specialize (He k Hk). lia.
  - destruct (result o); [| exact Hres].
    destruct Hres as (Hr & Hup & Hf). split; [lia | auto].
Qed.

Lemma staged_ret n x (s : St W) : n <= reach x -> staged n (ret x s).
Proof.
  intros Hle. cbn. split; [constructor |]. split; [constructor |].
  split; [exact Hle |]. split; constructor.
Qed.

Lemma staged_panic n x why (s : St W) t :
  stageTrace n x false t -> staged n (Panicked why, s, t).
Proof.
  intros H. split; [eapply stageTrace_from; exact H |].
  split; [eapply stagesInOrder_stage; exact H |]. cbn.
  eapply Forall_impl; [exact H |]. intros e [_ [Hf | [[=] _]]]. exact Hf.
Qed.

Lemma staged_prefix n x r (s s' : St W) t1 t2 :
  stageTrace n x false t1 -> staged n (r, s, t2) -> staged n (r, s', t1 ++ t2).
Proof.
  intros H1 (Hfrom & Hord & Hres). cbn [result events] in *.
  split; [apply Forall_app; split; [eapply stageTrace_from; exact H1 | exact Hfrom] |].
  split.
  { eapply stagesInOrder_app;
      [eapply omap_callStage_stage; exact H1
      | apply omap_callStage_from; exact Hfrom | exact Hord]. }
  destruct r as [y | why].
  - destruct Hres as (Hr & Hup & Hf). split; [exact Hr |]. split.
    + apply Forall_app. split; [eapply stageTrace_upto; eassumption | exact Hup].
    + apply Forall_app. split; [| exact Hf].
      eapply Forall_impl; [exact H1 |]. intros e [_ [He | [[=] _]]]. left. exact He.
  - apply Forall_app. split; [| exact Hres].
    eapply Forall_impl; [exact H1 |]. intros e [_ [He | [[=] _]]]. exact He.
Qed.

(** A step of [Run] that is no stage: it calls nobody, or the journalist. *)
Lemma staged_bind {A} n x (m : M W A) (k : A -> M W RunExit) s :
  (forall s0, stageTrace n x false (events (m s0))) ->
  (forall a s1, staged n (k a s1)) ->
  staged n (bind m k s).
Proof.
  intros Hm Hk. specialize (Hm s).
  destruct (m s) as [[[a | why] s1] t1] eqn:Em; cbn [events] in Hm.
  - rewrite (bind_Done _ _ _ _ _ _ Em). specialize (Hk a s1).
    destruct (k a s1) as [[r2 s2] t2]. cbn [result final events].
    eapply staged_prefix; eassumption.
  - rewrite (bind_Panicked _ _ _ _ _ _ Em). eapply staged_panic. exact Hm.
Qed.

(** A stage of [Run]: when it fails, the run reports and returns [x]. *)
Lemma staged_stage {A} n x (failed : A -> bool) (m : M W A)
    (k : A -> M W RunExit) s :
  reach x = n ->
  (forall s0,
      stageTrace n x
        (match result (m s0) with Done a => failed a | Panicked _ => false end)
        (events (m s0))) ->
  (forall a s1,
      failed a = true ->
      result (k a s1) = Done x
      /\ Forall (fun e => callStage e = None /\ failureExit e = None)
                (events (k a s1))) ->
  (forall a s1, failed a = false -> staged n (k a s1)) ->
  staged n (bind m k s).
Proof.
  intros Hreach Hm Hfail Hok. specialize (Hm s).
  destruct (m s) as [[[a | why] s1] t1] eqn:Em; cbn [result events] in Hm.
  2:{ rewrite (bind_Panicked _ _ _ _ _ _ Em). eapply staged_panic. exact Hm. }
  rewrite (bind_Done _ _ _ _ _ _ Em). destruct (failed a) eqn:Hf.
  - destruct (Hfail a s1 Hf) as [Hres Hev].
    destruct (k a s1) as [[r2 s2] t2]. cbn [result final events] in *. subst r2.
    assert (stageTrace n x true t2) as H2.
    { eapply Forall_impl; [exact Hev |]. intros e [Hc Hx]. split; auto. }
    pose proof (stageTrace_app _ _ _ _ _ Hm H2) as H12.
    split; [eapply stageTrace_from; exact H12 |].
    split; [eapply stagesInOrder_stage; exact H12 |]. cbn.
    split; [lia |]. split; [eapply stageTrace_upto; [| exact H12]; lia |].
    eapply Forall_impl; [exact H12 |]. intros e [_ [He | [_ He]]]; auto.
  - specialize (Hok a s1 Hf). destruct (k a s1) as [[r2 s2] t2].
    cbn [result final events]. eapply staged_prefix; eassumption.
Qed.

Lemma report_stageTrace (job : Job W) n x lvl stage e s :
  stageTrace n x false (events (report job lvl stage e s)).
Proof. cbn. repeat constructor. Qed.

Lemma breadcrumb_stageTrace n x msg c (s : St W) :
  stageTrace n x false (events (breadcrumb msg c s)).
Proof. cbn. repeat constructor. Qed.

Lemma report_then_ret (job : Job W) lvl stage e (x : RunExit) s :
  result ((run report job lvl stage e; ret x) s) = Done x
  /\ Forall (fun ev => callStage ev = None /\ failureExit ev = None)
            (events ((run report job lvl stage e; ret x) s)).
Proof. cbn. split; [reflexivity | repeat constructor]. Qed.

(** Every run is staged, from the fetch on. *)
Lemma Run_staged (job : Job W) (s : St W) : staged 0 (Run rt job s).
Proof.
  unfold Run.
  apply (staged_bind 0 NoNews). { intros s0. unfold call.
    destruct (GetLatestNews _ _ _) as [a w]. apply stageTrace_nil. }
  intros [news ferr] s1.
  apply (staged_bind 0 NoNews).
  { intros s0. cbn. constructor; [| constructor].
    split; [right; reflexivity | left; reflexivity]. }
  intros _ s2.
  apply (staged_bind 0 NoNews).
  { intros s0. destruct ferr; [apply report_stageTrace | apply stageTrace_nil]. }
  intros _ s3.
  apply (staged_bind 0 NoNews); [intros; apply breadcrumb_stageTrace |].
  intros _ s4.
  destruct (length news =? 0)%nat; [apply staged_ret; constructor |].
  apply (staged_weaken 1); [lia |].
  apply (staged_stage 1 RemoveDuplicatesFailed
           (fun out => match out with (_, Some _) => true | _ => false end));
    [reflexivity | intros; apply removeDuplicates_stageTrace | | ].
  { intros [u [e |]] s5 [=]. apply report_then_ret. }
  intros [uniqueNews [e |]] s5 [=].
  apply (staged_bind 1 NoNews); [intros; apply breadcrumb_stageTrace |].
  intros _ s6.
  destruct (length uniqueNews =? 0)%nat; [apply staged_ret; constructor |].
  apply (staged_weaken 2); [lia |].
  apply (staged_stage 2 ComposeNewsFailed
           (fun out => match out with (_, Some _) => true | _ => false end));
    [reflexivity | intros; apply composeNews_stageTrace | | ].
  { intros [u [e |]] s7 [=]. apply report_then_ret. }
  intros [composedNews [e |]] s7 [=].
  apply (staged_bind 2 NoNews); [intros; apply breadcrumb_stageTrace |].
  intros _ s8.
  apply (staged_weaken 3); [lia |].
  apply (staged_stage 3 SaveNewsFailed
           (fun out => match out with (_, Some _) => true | _ => false end));
    [reflexivity | intros; apply saveNews_stageTrace | | ].
  { intros [u [e |]] s9 [=]. apply report_then_ret. }
  intros [dbNews [e |]] s9 [=].
  apply (staged_bind 3 NoNews); [intros; apply breadcrumb_stageTrace |].
  intros _ s10.
  apply (staged_weaken 4); [lia |].
  apply (staged_stage 4 PublishFailed
           (fun out => match out with (_, Some _) => true | _ => false end));
    [reflexivity | intros; apply publish_stageTrace | | ].
  { intros [u [e |]] s11 [=]. apply report_then_ret. }
  intros [dbNews' [e |]] s11 [=].
  apply (staged_bind 4 NoNews); [intros; apply breadcrumb_stageTrace |].
  intros _ s12.
  apply (staged_weaken 5); [lia |].
  apply (staged_stage 5 UpdateNewsFailed
           (fun out => match out with Some _ => true | None => false end));
    [reflexivity | intros; apply updateNews_stageTrace | | ].
  { intros [e |] s13 [=]. apply report_then_ret. }
  intros [e |] s13 [=].
  apply (staged_bind 5 NoNews); [intros; apply breadcrumb_stageTrace |].
  intros _ s14. apply staged_ret. constructor.
Qed.

(** X1. A call of a run that answers with an error decides how the run
    ends: a failed [FindAllByHashes] makes it return after
    [removeDuplicates], a failed [CreateChatCompletion] after [composeNews],
    a failed [Create] after [saveNews], a failed [Publish] after [publish]
    and a failed [Update] after [updateNews]; the run does not panic. *)
Theorem X1_failed_call_decides_exit (job : Job W) (s : St W) (e : Event)
    (x : RunExit) :
  e ∈ events (Run rt job s) ->
  failureExit e = Some x ->
  result (Run rt job s) = Done x.
Proof.
  intros Hin Hx. destruct (Run_staged job s) as (_ & _ & Hres).
  destruct (result (Run rt job s)) as [y | why].
  - destruct Hres as (_ & _ & Hf).
    rewrite Forall_forall in Hf. destruct (Hf e Hin) as [He | He]; congruence.
  - rewrite Forall_forall in Hres. specialize (Hres e Hin). congruence.
Qed.

(** X2. The exit of a run bounds what it called: a run that returns
    because there is no news called the journalist only, one that returns
    after [removeDuplicates] called neither the OpenAI client nor [Create],
    [Publish] or [Update], and so on stage by stage, up to a run that
    returns after [publish], which called no [Update]. *)
Theorem X2_exit_bounds_the_calls (job : Job W) (s : St W) (x : RunExit)
    (e : Event) (k : nat) :
  result (Run rt job s) = Done x ->
  e ∈ events (Run rt job s) ->
  callStage e = Some k ->
  k <= reach x.
Proof.
  intros Hres Hin Hk. destruct (Run_staged job s) as (_ & _ & H).
  rewrite Hres in H. destruct H as (_ & Hup & _).
  rewrite Forall_forall in Hup. exact (Hup e Hin k Hk).
Qed.

(** X3. The calls of a run come in the order of the stages: of two calls
    of its trace, the earlier one is of the same stage as the later one or
    of a stage before it.  So every [Create] of a run comes before every
    [Publish], and every [Publish] before every [Update]. *)
Theorem X3_calls_in_stage_order (job : Job W) (s : St W)
    (t1 t2 t3 : list Event) (e1 e2 : Event) (k1 k2 : nat) :
  events (Run rt job s) = t1 ++ e1 :: t2 ++ e2 :: t3 ->
  callStage e1 = Some k1 ->
  callStage e2 = Some k2 ->
  k1 <= k2.
Proof.
  intros Ht H1 H2. destruct (Run_staged job s) as (_ & Hord & _).
  unfold stagesInOrder in Hord. rewrite Ht in Hord.
  change (t1 ++ e1 :: t2 ++ e2 :: t3) with (t1 ++ [e1] ++ (t2 ++ e2 :: t3)) in Hord.
  rewrite app_assoc, omap_app in Hord.
  eapply (StronglySorted_app_1_elem_of _ _ _ k1 k2 Hord).
  - apply list_elem_of_omap. exists e1. split; [| exact H1].
    apply elem_of_app. right. left.
  - apply list_elem_of_omap. exists e2. split; [| exact H2].
    apply elem_of_app. right. left.
Qed.

(** *** Stages that are switched off, and news that are all known *)

(** The events of a run satisfy [P] as soon as those of its five stages do,
    and [P] holds of the fetch, the log lines, the captures and the
    breadcrumbs. *)
Lemma Run_holds_stages (job : Job W) (P : Event -> Prop) :
  (forall t n e, P (EvGetLatestNews t n e)) ->
  (forall l m e, P (EvLog l m e)) ->
  (forall e, P (EvCapture e)) ->
  (forall m c, P (EvBreadcrumb m c)) ->
  (forall news, holds (removeDuplicates job news) (fun _ => True) P) ->
  (forall news, holds (composeNews rt job news) (fun _ => True) P) ->
  (forall data, holds (saveNews rt job data) (fun _ => True) P) ->
  (forall d, holds (publish rt job d) (fun _ => True) P) ->
  (forall d, holds (updateNews job d) (fun _ => True) P) ->
  holds (Run rt job) (fun _ => True) P.
Proof.
  intros Hget Hlog Hcap Hbc Hdedupe Hcompose Hsave Hpub Hupd.
  assert (forall lvl stage e, holds (report job lvl stage e) (fun _ => True) P) as Hrep.
  { intros. apply report_holds; auto. }
  unfold Run.
  holds_step. destruct a as [news ferr].
  holds_step; [apply Hget |].
  eapply holds_bind with (Q := fun _ => True).
  { destruct ferr; [apply Hrep | holds_step; exact I]. }
  intros _ _.
  eapply holds_bind; [apply breadcrumb_holds, Hbc | intros _ _].
  holds_step; [holds_step; exact I |].
  eapply holds_bind; [apply Hdedupe |]. intros [uniqueNews [e |]] _.
  { eapply holds_bind; [apply Hrep | intros _ _]. holds_step. exact I. }
  eapply holds_bind; [apply breadcrumb_holds, Hbc | intros _ _].
  holds_step; [holds_step; exact I |].
  eapply holds_bind; [apply Hcompose |]. intros [composedNews [e |]] _.
  { eapply holds_bind; [apply Hrep | intros _ _]. holds_step. exact I. }
  eapply holds_bind; [apply breadcrumb_holds, Hbc | intros _ _].
  eapply holds_bind; [apply Hsave |]. intros [dbNews [e |]] _.
  { eapply holds_bind; [apply Hrep | intros _ _]. holds_step. exact I. }
  eapply holds_bind; [apply breadcrumb_holds, Hbc | intros _ _].
  eapply holds_bind; [apply Hpub |]. intros [dbNews' [e |]] _.
  { eapply holds_bind; [apply Hrep | intros _ _]. holds_step. exact I. }
  eapply holds_bind; [apply breadcrumb_holds, Hbc | intros _ _].
  eapply holds_bind; [apply Hupd |]. intros [e |] _.
  { eapply holds_bind; [apply Hrep | intros _ _]. holds_step. exact I. }
  eapply holds_bind; [apply breadcrumb_holds, Hbc | intros _ _].
  holds_step. exact I.
Qed.

(** X4. A stage that is switched off calls nobody: without
    [shouldComposeText] a run never calls the OpenAI client, and unless both
    [shouldRemoveClones] and [shouldSaveToDB] are set it never asks the
    archivist which hashes exist. *)
Theorem X4_disabled_stages_call_nobody (job : Job W) (s : St W) :
  (shouldComposeText job = false ->
   Forall (fun e => isChatCompletion e = false) (events (Run rt job s)))
  /\ (shouldRemoveClones job && shouldSaveToDB job = false ->
      Forall (fun e => isFindAllByHashes e = false) (events (Run rt job s))).
Proof.
  split; intros Hoff; apply (holds_events _ (fun _ => True));
    apply Run_holds_stages; try reflexivity; intros.
  - apply removeDuplicates_holds. reflexivity.
  - unfold composeNews. rewrite Hoff. apply holds_ret. exact I.
  - apply saveNews_holds. reflexivity.
  - apply publish_holds. reflexivity.
  - apply updateNews_holds. reflexivity.
  - unfold removeDuplicates.
    destruct (shouldRemoveClones job), (shouldSaveToDB job);
      try discriminate; apply holds_ret; exact I.
  - apply composeNews_holds. reflexivity.
  - apply saveNews_holds. reflexivity.
  - apply publish_holds. reflexivity.
  - apply updateNews_holds. reflexivity.
Qed.

Lemma filter_all_known (found : list string) (news : list journalist.News) :
  (forall n, n ∈ news -> journalist.ID n ∈ found) ->
  filter (fun n => journalist.ID n ∉ found) news = [].
Proof.
  induction news as [| n news IH]; intros Hall; [reflexivity |].
  rewrite filter_cons_False.
  - apply IH. intros m Hm. apply Hall. right. exact Hm.
  - intros Hn. apply Hn. apply Hall. left.
Qed.

(** X5. News that are all known.  With [shouldRemoveClones] and
    [shouldSaveToDB] set, when the archivist finds a record for the id of
    every news that was fetched, the run ends after [removeDuplicates] with
    the exit [NoUniqueNews]: it has called the journalist and asked the
    archivist once, and nothing is composed, created, published or
    updated. *)
Theorem X5_known_news_end_the_run (job : Job W) (s : St W)
    (news : list journalist.News) (ferr : option error) (w1 w2 : W)
    (found : list models.News) :
  shouldRemoveClones job = true ->
  shouldSaveToDB job = true ->
  GetLatestNews (job_journalist job) (until job) (world s) = ((news, ferr), w1) ->
  news <> [] ->
  FindAllByHashes (app_archivist (app job)) (map journalist.ID news) w1
    = ((found, None), w2) ->
  (forall n, n ∈ news -> journalist.ID n ∈ map models.Hash found) ->
  Run rt job s
  = (Done NoUniqueNews, mkSt w2 (heap s),
     EvGetLatestNews (until job) news ferr
       :: fetchReport job ferr
       ++ [EvBreadcrumb "GetLatestNews returned %d news" (Some (length news));
           EvFindAllByHashes (map journalist.ID news) found None;
           EvBreadcrumb "removeDuplicates returned %d news" (Some 0)]).
Proof.
  intros Hc Hs Hf Hne Hq Hall.
  assert (removeDuplicates job news (mkSt w1 (heap s))
          = (Done ([], None), mkSt w2 (heap s),
             [EvFindAllByHashes (map journalist.ID news) found None])) as Hrd.
  { unfold removeDuplicates. rewrite Hc, Hs. cbn [negb orb].
    rewrite (bind_call _ _ _ _ (mkSt w1 (heap s)) Hq). cbn beta iota.
    rewrite bind_emit.
    rewrite unique_loop_filter, (filter_all_known _ _ Hall). reflexivity. }
  unfold Run. rewrite (bind_call _ _ _ _ _ Hf). cbn beta iota.
  apply bind_emit_eq.
  assert (forall (k : unit -> M W RunExit) r s' t,
             k tt (mkSt w1 (heap s)) = (r, s', t) ->
             bind (match ferr with
                   | Some e => report job Info "GetLatestNews" e
                   | None => ret tt
                   end) k (mkSt w1 (heap s))
             = (r, s', fetchReport job ferr ++ t)) as Hrep.
  { intros k r s' t Hk. destruct ferr as [e |].
    - apply bind_report_eq. exact Hk.
    - rewrite bind_ret. exact Hk. }
  apply Hrep. unfold breadcrumb at 1. apply bind_emit_eq.
  destruct news as [| n0 news']; [contradiction |].
  cbn [length Nat.eqb]. rewrite (bind_Done _ _ _ _ _ _ Hrd). reflexivity.
Qed.

(** *** More on the publish stage *)

Lemma publishLoop_length (job : Job W) dbNews s res s' t :
  publishLoop rt job dbNews s = (res, s', t) ->
  length (heap s') = length (heap s).
Proof.
  revert s res s' t. induction dbNews as [| n rest IH]; intros s res s' t.
  - cbn. intros [= <- <- <-]. reflexivity.
  - cbn [publishLoop]. intros H. apply bind_inv in H.
    destruct H as [(why & H & ->) | (st & s1 & t1 & t2 & H1 & H2 & ->)].
    + destruct (publishOne_cases _ _ _ _ _ _ H)
        as [[_ ->] | [(r & id & now & _ & _ & _ & [=] & _)
                      | (r & id & e & _ & _ & _ & [=] & _)]].
      reflexivity.
    + assert (length (heap s1) = length (heap s)) as Hlen.
      { destruct (publishOne_cases _ _ _ _ _ _ H1)
          as [[_ ->] | [(r & id & now & _ & _ & _ & _ & ->)
                        | (r & id & e & _ & _ & _ & _ & ->)]];
          [reflexivity | apply length_insert | reflexivity]. }
      destruct st as [| e].
      * rewrite <- Hlen. eapply IH. exact H2.
      * cbn in H2. injection H2 as <- <- <-. exact Hlen.
Qed.

(** X6. [publish] writes nothing but publications: whatever it returns, the
    heap keeps its size, and every record on it is what it was before, up to
    its publication id and date. *)
Theorem X6_publish_writes_only_publications (job : Job W) (dbNews : list ptr)
    (s : St W) :
  length (heap (final (publish rt job dbNews s))) = length (heap s)
  /\ forall p r,
       heap s !! p = Some r ->
       exists id at_,
         heap (final (publish rt job dbNews s)) !! p
         = Some (models.set_publication id at_ r).
Proof.
  split.
  - unfold publish.
    destruct (publishLoop rt job dbNews s) as [[[err | why] s1] t1] eqn:E.
    + rewrite (bind_Done _ _ _ _ _ _ E).
      apply publishLoop_length in E. destruct err; exact E.
    + rewrite (bind_Panicked _ _ _ _ _ _ E).
      apply publishLoop_length in E. exact E.
  - intros p r Hp.
    destruct (publish_frame rt job dbNews s p r Hp) as (r' & Hp' & Hsame & _).
    exists (models.PublicationID r'), (models.PublishedAt r').
    rewrite Hp'. f_equal. exact Hsame.
Qed.

(** The loop of [publish] stops at the first record that the publisher
    refuses. *)
Lemma publishLoop_failure (job : Job W) dbNews s n r text id e :
  EvPublish n r text id (Some e) ∈ events (publishLoop rt job dbNews s) ->
  result (publishLoop rt job dbNews s)
  = Done (Some ("[Job.publish][publisher.Publish]: " +:+ e))
  /\ exists before,
       events (publishLoop rt job dbNews s)
       = before ++ [EvPublish n r text id (Some e)]
       /\ Forall (fun ev => failureExit ev = None) before.
Proof.
  revert s. induction dbNews as [| n0 rest IH]; intros s; cbn [publishLoop].
  - cbn. intros H. inversion H.
  - destruct (publishOne rt job n0 s) as [[res1 s1] t1] eqn:E1.
    destruct (publishOne_cases _ _ _ _ _ _ E1)
      as [[-> ->] | [(r0 & id0 & now & _ & _ & -> & -> & _)
                    | (r0 & id0 & e0 & _ & _ & -> & -> & _)]].
    + destruct res1 as [[| e1] | why].
      * rewrite (bind_Done _ _ _ _ _ _ E1). cbn [app result events].
        apply IH.
      * rewrite (bind_Done _ _ _ _ _ _ E1). cbn. intros H. inversion H.
      * rewrite (bind_Panicked _ _ _ _ _ _ E1). cbn. intros H. inversion H.
    + rewrite (bind_Done _ _ _ _ _ _ E1). cbn [app result events].
      intros H. apply elem_of_cons in H as [[=] | H].
      destruct (IH s1 H) as (Hres & before & Hev & Hb).
      split; [exact Hres |].
      exists (EvPublish n0 r0 (formatNews job r0) id0 None :: before).
      split; [rewrite Hev; reflexivity |]. constructor; [reflexivity | exact Hb].
    + rewrite (bind_Done _ _ _ _ _ _ E1). cbn.
      intros H. apply elem_of_cons in H as [[= -> -> -> -> ->] | H];
        [| inversion H].
      split; [reflexivity |]. exists []. split; [reflexivity | constructor].
Qed.

(** X7. [publish] stops at the first refusal: when a call to the publisher
    answers with an error [e], that call is the last one of [publish], every
    call before it succeeded, and [publish] returns no record and the error
    [e], with the name of the stage before it. *)
Theorem X7_publish_stops_at_first_failure (job : Job W) (dbNews : list ptr)
    (s : St W) (n : ptr) (r : models.News) (text id : string) (e : error) :
  EvPublish n r text id (Some e) ∈ events (publish rt job dbNews s) ->
  result (publish rt job dbNews s)
  = Done ([], Some ("[Job.publish][publisher.Publish]: " +:+ e))
  /\ exists before,
       events (publish rt job dbNews s)
       = before ++ [EvPublish n r text id (Some e)]
       /\ Forall (fun ev => failureExit ev = None) before.
Proof.
  unfold publish.
  pose proof (publishLoop_failure job dbNews s n r text id e) as H.
  destruct (publishLoop rt job dbNews s) as [[[err | why] s1] t1] eqn:E;
    cbn [result events] in H.
  - rewrite (bind_Done _ _ _ _ _ _ E).
    destruct err as [e1 |]; cbn; rewrite app_nil_r; intros Hin;
      destruct (H Hin) as ([= ->] & Hrest); auto.
  - rewrite (bind_Panicked _ _ _ _ _ _ E). cbn. intros Hin.
    destruct (H Hin) as ([=] & _).
Qed.

(** The loop of [publish] leaves alone the records it does not range
    over. *)
Lemma publishLoop_outside (job : Job W) rest s res s' t n :
  n ∉ rest ->
  publishLoop rt job rest s = (res, s', t) ->
  heap s' !! n = heap s !! n
  /\ forall r text id err, EvPublish n r text id err ∉ t.
Proof.
  revert s res s' t. induction rest as [| n0 rest IH]; intros s res s' t Hn.
  - cbn. intros [= <- <- <-]. split; [reflexivity |].
    intros r text id err H. inversion H.
  - assert (n <> n0) as Hne by (intros ->; apply Hn; left).
    assert (n ∉ rest) as Hn' by (intros H; apply Hn; right; exact H).
    cbn [publishLoop]. intros H. apply bind_inv in H.
    destruct H as [(why & H & ->) | (st & s1 & t1 & t2 & H1 & H2 & ->)].
    + destruct (publishOne_cases _ _ _ _ _ _ H)
        as [[-> ->] | [(r & id & now & _ & _ & _ & [=] & _)
                      | (r & id & e & _ & _ & _ & [=] & _)]].
      split; [reflexivity |]. intros r text id err Hin. inversion Hin.
    + assert (heap s1 !! n = heap s !! n
              /\ forall r text id err, EvPublish n r text id err ∉ t1) as [Hh1 Ht1].
      { destruct (publishOne_cases _ _ _ _ _ _ H1)
          as [[-> ->] | [(r & id & now & _ & _ & -> & _ & ->)
                        | (r & id & e & _ & _ & -> & _ & ->)]].
        - split; [reflexivity |]. intros r text id err Hin. inversion Hin.
        - split; [apply list_lookup_insert_ne; congruence |].
          intros r' text id' err Hin.
          apply list_elem_of_singleton in Hin. congruence.
        - split; [reflexivity |].
          intros r' text id' err Hin.
          apply list_elem_of_singleton in Hin. congruence. }
      destruct st as [| e].
      * destruct (IH _ _ _ _ Hn' H2) as [Hh2 Ht2].
        split; [congruence |].
        intros r text id err Hin. apply elem_of_app in Hin as [Hin | Hin].
        -- exact (Ht1 _ _ _ _ Hin).
        -- exact (Ht2 _ _ _ _ Hin).
      * cbn in H2. injection H2 as <- <- <-. split; [exact Hh1 |].
        rewrite app_nil_r. exact Ht1.
Qed.

Lemma publishLoop_marks (job : Job W) dbNews s s' t :
  NoDup dbNews ->
  publishLoop rt job dbNews s = (Done None, s', t) ->
  forall n r,
    n ∈ dbNews -> heap s !! n = Some r ->
    (exists id now,
        EvPublish n r (formatNews job r) id None ∈ t
        /\ heap s' !! n = Some (models.set_publication id now r))
    \/ ((forall r0 text id err, EvPublish n r0 text id err ∉ t)
        /\ heap s' !! n = Some r).
Proof.
  intros Hnd. revert s s' t.
  induction Hnd as [| n0 rest Hn0 Hnd IH]; intros s s' t H n r Hin Hr.
  - inversion Hin.
  - cbn [publishLoop] in H. apply bind_inv in H.
    destruct H as [(why & _ & [=]) | (st & s1 & t1 & t2 & H1 & H2 & ->)].
    destruct st as [| e]; [| cbn in H2; discriminate].
    destruct (publishLoop_outside job rest s1 _ _ _ n0 Hn0 H2) as [Hout Hnone].
    apply elem_of_cons in Hin as [-> | Hin].
    + (* the record of this turn *)
      destruct (publishOne_cases _ _ _ _ _ _ H1)
        as [[-> ->] | [(r0 & id & now & Hr0 & _ & -> & _ & Hh)
                      | (r0 & id & e & _ & _ & _ & [=] & _)]].
      * right. split; [exact Hnone | congruence].
      * assert (r0 = r) as -> by congruence.
        left. exists id, now. split; [left |].
        rewrite Hout, Hh. apply list_lookup_insert_eq.
        eapply lookup_lt_Some. exact Hr.
    + (* a record of a later turn *)
      assert (n <> n0) as Hne by (intros ->; contradiction).
      assert (heap s1 !! n = Some r
              /\ forall r0 text id err, EvPublish n r0 text id err ∉ t1) as [Hr1 Ht1].
      { destruct (publishOne_cases _ _ _ _ _ _ H1)
          as [[-> ->] | [(r0 & id & now & _ & _ & -> & _ & ->)
                        | (r0 & id & e & _ & _ & -> & _ & ->)]].
        - split; [exact Hr |]. intros r0 text id err Hx. inversion Hx.
        - split; [rewrite list_lookup_insert_ne by congruence; exact Hr |].
          intros r' text id' err Hx.
          apply list_elem_of_singleton in Hx. congruence.
        - split; [exact Hr |].
          intros r' text id' err Hx.
          apply list_elem_of_singleton in Hx. congruence. }
      destruct (IH _ _ _ H2 n r Hin Hr1) as [(id & now & Hev & Hh) | [Hno Hh]].
      * left. exists id, now. split; [| exact Hh].
        apply elem_of_app. right. exact Hev.
      * right. split; [| exact Hh].
        intros r0 text id err Hx. apply elem_of_app in Hx as [Hx | Hx].
        -- exact (Ht1 _ _ _ _ Hx).
        -- exact (Hno _ _ _ _ Hx).
Qed.

(** X8. What a successful [publish] leaves on the records.  Over pointers
    to distinct records, when [publish] returns no error it returns the
    pointers it was given, and each record either went to the publisher
    with its formatted text, and now carries the id that the publisher gave
    for it, or went nowhere and is as it was. *)
Theorem X8_publish_marks_what_it_published (job : Job W) (dbNews d : list ptr)
    (s s' : St W) (t : list Event) :
  NoDup dbNews ->
  publish rt job dbNews s = (Done (d, None), s', t) ->
  d = dbNews
  /\ forall n r,
       n ∈ dbNews -> heap s !! n = Some r ->
       (exists id now,
           EvPublish n r (formatNews job r) id None ∈ t
           /\ heap s' !! n = Some (models.set_publication id now r))
       \/ ((forall r0 text id err, EvPublish n r0 text id err ∉ t)
           /\ heap s' !! n = Some r).
Proof.
  intros Hnd H. unfold publish in H. apply bind_inv in H.
  destruct H as [(why & _ & [=]) | (err & s1 & t1 & t2 & H1 & H2 & ->)].
  destruct err as [e |]; cbn in H2; [discriminate |].
  injection H2 as <- <- <-. split; [reflexivity |].
  rewrite app_nil_r. eapply publishLoop_marks; eassumption.
Qed.

(** *** The update stage *)

Lemma updateCalls_update n r err t :
  updateCalls (EvUpdate n r err :: t) = (r, err) :: updateCalls t.
Proof. reflexivity. Qed.

Lemma updateAll_calls (job : Job W) ps recs s res s' t :
  NoDup ps ->
  Forall2 (fun p r => heap s !! p = Some r) ps recs ->
  updateAll job ps s = (res, s', t) ->
  (res = Done None /\ updateCalls t = allCreated recs)
  \/ (exists k r e0,
         recs !! k = Some r
         /\ res = Done (Some ("[Job.updateNews][News.Update]: " +:+ e0))
         /\ updateCalls t = failedAt k r e0 recs).
Proof.
  intros Hnd. revert recs s res s' t.
  induction Hnd as [| n rest Hn Hnd IH]; intros recs s res s' t Hheap.
  - inversion Hheap; subst. cbn. intros [= <- <- <-]. left. auto.
  - inversion Hheap as [| ? r ? recs' Hr Hrest]; subst.
    cbn [updateAll]. rewrite (bind_load _ _ _ _ Hr).
    destruct (Update (app_archivist (app job)) r (world s)) as [[r' err] w] eqn:Ec.
    rewrite (bind_call _ _ _ _ _ Ec). cbn beta iota.
    rewrite (bind_store _ _ r) by exact Hr. rewrite bind_emit.
    set (s2 := {| world := world {| world := w; heap := heap s |};
                  heap := <[n := r']> (heap {| world := w; heap := heap s |}) |}).
    destruct err as [e0 |].
    + cbn. intros [= <- <- <-]. right. exists 0, r, e0. auto.
    + destruct (updateAll job rest s2) as [[res2 s3] t2] eqn:Erest.
      cbn [result final events]. intros [= <- <- <-].
      assert (Forall2 (fun p r => heap s2 !! p = Some r) rest recs') as Hheap2.
      { eapply Forall2_impl_elem; [exact Hrest |].
        intros p x Hin Hp. subst s2. cbn.
        rewrite list_lookup_insert_ne; [exact Hp |].
        intros ->. contradiction. }
      destruct (IH _ _ _ _ _ Hheap2 Erest) as [[-> Hc] | (k & x & e0 & Hk & -> & Hc)].
      * left. split; [reflexivity |].
        rewrite updateCalls_update, Hc. reflexivity.
      * right. exists (S k), x, e0. split; [exact Hk |]. split; [reflexivity |].
        rewrite updateCalls_update, Hc. reflexivity.
Qed.

(** X9. [updateNews] writes the records back in order.  Without
    [shouldSaveToDB] it does nothing.  With it, over pointers to distinct
    records, it hands the records to [Update] one by one in the order of the
    pointers, each as it is on the heap when [updateNews] starts: either all
    of them, every call succeeding, and it returns no error; or up to the
    first one whose call fails, which is the last call, and it returns that
    error with the name of the stage before it. *)
Theorem X9_updateNews_updates_in_order (job : Job W) (dbNews : list ptr)
    (recs : list models.News) (s : St W) :
  (shouldSaveToDB job = false ->
   updateNews job dbNews s = (Done None, s, []))
  /\ (shouldSaveToDB job = true ->
      NoDup dbNews ->
      Forall2 (fun p r => heap s !! p = Some r) dbNews recs ->
      (result (updateNews job dbNews s) = Done None
       /\ updateCalls (events (updateNews job dbNews s))
          = map (fun r => (r, None)) recs)
      \/ (exists k r e,
             recs !! k = Some r
             /\ result (updateNews job dbNews s)
                = Done (Some ("[Job.updateNews][News.Update]: " +:+ e))
             /\ updateCalls (events (updateNews job dbNews s))
                = map (fun r => (r, None)) (take k recs) ++ [(r, Some e)])).
Proof.
  split.
  - intros Hs. unfold updateNews. rewrite Hs. reflexivity.
  - intros Hs Hnd Hheap. unfold updateNews. rewrite Hs. cbn [negb].
    destruct (updateAll job dbNews s) as [[res s'] t] eqn:E.
    exact (updateAll_calls _ _ _ _ _ _ _ Hnd Hheap E).
Qed.

(** *** More on the persist stage *)

Lemma createAll_outside (job : Job W) dbNews s p :
  p ∉ dbNews ->
  heap (final (createAll job dbNews s)) !! p = heap s !! p.
Proof.
  revert s. induction dbNews as [| n rest IH]; intros s Hp; cbn [createAll].
  - reflexivity.
  - assert (p <> n) as Hne by (intros ->; apply Hp; left).
    assert (p ∉ rest) as Hp' by (intros H; apply Hp; right; exact H).
    destruct (heap s !! n) as [r |] eqn:Hn.
    2:{ rewrite (bind_load_nil _ _ _ Hn). reflexivity. }
    rewrite (bind_load _ _ _ _ Hn).
    destruct (Create (app_archivist (app job)) r (world s)) as [[r' err] w] eqn:Ec.
    rewrite (bind_call _ _ _ _ _ Ec). cbn beta iota.
    rewrite (bind_store _ _ r) by exact Hn. rewrite bind_emit.
    cbn [final]. destruct err as [e |].
    + cbn. apply list_lookup_insert_ne. congruence.
    + rewrite (IH _ Hp'). cbn. apply list_lookup_insert_ne. congruence.
Qed.

Lemma saveNews_pointers (job : Job W) (data : JobData) (s : St W) d :
  result (saveNews rt job data s) = Done (d, None) ->
  NoDup d
  /\ Forall (fun p => heap s !! p = None) d
  /\ (shouldSaveToDB job = false -> d = []).
Proof.
  intros Hd. destruct (shouldSaveToDB job) eqn:Hs.
  - destruct (saveNews_cases rt job data s Hs)
      as [[_ [e He]] | (recs & _ & [[Hres _] | (k & r & e0 & _ & Hres & _)])];
      rewrite Hd in *; try discriminate.
    injection Hres as ->. split; [apply NoDup_seq |]. split; [| discriminate].
    apply Forall_forall. intros p Hin. apply elem_of_seq in Hin.
    apply lookup_ge_None. lia.
  - unfold saveNews in Hd. rewrite Hs in Hd. cbn in Hd.
    injection Hd as <-. repeat split; constructor.
Qed.

(** X10. [saveNews] works on records of its own.  Whatever it returns, the
    records that were on the heap before are as they were.  The pointers
    that it returns with no error are distinct, and point to records that
    were not there before. *)
Theorem X10_saveNews_allocates_its_records (job : Job W) (data : JobData)
    (s : St W) :
  (forall p r,
      heap s !! p = Some r ->
      heap (final (saveNews rt job data s)) !! p = Some r)
  /\ (forall d,
        result (saveNews rt job data s) = Done (d, None) ->
        NoDup d /\ Forall (fun p => heap s !! p = None) d).
Proof.
  split.
  - intros p r Hp. unfold saveNews.
    destruct (negb (shouldSaveToDB job)); [exact Hp |].
    destruct (length (News data) <? length (ComposedNews data))%nat; [exact Hp |].
    destruct (buildDBNews rt job (mapComposedNews (ComposedNews data)) (News data) s)
      as [[res1 s1] t1] eqn:Eb.
    destruct (buildDBNews_spec _ _ _ _ _ _ _ _ Eb)
      as (-> & Hw & ps & err & recs & -> & Hh & Hok).
    assert (heap s1 !! p = Some r) as Hp1.
    { rewrite Hh. apply lookup_app_l_Some. exact Hp. }
    rewrite (bind_Done _ _ _ _ _ _ Eb). cbn beta iota.
    destruct err as [e |]; [exact Hp1 |].
    destruct (Hok eq_refl) as [-> _].
    pose proof (createAll_outside job (seq (length (heap s)) (length (News data))) s1 p)
      as Hout.
    destruct (createAll job (seq (length (heap s)) (length (News data))) s1)
      as [[[err | why] s2] t2] eqn:Ec; cbn [final] in Hout.
    + rewrite (bind_Done _ _ _ _ _ _ Ec). cbn [final].
      assert (heap s2 !! p = Some r) as Hp2.
      { rewrite Hout; [exact Hp1 |].
        intros Hin. apply elem_of_seq in Hin. apply lookup_lt_Some in Hp. lia. }
      destruct err; exact Hp2.
    + rewrite (bind_Panicked _ _ _ _ _ _ Ec). cbn [final].
      rewrite Hout; [exact Hp1 |].
      intros Hin. apply elem_of_seq in Hin. apply lookup_lt_Some in Hp. lia.
  - intros d Hd. destruct (saveNews_pointers job data s d Hd) as (Hnd & Hnew & _).
    split; assumption.
Qed.

(** *** More on [Compose] *)

(** [Compose] after its filter, which calls nobody and does not fail. *)
Lemma Compose_after_filter (c : composer.Composer W) news s :
  exists today,
    sublist today news
    /\ result (filterToday rt news s) = Done today
    /\ Compose rt c news s
       = (let k := fun todayNews : journalist.NewsList =>
                     if (length todayNews =? 0)%nat then ret ([], None)
                     else
                       let '(jsonNews, err) := ToContentJSON rt todayNews in
                       match err with
                       | Some e =>
                           ret ([], Some ("[Compose] error in NewsList.ToContentJSON: " +:+ e))
                       | None =>
                           let req := composeRequest c jsonNews in
                           do '(resp, err) <- call (composer.CreateChatCompletion c req);
                           run emit (EvChatCompletion req resp err);
                           match err with
                           | Some e =>
                               ret ([], Some ("[Compose] error in OpenAiClient.CreateChatCompletion: " +:+ e))
                           | None =>
                               match Choices resp with
                               | [] => panic "index out of range [0] with length 0"
                               | choice :: _ =>
                                   let '(fullComposedNews, err) :=
                                     json_Unmarshal_ComposedNews rt (Content choice) in
                                   match err with
                                   | Some e =>
                                       ret ([], Some ("[Compose] error in json.Unmarshal: " +:+ e
                                                      +:+ " for object: " +:+ Content choice))
                                   | None => ret (fullComposedNews, None)
                                   end
                               end
                           end
                       end in
          k today (final (filterToday rt news s))).
Proof.
  destruct (filterToday_silent news s) as (Hev & _ & today & Hres & Hsub).
  exists today. split; [exact Hsub |]. split; [exact Hres |].
  unfold Compose. cbv zeta.
  destruct (filterToday rt news s) as [[res s1] t1] eqn:Ef.
  cbn [result final events] in *. subst res t1.
  rewrite (bind_Done _ _ _ _ _ _ Ef). cbn [app]. symmetry. apply out_eta.
Qed.

(** X11. [Compose] calls the OpenAI client at most once, and only for news
    it was given: its trace is empty, or it is one call.  The request of
    that call names the model "gpt-3.5-turbo-1106", has two messages, the
    prompt of the configuration from the system and, from the user, the JSON
    of a non-empty selection of the news, in their order, and asks for
    temperature 1, at most 2048 tokens, top-p 1 and no penalties. *)
Theorem X11_Compose_calls_the_client_at_most_once (c : composer.Composer W)
    (news : journalist.NewsList) (s : St W) :
  events (Compose rt c news s) = []
  \/ exists today json resp err,
       sublist today news /\ today <> []
       /\ ToContentJSON rt today = (json, None)
       /\ events (Compose rt c news s)
          = [EvChatCompletion
               {| Model := "gpt-3.5-turbo-1106";
                 Messages :=
                   [ {| Role := "system";
                        Content := composer.ComposePrompt (composer.Config_ c) |};
                     {| Role := "user"; Content := json |} ];
                 Temperature := 1;
                 MaxTokens := 2048;
                 TopP := 1;
                 FrequencyPenalty := 0;
                 PresencePenalty := 0 |}
               resp err].
Proof.
  destruct (Compose_after_filter c news s) as (today & Hsub & _ & ->). cbv zeta.
  set (s1 := final (filterToday rt news s)).
  destruct today as [| n today]; [left; reflexivity |].
  cbn [length Nat.eqb].
  destruct (ToContentJSON rt (n :: today)) as [json [e |]] eqn:Ej;
    [left; reflexivity |].
  right. exists (n :: today), json.
  destruct (composer.CreateChatCompletion c (composeRequest c json) (world s1))
    as [[resp err] w] eqn:Ec.
  exists resp, err. split; [exact Hsub |]. split; [discriminate |].
  split; [exact Ej |].
  rewrite (bind_call _ _ _ _ _ Ec). cbn beta iota. rewrite bind_emit.
  destruct err as [e |]; [reflexivity |].
  destruct (Choices resp) as [| choice rest]; [reflexivity |].
  destruct (json_Unmarshal_ComposedNews rt (Content choice)) as [full [e |]];
    reflexivity.
Qed.

(** X12. [Compose] indexes the choices of the answer without looking at
    their number: when the filter keeps some news, their JSON is built and
    the client answers without error but with no choice, [Compose]
    panics. *)
Theorem X12_Compose_panics_without_choices (c : composer.Composer W)
    (news today : journalist.NewsList) (s : St W) (json : string)
    (resp : ChatCompletionResponse) (w : W) :
  result (filterToday rt news s) = Done today ->
  today <> [] ->
  ToContentJSON rt today = (json, None) ->
  composer.CreateChatCompletion c (composeRequest c json)
    (world (final (filterToday rt news s))) = ((resp, None), w) ->
  Choices resp = [] ->
  result (Compose rt c news s) = Panicked "index out of range [0] with length 0".
Proof.
  intros Hres Hne Hj Hc Hch.
  destruct (Compose_after_filter c news s) as (today' & _ & Hres' & ->). cbv zeta.
  assert (today' = today) as -> by congruence.
  destruct today as [| n today]; [contradiction |]. cbn [length Nat.eqb].
  rewrite Hj. rewrite (bind_call _ _ _ _ _ Hc). cbn beta iota.
  rewrite bind_emit, Hch. reflexivity.
Qed.

(** X13. What [Compose] selects.  Under a clock that stands still, the news
    that [Compose] sends to the OpenAI client are those whose day of the
    month is the day of the month of the clock, whatever their month and
    year: with none of them it returns no composed news and no error and
    calls nobody, and otherwise it makes one request, whose message from
    the user is the JSON of exactly these news (beside the model, the prompt
    of the configuration and the sampling parameters). *)
Theorem X13_Compose_selects_by_day_of_month (c : composer.Composer W)
    (news : journalist.NewsList) (s : St W) (now : time.Time) :
  (forall w, time_Now rt w = (now, w)) ->
  (List.filter (fun n => (time.Day (journalist.Date n) =? time.Day now)%Z) news = [] ->
   Compose rt c news s = (Done ([], None), s, []))
  /\ (forall json,
        List.filter (fun n => (time.Day (journalist.Date n) =? time.Day now)%Z) news
          <> [] ->
        ToContentJSON rt
          (List.filter (fun n => (time.Day (journalist.Date n) =? time.Day now)%Z) news)
          = (json, None) ->
        exists resp err,
          events (Compose rt c news s)
          = [EvChatCompletion
               {| Model := "gpt-3.5-turbo-1106";
                 Messages :=
                   [ {| Role := "system";
                        Content := composer.ComposePrompt (composer.Config_ c) |};
                     {| Role := "user"; Content := json |} ];
                 Temperature := 1;
                 MaxTokens := 2048;
                 TopP := 1;
                 FrequencyPenalty := 0;
                 PresencePenalty := 0 |}
               resp err]).
Proof.
  intros Hclock. pose proof (filterToday_steady rt now news s Hclock) as Hf.
  split.
  - intros Hnil. rewrite Hnil in Hf. apply Compose_nothing_today. exact Hf.
  - intros json Hne Hj.
    destruct (Compose_after_filter c news s) as (today & _ & Hres & ->). cbv zeta.
    rewrite Hf in *. cbn [result final] in *. injection Hres as <-.
    destruct (List.filter _ news) as [| n today]; [contradiction |].
    cbn [length Nat.eqb]. rewrite Hj.
    destruct (composer.CreateChatCompletion c (composeRequest c json) (world s))
      as [[resp err] w] eqn:Ec.
    exists resp, err.
    rewrite (bind_call _ _ _ _ _ Ec). cbn beta iota. rewrite bind_emit.
    destruct err as [e |]; [reflexivity |].
    destruct (Choices resp) as [| choice rest]; [reflexivity |].
    destruct (json_Unmarshal_ComposedNews rt (Content choice)) as [full [e |]];
      reflexivity.
Qed.

(** X14. What [Compose] returns.  When the filter keeps some news: a
    failure to build their JSON comes back as the error of [Compose], and
    the client is not called; an error of the client comes back as the
    error of [Compose]; otherwise only the first choice of the answer is
    read, and [Compose] returns the composed news it decodes to, or the
    error of the decoder together with the text that did not decode.  In
    the three cases of error no composed news is returned, and the message
    starts with the place of the error. *)
Theorem X14_Compose_returns_first_choice_or_error (c : composer.Composer W)
    (news today : journalist.NewsList) (s : St W) (json : string) :
  result (filterToday rt news s) = Done today ->
  today <> [] ->
  (forall e,
      ToContentJSON rt today = (json, Some e) ->
      Compose rt c news s
      = (Done ([], Some ("[Compose] error in NewsList.ToContentJSON: " +:+ e)),
         final (filterToday rt news s), []))
  /\ (forall resp e w,
        ToContentJSON rt today = (json, None) ->
        composer.CreateChatCompletion c (composeRequest c json)
          (world (final (filterToday rt news s))) = ((resp, Some e), w) ->
        result (Compose rt c news s)
        = Done ([], Some ("[Compose] error in OpenAiClient.CreateChatCompletion: " +:+ e)))
  /\ (forall resp w choice rest full err,
        ToContentJSON rt today = (json, None) ->
        composer.CreateChatCompletion c (composeRequest c json)
          (world (final (filterToday rt news s))) = ((resp, None), w) ->
        Choices resp = choice :: rest ->
        json_Unmarshal_ComposedNews rt (Content choice) = (full, err) ->
        result (Compose rt c news s)
        = match err with
          | Some e =>
              Done ([], Some ("[Compose] error in json.Unmarshal: " +:+ e
                              +:+ " for object: " +:+ Content choice))
          | None => Done (full, None)
          end).
Proof.
  intros Hres Hne.
  destruct (Compose_after_filter c news s) as (today' & _ & Hres' & ->). cbv zeta.
  assert (today' = today) as -> by congruence.
  destruct today as [| n today]; [contradiction |]. cbn [length Nat.eqb].
  split; [| split].
  - intros e Hj. rewrite Hj. reflexivity.
  - intros resp e w Hj Hc. rewrite Hj.
    rewrite (bind_call _ _ _ _ _ Hc). cbn beta iota. rewrite bind_emit. reflexivity.
  - intros resp w choice rest full err Hj Hc Hch Hdec. rewrite Hj.
    rewrite (bind_call _ _ _ _ _ Hc). cbn beta iota.
    rewrite bind_emit, Hch, Hdec. destruct err; reflexivity.
Qed.

(** *** The map of the composed news *)

Lemma findComposed_app id l1 l2 :
  findComposed id (l1 ++ l2)
  = match findComposed id l2 with
    | Some c => Some c
    | None => findComposed id l1
    end.
Proof.
  induction l1 as [| c l1 IH].
  - rewrite app_nil_l. destruct (findComposed id l2); reflexivity.
  - rewrite <- app_comm_cons. cbn [findComposed]. rewrite IH.
    destruct (findComposed id l2); reflexivity.
Qed.

Lemma findComposed_None_iff id composed :
  findComposed id composed = None
  <-> forall c, c ∈ composed -> composer.ID c <> id.
Proof.
  split; [apply findComposed_None |].
  intros Hall. destruct (findComposed id composed) as [c |] eqn:E; [| reflexivity].
  apply findComposed_Some in E as [Hin Hid]. exfalso. exact (Hall c Hin Hid).
Qed.

(** X15. The map that [saveNews] builds of the composed news: looking up
    an id gives a composed news of the list with that id, and the last one
    when several have it; it gives nothing exactly when no composed news has
    the id. *)
Theorem X15_mapComposedNews_keeps_the_last_of_an_id
    (composed : list composer.ComposedNews) (id : string) :
  (forall c, mapComposedNews composed !! id = Some c ->
             c ∈ composed /\ composer.ID c = id)
  /\ (mapComposedNews composed !! id = None
      <-> forall c, c ∈ composed -> composer.ID c <> id)
  /\ (forall l1 c l2,
        composed = l1 ++ c :: l2 ->
        composer.ID c = id ->
        (forall c', c' ∈ l2 -> composer.ID c' <> id) ->
        mapComposedNews composed !! id = Some c).
Proof.
  rewrite mapComposedNews_lookup. split; [| split].
  - intros c. apply findComposed_Some.
  - apply findComposed_None_iff.
  - intros l1 c l2 -> Hid Hl2. rewrite findComposed_app.
    cbn [findComposed]. rewrite (proj2 (findComposed_None_iff id l2) Hl2).
    rewrite (proj2 (String.eqb_eq _ _) Hid). reflexivity.
Qed.

(** *** From the publisher back to the database *)

(** A record that the loop of [publish] handed to the publisher with
    success carries the id it got when the loop ends, however it ends. *)
Lemma publishLoop_published (job : Job W) dbNews s res s' t n r text id :
  NoDup dbNews ->
  publishLoop rt job dbNews s = (res, s', t) ->
  EvPublish n r text id None ∈ t ->
  n ∈ dbNews
  /\ exists now, heap s' !! n = Some (models.set_publication id now r).
Proof.
  intros Hnd. revert s res s' t.
  induction Hnd as [| n0 rest Hn0 Hnd IH]; intros s res s' t H Hin.
  - cbn in H. injection H as <- <- <-. inversion Hin.
  - cbn [publishLoop] in H. apply bind_inv in H.
    destruct H as [(why & H & ->) | (st & s1 & t1 & t2 & H1 & H2 & ->)].
    + destruct (publishOne_cases _ _ _ _ _ _ H)
        as [[-> ->] | [(r0 & id0 & now & _ & _ & _ & [=] & _)
                      | (r0 & id0 & e & _ & _ & _ & [=] & _)]].
      inversion Hin.
    + apply elem_of_app in Hin as [Hin | Hin].
      * (* published in this turn *)
        destruct (publishOne_cases _ _ _ _ _ _ H1)
          as [[-> ->] | [(r0 & id0 & now & Hr0 & _ & -> & [= ->] & Hh)
                        | (r0 & id0 & e & _ & _ & -> & _ & _)]].
        -- inversion Hin.
        -- apply list_elem_of_singleton in Hin. injection Hin as -> -> _ ->.
           split; [left |]. exists now.
           cbn in H2.
           destruct (publishLoop_outside job rest s1 _ _ _ n0 Hn0 H2) as [Hout _].
           rewrite Hout, Hh. apply list_lookup_insert_eq.
           eapply lookup_lt_Some. exact Hr0.
        -- apply list_elem_of_singleton in Hin. discriminate.
      * (* published in a later turn *)
        destruct st as [| e]; [| cbn in H2; injection H2 as <- <- <-; inversion Hin].
        destruct (IH _ _ _ _ H2 Hin) as [Hn Hh].
        split; [right; exact Hn | exact Hh].
Qed.

(** When every [Update] succeeds, every record went to [Update] as it was
    on the heap before. *)
Lemma updateAll_all (job : Job W) dbNews s s' t n r :
  NoDup dbNews ->
  updateAll job dbNews s = (Done None, s', t) ->
  n ∈ dbNews ->
  heap s !! n = Some r ->
  EvUpdate n r None ∈ t.
Proof.
  intros Hnd. revert s s' t.
  induction Hnd as [| n0 rest Hn0 Hnd IH]; intros s s' t H Hin Hr.
  - inversion Hin.
  - cbn [updateAll] in H.
    destruct (heap s !! n0) as [r0 |] eqn:Hr0.
    2:{ rewrite (bind_load_nil _ _ _ Hr0) in H. discriminate. }
    rewrite (bind_load _ _ _ _ Hr0) in H.
    destruct (Update (app_archivist (app job)) r0 (world s)) as [[r' err] w] eqn:Ec.
    rewrite (bind_call _ _ _ _ _ Ec) in H. cbn beta iota in H.
    rewrite (bind_store _ _ r0) in H by exact Hr0. rewrite bind_emit in H.
    destruct err as [e0 |]; [cbn in H; discriminate |].
    match type of H with
    | context [updateAll job rest ?S] =>
        destruct (updateAll job rest S) as [[res2 s3] t2] eqn:Erest
    end.
    cbn [result final events] in H. injection H as -> <- <-.
    apply elem_of_cons in Hin as [-> | Hin].
    + assert (r0 = r) as -> by congruence. left.
    + right. eapply IH; [exact Erest | exact Hin |].
      cbn. rewrite list_lookup_insert_ne; [exact Hr |].
      intros ->. contradiction.
Qed.

Lemma writesBack_bind_at {A} (m : M W A) (k : A -> M W RunExit) s :
  Forall (fun e => isPublish e = false) (events (m s)) ->
  (forall a s1 t1, m s = (Done a, s1, t1) -> writesBack (k a s1)) ->
  writesBack (bind m k s).
Proof.
  intros Hev Hk. destruct (m s) as [[[a | why] s1] t1] eqn:Em; cbn [events] in Hev.
  - rewrite (bind_Done _ _ _ _ _ _ Em). specialize (Hk a s1 t1 eq_refl).
    unfold writesBack in *. cbn [result events] in *.
    intros Hres n r text id Hin. apply elem_of_app in Hin as [Hin | Hin].
    + rewrite Forall_forall in Hev. apply Hev in Hin. discriminate.
    + destruct (Hk Hres n r text id Hin) as [now Hup].
      exists now. apply elem_of_app. right. exact Hup.
  - rewrite (bind_Panicked _ _ _ _ _ _ Em). intros [=].
Qed.

Lemma writesBack_bind {A} (m : M W A) (k : A -> M W RunExit) s :
  holds m (fun _ => True) (fun e => isPublish e = false) ->
  (forall a s1, writesBack (k a s1)) ->
  writesBack (bind m k s).
Proof.
  intros Hm Hk. apply writesBack_bind_at.
  - exact (holds_events m _ _ s Hm).
  - intros a s1 _ _. apply Hk.
Qed.

Lemma writesBack_exit (x : RunExit) (o : Res RunExit * St W * list Event) :
  result o = Done x -> x <> Finished -> writesBack o.
Proof. intros Hx Hne Hres. congruence. Qed.

Lemma writesBack_ret (x : RunExit) (s : St W) : writesBack (ret x s).
Proof. intros _ n r text id Hin. inversion Hin. Qed.

Lemma Run_writesBack (job : Job W) (s : St W) : writesBack (Run rt job s).
Proof.
  assert (forall lvl stage e,
             holds (report job lvl stage e) (fun _ => True)
               (fun e => isPublish e = false)) as Hrep.
  { intros. apply report_holds; reflexivity. }
  assert (forall msg c,
             holds (@breadcrumb W msg c) (fun _ => True)
               (fun e => isPublish e = false)) as Hbc.
  { intros. apply breadcrumb_holds. reflexivity. }
  unfold Run.
  apply writesBack_bind; [holds_step; exact I |]. intros [news ferr] s1.
  apply writesBack_bind; [apply holds_emit; [reflexivity | exact I] |]. intros _ s2.
  apply writesBack_bind.
  { destruct ferr; [apply Hrep | apply holds_ret; exact I]. }
  intros _ s3.
  apply writesBack_bind; [apply Hbc |]. intros _ s4.
  destruct (length news =? 0)%nat; [apply writesBack_ret |].
  apply writesBack_bind; [apply removeDuplicates_holds; reflexivity |].
  intros [uniqueNews [e |]] s5.
  { apply writesBack_bind; [apply Hrep |]. intros _ s6. apply writesBack_ret. }
  apply writesBack_bind; [apply Hbc |]. intros _ s6.
  destruct (length uniqueNews =? 0)%nat; [apply writesBack_ret |].
  apply writesBack_bind; [apply composeNews_holds; reflexivity |].
  intros [composedNews [e |]] s7.
  { apply writesBack_bind; [apply Hrep |]. intros _ s8. apply writesBack_ret. }
  apply writesBack_bind; [apply Hbc |]. intros _ s8.
  (* the persist stage hands over distinct pointers *)
  apply writesBack_bind_at.
  { apply (holds_events _ (fun _ => True)). apply saveNews_holds. reflexivity. }
  intros [dbNews [e |]] s9 t9 Es.
  { apply writesBack_bind; [apply Hrep |]. intros _ s10. apply writesBack_ret. }
  assert (result (saveNews rt job (mkJobData uniqueNews composedNews []) s8)
          = Done (dbNews, None)) as Hres by (rewrite Es; reflexivity).
  destruct (saveNews_pointers _ _ _ _ Hres) as (Hnd & _ & Hoff).
  apply writesBack_bind; [apply Hbc |]. intros _ s10.
  (* the publish stage *)
  destruct (publish rt job dbNews s10) as [[resP s11] tP] eqn:Ep.
  pose proof Ep as Ep'. unfold publish in Ep'. apply bind_inv in Ep'.
  destruct Ep' as [(why & _ & ->) | (perr & sL & tL & t2 & HL & Hk & ->)].
  { rewrite (bind_Panicked _ _ _ _ _ _ Ep). intros [=]. }
  destruct perr as [e |]; cbn in Hk; injection Hk as <- <- <-.
  { rewrite (bind_Done _ _ _ _ _ _ Ep). cbn beta iota.
    apply (writesBack_exit PublishFailed); [reflexivity | discriminate]. }
  rewrite app_nil_r in Ep.
  rewrite (bind_Done _ _ _ _ _ _ Ep). cbn beta iota.
  (* the update stage *)
  match goal with
  | |- writesBack (result (?K ?S), _, _) => destruct (K S) as [[rk sk] tk] eqn:Ek
  end.
  cbn [result final events].
  apply bind_inv in Ek.
  destruct Ek as [(why & Hb & _) | (u & sb & tb & t2 & Hb & Ek & ->)];
    [cbn in Hb; discriminate |].
  cbn in Hb. injection Hb as <- <- <-.
  apply bind_inv in Ek.
  destruct Ek as [(why & _ & ->) | (uerr & s12 & tU & t3 & Eu & Ek & ->)];
    [intros [=] |].
  destruct uerr as [e |]; cbn in Ek; injection Ek as <- <- <-.
  { apply (writesBack_exit UpdateNewsFailed); [reflexivity | discriminate]. }
  unfold writesBack. cbn [result events].
  intros _ n r text id Hin.
  assert (EvPublish n r text id None ∈ tL) as HinL.
  { apply elem_of_app in Hin as [Hin | Hin]; [exact Hin |].
    apply elem_of_cons in Hin as [[=] | Hin].
    apply elem_of_app in Hin as [Hin | Hin].
    - pose proof (holds_events _ _ _ sL
                    (updateNews_holds job dbNews (fun e => isPublish e = false)
                       (fun _ _ _ => eq_refl))) as Hno.
      rewrite Eu in Hno. cbn [events] in Hno.
      rewrite Forall_forall in Hno. apply Hno in Hin. discriminate.
    - apply list_elem_of_singleton in Hin. discriminate. }
  destruct (publishLoop_published _ _ _ _ _ _ _ _ _ _ Hnd HL HinL) as [Hn [now Hh]].
  exists now. apply elem_of_app. right. right. apply elem_of_app. left.
  unfold updateNews in Eu. destruct (shouldSaveToDB job) eqn:Hs.
  - cbn [negb] in Eu. exact (updateAll_all _ _ _ _ _ _ _ Hnd Eu Hn Hh).
  - rewrite (Hoff eq_refl) in Hn. inversion Hn.
Qed.

(** X16. A run that reaches its end writes the publications back: every
    record that the publisher accepted during the run is handed to [Update]
    later in the run, as it was when it went to the publisher but for the id
    that the publisher gave for it and a time of publication, and that
    [Update] succeeds. *)
Theorem X16_finished_run_writes_publications_back (job : Job W) (s : St W)
    (n : ptr) (r : models.News) (text id : string) :
  result (Run rt job s) = Done Finished ->
  EvPublish n r text id None ∈ events (Run rt job s) ->
  exists now before after,
    events (Run rt job s)
    = before ++ EvUpdate n (models.set_publication id now r) None :: after
    /\ EvPublish n r text id None ∈ before.
Proof.
  intros Hres Hin.
  destruct (Run_writesBack job s Hres n r text id Hin) as [now Hup].
  apply list_elem_of_split in Hup as (before & after & Heq).
  exists now, before, after. split; [exact Heq |].
  rewrite Heq in Hin. apply elem_of_app in Hin as [Hin | Hin]; [exact Hin |].
  apply elem_of_cons in Hin as [[=] | Hin]. exfalso.
  destruct (Run_staged job s) as (_ & Hord & _).
  unfold stagesInOrder in Hord. rewrite Heq in Hord.
  change (before ++ EvUpdate n (models.set_publication id now r) None :: after)
    with (before ++ [EvUpdate n (models.set_publication id now r) None] ++ after)
    in Hord.
  rewrite app_assoc, omap_app in Hord.
  assert (5 <= 4) as Hle; [| lia].
  eapply (StronglySorted_app_1_elem_of _ _ _ 5 4 Hord).
  - apply list_elem_of_omap.
    exists (EvUpdate n (models.set_publication id now r) None).
    split; [| reflexivity]. apply elem_of_app. right. left.
  - apply list_elem_of_omap. exists (EvPublish n r text id None).
    split; [exact Hin | reflexivity].
Qed.

(** *** A run without persistence *)

Lemma Run_dry (job : Job W) :
  shouldSaveToDB job = false ->
  holds (Run rt job)
    (fun x => x = NoNews \/ x = ComposeNewsFailed \/ x = Finished)
    (fun e => callStage e = None \/ callStage e = Some 0 \/ callStage e = Some 2).
Proof.
  intros Hs.
  set (P := fun e => callStage e = None \/ callStage e = Some 0 \/ callStage e = Some 2).
  assert (forall lvl stage e, holds (report job lvl stage e) (fun _ => True) P) as Hrep.
  { intros. apply report_holds; intros; left; reflexivity. }
  assert (forall msg c, holds (@breadcrumb W msg c) (fun _ => True) P) as Hbc.
  { intros. apply breadcrumb_holds. left. reflexivity. }
  unfold Run.
  holds_step. destruct a as [news ferr].
  holds_step; [right; left; reflexivity |].
  eapply holds_bind with (Q := fun _ => True).
  { destruct ferr; [apply Hrep | holds_step; exact I]. }
  intros _ _.
  eapply holds_bind; [apply Hbc | intros _ _].
  holds_step; [holds_step; auto |].
  eapply holds_bind with (Q := fun out => out = (news, None)).
  { unfold removeDuplicates. rewrite Hs, orb_true_r. holds_step. reflexivity. }
  intros out ->.
  eapply holds_bind; [apply Hbc | intros _ _].
  (* [removeDuplicates] gave back the news of the fetch, which are some *)
  holds_step; [congruence |].
  eapply holds_bind.
  { apply composeNews_holds. intros. right. right. reflexivity. }
  intros [composedNews err] _.
  destruct err as [e |].
  { eapply holds_bind; [apply Hrep | intros _ _]. holds_step. auto. }
  eapply holds_bind; [apply Hbc | intros _ _].
  eapply holds_bind with (Q := fun out => out = ([], None)).
  { unfold saveNews. rewrite Hs. cbn [negb]. holds_step. reflexivity. }
  intros out ->.
  eapply holds_bind; [apply Hbc | intros _ _].
  eapply holds_bind with (Q := fun out => out = ([], None)).
  { unfold publish. cbn [publishLoop].
    eapply holds_bind with (Q := fun err => err = None);
      [holds_step; reflexivity | intros err ->].
    holds_step. reflexivity. }
  intros out ->.
  eapply holds_bind; [apply Hbc | intros _ _].
  eapply holds_bind with (Q := fun err => err = None).
  { unfold updateNews. rewrite Hs. cbn [negb]. holds_step. reflexivity. }
  intros err ->.
  eapply holds_bind; [apply Hbc | intros _ _].
  holds_step. auto.
Qed.

(** X17. Without [shouldSaveToDB] a run is a dry run: it calls the
    journalist and, at most, the OpenAI client, and neither the database nor
    the publisher; and it ends after an empty fetch, after a failure of
    [composeNews], or at the end of the closure (or it panics), since
    [removeDuplicates] gives back every news of the fetch. *)
Theorem X17_without_SaveToDB_only_fetch_and_compose (job : Job W) (s : St W) :
  shouldSaveToDB job = false ->
  Forall (fun e => callStage e = None \/ callStage e = Some 0 \/ callStage e = Some 2)
         (events (Run rt job s))
  /\ forall x,
       result (Run rt job s) = Done x ->
       x = NoNews \/ x = ComposeNewsFailed \/ x = Finished.
Proof.
  intros Hs. exact (Run_dry job Hs s).
Qed.
End Stages.

(** * The run, stage by stage *)

Section Paths.
Context {W : Type} (rt : Runtime W).

Lemma bind_Done_eq {A B} (m : M W A) (k : A -> M W B) s a s1 t1 r s' t :
  m s = (Done a, s1, t1) -> k a s1 = (r, s', t) ->
  bind m k s = (r, s', t1 ++ t).
Proof. intros Hm Hk. rewrite (bind_Done _ _ _ _ _ _ Hm), Hk. reflexivity. Qed.

(** The events of [bind m k] start with those of [m]; what follows is [k]
    on the value of [m], if there is one. *)
Lemma bind_prefix {A B} (m : M W A) (k : A -> M W B) s :
  exists tail,
    events (bind m k s) = events (m s) ++ tail
    /\ forall a s1 t1,
         m s = (Done a, s1, t1) ->
         tail = events (k a s1)
         /\ result (bind m k s) = result (k a s1)
         /\ final (bind m k s) = final (k a s1).
Proof.
  destruct (m s) as [[[a | why] s1] t1] eqn:Em.
  - rewrite (bind_Done _ _ _ _ _ _ Em). exists (events (k a s1)).
    split; [reflexivity |]. intros a' s1' t1' [= <- <- <-]. auto.
  - rewrite (bind_Panicked _ _ _ _ _ _ Em). exists [].
    split; [cbn; rewrite app_nil_r; reflexivity |]. intros a s1' t1' [=].
Qed.

Lemma events_bind_emit {B} e (k : unit -> M W B) s :
  events (bind (emit e) k s) = e :: events (k tt s).
Proof. rewrite bind_emit. reflexivity. Qed.

Lemma result_bind_emit {B} e (k : unit -> M W B) s :
  result (bind (emit e) k s) = result (k tt s).
Proof. rewrite bind_emit. reflexivity. Qed.

Lemma final_bind_emit {B} e (k : unit -> M W B) s :
  final (bind (emit e) k s) = final (k tt s).
Proof. rewrite bind_emit. reflexivity. Qed.

(** After a fetch that returned some news, with an error or without, the
    run goes on with these news. *)
Lemma Run_proceeds (job : Job W) (s : St W) news ferr w1 :
  GetLatestNews (job_journalist job) (until job) (world s) = ((news, ferr), w1) ->
  news <> [] ->
  exists out : Res RunExit * St W * list Event,
    Run rt job s
    = (result out, final out,
       EvGetLatestNews (until job) news ferr
         :: fetchReport job ferr
         ++ EvBreadcrumb "GetLatestNews returned %d news" (Some (length news))
         :: events out)
    /\ proceedsWith rt job news (mkSt w1 (heap s)) out.
Proof.
  intros Hf Hne.
  destruct news as [| n0 news0]; [contradiction |].
  unfold Run. rewrite (bind_call _ _ _ _ _ Hf). cbn beta iota.
  unfold breadcrumb.
  match goal with
  | |- context [bind (removeDuplicates job (n0 :: news0)) ?K] => set (K2 := K)
  end.
  exists (bind (removeDuplicates job (n0 :: news0)) K2 (mkSt w1 (heap s))).
  split.
  { apply bind_emit_eq. destruct ferr as [e |]; cbn [fetchReport app].
    - apply bind_report_eq. apply bind_emit_eq. apply out_eta.
    - rewrite bind_ret. apply bind_emit_eq. apply out_eta. }
  unfold proceedsWith.
  (* dedupe *)
  destruct (bind_prefix (removeDuplicates job (n0 :: news0)) K2 (mkSt w1 (heap s)))
    as (tail2 & Hev2 & Hk2).
  exists tail2. split; [exact Hev2 |].
  intros unique s2 t2 E2 Hne2.
  destruct (Hk2 _ _ _ E2) as (-> & Hr & Hfi). clear Hk2 Hev2.
  subst K2. cbn beta iota in Hr, Hfi |- *.
  destruct unique as [| u0 unique0]; [contradiction |].
  rewrite events_bind_emit. rewrite result_bind_emit in Hr.
  rewrite final_bind_emit in Hfi.
  cbn [length Nat.eqb] in Hr, Hfi |- *.
  (* compose *)
  match goal with
  | |- context [bind (composeNews rt job (u0 :: unique0)) ?K] => set (K3 := K) in *
  end.
  destruct (bind_prefix (composeNews rt job (u0 :: unique0)) K3 s2)
    as (tail3 & Hev3 & Hk3).
  exists tail3. split; [rewrite Hev3; reflexivity |].
  intros composed s3 t3 E3.
  destruct (Hk3 _ _ _ E3) as (-> & Hr3 & Hf3). rewrite Hr3 in Hr. rewrite Hf3 in Hfi.
  clear Hk3 Hev3 Hr3 Hf3.
  subst K3. cbn beta iota in Hr, Hfi |- *.
  rewrite events_bind_emit. rewrite result_bind_emit in Hr.
  rewrite final_bind_emit in Hfi.
  (* persist *)
  match goal with
  | |- context [bind (saveNews rt job ?D) ?K] => set (data := D) in *; set (K4 := K) in *
  end.
  destruct (bind_prefix (saveNews rt job data) K4 s3) as (tail4 & Hev4 & Hk4).
  exists tail4. split; [rewrite Hev4; reflexivity |].
  intros dbNews s4 t4 E4.
  destruct (Hk4 _ _ _ E4) as (-> & Hr4 & Hf4). rewrite Hr4 in Hr. rewrite Hf4 in Hfi.
  clear Hk4 Hev4 Hr4 Hf4.
  subst K4. cbn beta iota in Hr, Hfi |- *.
  rewrite events_bind_emit. rewrite result_bind_emit in Hr.
  rewrite final_bind_emit in Hfi.
  (* publish *)
  match goal with
  | |- context [bind (publish rt job dbNews) ?K] => set (K5 := K) in *
  end.
  destruct (bind_prefix (publish rt job dbNews) K5 s4) as (tail5 & Hev5 & Hk5).
  exists tail5. split; [rewrite Hev5; reflexivity |].
  intros dbNews' s5 t5 E5.
  destruct (Hk5 _ _ _ E5) as (-> & Hr5 & Hf5). rewrite Hr5 in Hr. rewrite Hf5 in Hfi.
  clear Hk5 Hev5 Hr5 Hf5.
  subst K5. cbn beta iota in Hr, Hfi |- *.
  rewrite events_bind_emit. rewrite result_bind_emit in Hr.
  rewrite final_bind_emit in Hfi.
  (* update *)
  match goal with
  | |- context [bind (updateNews job dbNews') ?K] => set (K6 := K) in *
  end.
  destruct (bind_prefix (updateNews job dbNews') K6 s5) as (tail6 & Hev6 & Hk6).
  exists tail6. split; [rewrite Hev6; reflexivity |].
  intros s6 t6 E6.
  destruct (Hk6 _ _ _ E6) as (-> & Hr6 & Hf6). rewrite Hr6 in Hr. rewrite Hf6 in Hfi.
  subst K6. cbn in Hr, Hfi |- *. auto.
Qed.

(** C5. The fetch.  An error of [GetLatestNews] is logged and captured, and
    the run goes on with the news returned with it.

    First, apart from these two events the run is the run of the same job
    whose journalist returns the same news and no error.  Second, when some
    news came with the error the run does go on with them: after the fetch,
    the log line, the capture and the breadcrumb with the number of the
    news, [removeDuplicates] runs on these news, [composeNews] on what it
    returned, [saveNews] on those and what was composed, [publish] on the
    records and [updateNews] on what [publish] returned, each separated
    from the next by its breadcrumb and as long as none returns an error,
    and then the run ends with the last breadcrumb.  Third, when no news is
    returned, the run ends there, with the exit [NoNews]: after the fetch
    (and the report of its error, if any) there is only the breadcrumb, so
    the archivist, the composer and the publisher are not called, and
    nothing else is logged or captured. *)
Theorem C5_fetch_error_recoverable_empty_fetch_noop (job : Job W) (s : St W) :
  (forall news e w1,
      GetLatestNews (job_journalist job) (until job) (world s)
        = ((news, Some e), w1) ->
      exists tail,
        events (Run rt job s)
        = EvGetLatestNews (until job) news (Some e)
            :: EvLog Info ("[" +:+ jobName job +:+ "][GetLatestNews]") e
            :: EvCapture e :: tail
        /\ events (Run rt (withJournalist (withoutFetchError (job_journalist job)) job) s)
           = EvGetLatestNews (until job) news None :: tail
        /\ result (Run rt job s)
           = result (Run rt (withJournalist (withoutFetchError (job_journalist job)) job) s)
        /\ final (Run rt job s)
           = final (Run rt (withJournalist (withoutFetchError (job_journalist job)) job) s))
  /\ (forall news e w1,
        GetLatestNews (job_journalist job) (until job) (world s)
          = ((news, Some e), w1) ->
        news <> [] ->
        exists out : Res RunExit * St W * list Event,
          Run rt job s
          = (result out, final out,
             EvGetLatestNews (until job) news (Some e)
               :: EvLog Info
                    ("[Run." +:+ Name (job_journalist job) +:+ "][GetLatestNews]") e
               :: EvCapture e
               :: EvBreadcrumb "GetLatestNews returned %d news" (Some (length news))
               :: events out)
          /\ proceedsWith rt job news (mkSt w1 (heap s)) out)
  /\ (forall err w1,
        GetLatestNews (job_journalist job) (until job) (world s)
          = (([], err), w1) ->
        Run rt job s
        = (Done NoNews, mkSt w1 (heap s),
           EvGetLatestNews (until job) [] err
             :: fetchReport job err
             ++ [EvBreadcrumb "GetLatestNews returned %d news" (Some 0)])).
Proof.
  split; [| split].
  - intros news e w1 Hf.
    destruct (Run_fetch_error rt job s news e w1 Hf) as (out & -> & ->).
    exists (events out). cbn [result final events]. auto.
  - intros news e w1 Hf Hne.
    destruct (Run_proceeds job s news (Some e) w1 Hf Hne) as (out & Hrun & Hgo).
    exists out. split; [exact Hrun | exact Hgo].
  - intros err w1 Hf. unfold Run.
    rewrite (bind_call _ _ _ _ _ Hf). cbn beta iota. rewrite bind_emit.
    destruct err as [e |]; reflexivity.
Qed.

(** *** A record without metadata *)

(** A run whose [publish] returns an error: it is logged and captured, and
    the run ends there. *)
Lemma Run_publish_error (job : Job W) (s : St W) news ferr w1
    unique s2 t2 composed s3 t3 dbNews s4 t4 d e s5 t5 :
  GetLatestNews (job_journalist job) (until job) (world s) = ((news, ferr), w1) ->
  news <> [] ->
  removeDuplicates job news (mkSt w1 (heap s)) = (Done (unique, None), s2, t2) ->
  unique <> [] ->
  composeNews rt job unique s2 = (Done (composed, None), s3, t3) ->
  saveNews rt job (mkJobData unique composed []) s3 = (Done (dbNews, None), s4, t4) ->
  publish rt job dbNews s4 = (Done (d, Some e), s5, t5) ->
  Run rt job s
  = (Done PublishFailed, s5,
     EvGetLatestNews (until job) news ferr
       :: fetchReport job ferr
       ++ EvBreadcrumb "GetLatestNews returned %d news" (Some (length news))
       :: t2
       ++ EvBreadcrumb "removeDuplicates returned %d news" (Some (length unique))
       :: t3
       ++ EvBreadcrumb "composeNews returned %d news" (Some (length composed))
       :: t4
       ++ EvBreadcrumb "saveNews returned %d news" (Some (length dbNews))
       :: t5
       ++ [EvLog Warn ("[Run." +:+ Name (job_journalist job) +:+ "][publish]") e;
           EvCapture e]).
Proof.
  intros Hf Hne H2 Hne2 H3 H4 H5.
  destruct news as [| n0 news0]; [contradiction |].
  destruct unique as [| u0 unique0]; [contradiction |].
  unfold Run. rewrite (bind_call _ _ _ _ _ Hf). cbn beta iota.
  unfold breadcrumb. apply bind_emit_eq.
  assert (forall (k : unit -> M W RunExit) s0 r s' t,
             k tt s0 = (r, s', t) ->
             bind (match ferr with
                   | Some e0 => report job Info "GetLatestNews" e0
                   | None => ret tt
                   end) k s0 = (r, s', fetchReport job ferr ++ t)) as Hrep.
  { intros k s0 r s' t Hk. destruct ferr as [e0 |]; cbn [fetchReport app].
    - apply bind_report_eq. exact Hk.
    - rewrite bind_ret. exact Hk. }
  apply Hrep. apply bind_emit_eq. cbn [length Nat.eqb].
  eapply bind_Done_eq; [exact H2 |]. cbn beta iota.
  apply bind_emit_eq. cbn [length Nat.eqb].
  eapply bind_Done_eq; [exact H3 |]. cbn beta iota.
  apply bind_emit_eq.
  eapply bind_Done_eq; [exact H4 |]. cbn beta iota.
  apply bind_emit_eq.
  eapply bind_Done_eq; [exact H5 |]. cbn beta iota.
  apply (bind_report_eq job Warn "publish" e). reflexivity.
Qed.

(** C10, as the code has it.  With [omitEmptyMeta] set, when the loop of
    [publish] reaches a record that has no metadata and that the suspicious
    filter does not skip, [publish] returns the decode error there: that
    record and the ones after it are not handed to the publisher, and the
    heap is as the records before left it.  This ends the run: when these
    records are the ones that [saveNews] returned in a run, the run logs the
    error as a warning, captures it and returns; [updateNews] is not
    reached, so no record is updated, and the publisher has seen none but
    records before the one without metadata. *)
Theorem C10_missing_meta_aborts_publish (job : Job W) (before rest : list ptr)
    (n : ptr) (r : models.News) (s s1 : St W) (t1 : list Event) :
  omitEmptyMeta job = true ->
  publishLoop rt job before s = (Done None, s1, t1) ->
  heap s !! n = Some r ->
  models.MetaData r = None ->
  models.IsSuspicious r && omitSuspicious job = false ->
  publish rt job (before ++ n :: rest) s
  = (Done ([], Some "[Job.publish][json.Unmarshal] meta: unexpected end of JSON input"),
     s1, t1)
  /\ forall s0 news ferr w1 unique s2 t2 composed s3 t3 t4,
       GetLatestNews (job_journalist job) (until job) (world s0)
         = ((news, ferr), w1) ->
       news <> [] ->
       removeDuplicates job news (mkSt w1 (heap s0)) = (Done (unique, None), s2, t2) ->
       unique <> [] ->
       composeNews rt job unique s2 = (Done (composed, None), s3, t3) ->
       saveNews rt job (mkJobData unique composed []) s3
         = (Done (before ++ n :: rest, None), s, t4) ->
       Run rt job s0
       = (Done PublishFailed, s1,
          EvGetLatestNews (until job) news ferr
            :: fetchReport job ferr
            ++ EvBreadcrumb "GetLatestNews returned %d news" (Some (length news))
            :: t2
            ++ EvBreadcrumb "removeDuplicates returned %d news" (Some (length unique))
            :: t3
            ++ EvBreadcrumb "composeNews returned %d news" (Some (length composed))
            :: t4
            ++ EvBreadcrumb "saveNews returned %d news"
                 (Some (length (before ++ n :: rest)))
            :: t1
            ++ [EvLog Warn ("[Run." +:+ Name (job_journalist job) +:+ "][publish]")
                  "[Job.publish][json.Unmarshal] meta: unexpected end of JSON input";
                EvCapture
                  "[Job.publish][json.Unmarshal] meta: unexpected end of JSON input"])
       /\ Forall (fun ev => isUpdate ev = false) (events (Run rt job s0))
       /\ forall p r' text id err,
            EvPublish p r' text id err ∈ events (Run rt job s0) ->
            p ∈ before /\ p <> n /\ p ∉ rest.
Proof.
  intros Hom Hbefore Hn Hmeta Hsus.
  pose proof (publish_missing_meta rt job before rest n r s s1 t1
                Hom Hbefore Hn Hmeta Hsus) as Hpub.
  split; [exact Hpub |].
  intros s0 news ferr w1 unique s2 t2 composed s3 t3 t4 Hf Hne H2 Hne2 H3 H4.
  pose proof (Run_publish_error job s0 news ferr w1 _ _ _ _ _ _ _ _ _ _ _ _ _
                Hf Hne H2 Hne2 H3 H4 Hpub) as Hrun.
  split; [exact Hrun |].
  split.
  - (* the run returned after [publish], so it made no call of a later stage *)
    destruct (Run_staged rt job s0) as (_ & _ & Hx).
    rewrite Hrun in Hx |- *. cbn [result events] in Hx |- *.
    destruct Hx as (_ & Hbound & _).
    eapply Forall_impl; [exact Hbound |].
    intros ev Hev. destruct ev; try reflexivity.
    specialize (Hev 5 eq_refl). cbn in Hev. lia.
  - intros p r' text id err Hin.
    assert (result (saveNews rt job (mkJobData unique composed []) s3)
            = Done (before ++ n :: rest, None)) as Hres by (rewrite H4; reflexivity).
    destruct (saveNews_pointers rt job _ _ _ Hres) as (Hnd & _ & _).
    assert (EvPublish p r' text id err ∈ t1) as Hin1.
    { rewrite Hrun in Hin. cbn [events] in Hin.
      pose proof (holds_events _ _ _ (mkSt w1 (heap s0))
                    (removeDuplicates_holds job news (fun ev => isPublish ev = false)
                       (fun _ _ _ => eq_refl))) as Ht2.
      rewrite H2 in Ht2. cbn [events] in Ht2.
      pose proof (holds_events _ _ _ s2
                    (composeNews_holds rt job unique (fun ev => isPublish ev = false)
                       (fun _ _ _ => eq_refl))) as Ht3.
      rewrite H3 in Ht3. cbn [events] in Ht3.
      pose proof (holds_events _ _ _ s3
                    (saveNews_holds rt job (mkJobData unique composed [])
                       (fun ev => isPublish ev = false) (fun _ _ _ => eq_refl))) as Ht4.
      rewrite H4 in Ht4. cbn [events] in Ht4.
      rewrite Forall_forall in Ht2, Ht3, Ht4.
      apply elem_of_cons in Hin as [[=] | Hin].
      apply elem_of_app in Hin as [Hin | Hin].
      { destruct ferr; cbn in Hin; [| inversion Hin].
        apply elem_of_cons in Hin as [[=] | Hin].
        apply list_elem_of_singleton in Hin. discriminate. }
      apply elem_of_cons in Hin as [[=] | Hin].
      apply elem_of_app in Hin as [Hin | Hin]; [apply Ht2 in Hin; discriminate |].
      apply elem_of_cons in Hin as [[=] | Hin].
      apply elem_of_app in Hin as [Hin | Hin]; [apply Ht3 in Hin; discriminate |].
      apply elem_of_cons in Hin as [[=] | Hin].
      apply elem_of_app in Hin as [Hin | Hin]; [apply Ht4 in Hin; discriminate |].
      apply elem_of_cons in Hin as [[=] | Hin].
      apply elem_of_app in Hin as [Hin | Hin]; [exact Hin |].
      apply elem_of_cons in Hin as [[=] | Hin].
      apply list_elem_of_singleton in Hin. discriminate. }
    assert (p ∈ before) as Hp.
    { destruct (decide (p ∈ before)) as [Hp | Hp]; [exact Hp | exfalso].
      destruct (publishLoop_outside rt job before s _ _ _ p Hp Hbefore) as [_ Hno].
      exact (Hno _ _ _ _ Hin1). }
    split; [exact Hp |].
    apply NoDup_app in Hnd as (_ & Hdisj & _).
    specialize (Hdisj p Hp). split.
    + intros ->. apply Hdisj. left.
    + intros Hr. apply Hdisj. right. exact Hr.
Qed.
End Paths.

(** The two theorems above, at work on the concrete world. *)

Lemma C5_witness :
  (exists tail,
      events (Run (demo.rt []) (demo.job [demo.A] (Some "timeout")) demo.start)
      = EvGetLatestNews time.zero [demo.A] (Some "timeout")
          :: EvLog Info "[Run.feed][GetLatestNews]" "timeout"
          :: EvCapture "timeout" :: tail
      /\ events (Run (demo.rt [])
                   (withJournalist
                      (withoutFetchError (demo.theJournalist [demo.A] (Some "timeout")))
                      (demo.job [demo.A] (Some "timeout")))
                   demo.start)
         = EvGetLatestNews time.zero [demo.A] None :: tail
      /\ result (Run (demo.rt []) (demo.job [demo.A] (Some "timeout")) demo.start)
         = result (Run (demo.rt [])
                     (withJournalist
                        (withoutFetchError (demo.theJournalist [demo.A] (Some "timeout")))
                        (demo.job [demo.A] (Some "timeout")))
                     demo.start)
      /\ final (Run (demo.rt []) (demo.job [demo.A] (Some "timeout")) demo.start)
         = final (Run (demo.rt [])
                    (withJournalist
                       (withoutFetchError (demo.theJournalist [demo.A] (Some "timeout")))
                       (demo.job [demo.A] (Some "timeout")))
                    demo.start))
  /\ (exists out : Res RunExit * St demo.World * list Event,
         Run (demo.rt [demo.composedA]) demo.faultyJob demo.start
         = (result out, final out,
            EvGetLatestNews time.zero [demo.A] (Some "timeout")
              :: EvLog Info "[Run.feed][GetLatestNews]" "timeout"
              :: EvCapture "timeout"
              :: EvBreadcrumb "GetLatestNews returned %d news" (Some 1)
              :: events out)
         /\ proceedsWith (demo.rt [demo.composedA]) demo.faultyJob [demo.A]
              (mkSt 0 (heap demo.start)) out)
  /\ Run (demo.rt []) (demo.job [] None) demo.start
     = (Done NoNews, demo.start,
        [EvGetLatestNews time.zero [] None;
         EvBreadcrumb "GetLatestNews returned %d news" (Some 0)]).
Proof.
  split; [| split].
  - exact (proj1 (C5_fetch_error_recoverable_empty_fetch_noop
                    (demo.rt []) (demo.job [demo.A] (Some "timeout")) demo.start)
             [demo.A] "timeout" 0 eq_refl).
  - apply (proj1 (proj2 (C5_fetch_error_recoverable_empty_fetch_noop
                           (demo.rt [demo.composedA]) demo.faultyJob demo.start))
             [demo.A] "timeout" 0);
      [reflexivity | discriminate].
  - exact (proj2 (proj2 (C5_fetch_error_recoverable_empty_fetch_noop
                           (demo.rt []) (demo.job [] None) demo.start))
             None 0 eq_refl).
Defined.

Lemma C10_witness :
  publish (demo.rt []) (OmitEmptyMeta (demo.savingJob [] None)) ([0] ++ 1 :: [])
    demo.twoRecords
  = (Done ([], Some "[Job.publish][json.Unmarshal] meta: unexpected end of JSON input"),
     final (publishLoop (demo.rt []) (OmitEmptyMeta (demo.savingJob [] None)) [0]
              demo.twoRecords),
     events (publishLoop (demo.rt []) (OmitEmptyMeta (demo.savingJob [] None)) [0]
               demo.twoRecords))
  /\ result (Run (demo.rt []) (OmitEmptyMeta (demo.savingJob [demo.A] None))
               demo.start)
     = Done PublishFailed
  /\ Forall (fun ev => isUpdate ev = false)
            (events (Run (demo.rt []) (OmitEmptyMeta (demo.savingJob [demo.A] None))
                       demo.start))
  /\ forall p r' text id err,
       EvPublish p r' text id err
         ∈ events (Run (demo.rt []) (OmitEmptyMeta (demo.savingJob [demo.A] None))
                     demo.start) ->
       p ∈ [] /\ p <> 0 /\ p ∉ [].
Proof.
  split.
  - apply (C10_missing_meta_aborts_publish
             (demo.rt []) (OmitEmptyMeta (demo.savingJob [] None)) [0] [] 1
             (demo.record "h1" false None) demo.twoRecords);
      vm_compute; reflexivity.
  - destruct (proj2 (C10_missing_meta_aborts_publish
                       (demo.rt []) (OmitEmptyMeta (demo.savingJob [demo.A] None))
                       [] [] 0
                       (newDBNews (OmitEmptyMeta (demo.savingJob [demo.A] None)) demo.A)
                       (final (saveNews (demo.rt [])
                                 (OmitEmptyMeta (demo.savingJob [demo.A] None))
                                 (mkJobData [demo.A] [] [])
                                 (final (composeNews (demo.rt [])
                                           (OmitEmptyMeta (demo.savingJob [demo.A] None))
                                           [demo.A] demo.start))))
                       _ _
                       eq_refl eq_refl
                       ltac:(vm_compute; reflexivity) eq_refl eq_refl)
                demo.start [demo.A] None 0 [demo.A] demo.start [] []
                (final (composeNews (demo.rt [])
                          (OmitEmptyMeta (demo.savingJob [demo.A] None))
                          [demo.A] demo.start))
                (events (composeNews (demo.rt [])
                           (OmitEmptyMeta (demo.savingJob [demo.A] None))
                           [demo.A] demo.start))
                (events (saveNews (demo.rt [])
                           (OmitEmptyMeta (demo.savingJob [demo.A] None))
                           (mkJobData [demo.A] [] [])
                           (final (composeNews (demo.rt [])
                                     (OmitEmptyMeta (demo.savingJob [demo.A] None))
                                     [demo.A] demo.start))))
                eq_refl ltac:(discriminate) eq_refl ltac:(discriminate)
                ltac:(vm_compute; reflexivity) ltac:(vm_compute; reflexivity))
      as (Hrun & Hupd & Hpub).
    split; [rewrite Hrun; reflexivity |].
    split; [exact Hupd | exact Hpub].
Defined.

(** The further properties, at work on the concrete world. *)

Ltac in_trace :=
  apply list_elem_of_In; vm_compute;
  repeat (first [left; reflexivity | right]).

Lemma X1_witness :
  result (Run (demo.rt []) (demo.savingJob [demo.A; demo.B; demo.C] (Some 1))
            demo.start)
  = Done SaveNewsFailed.
Proof.
  apply (X1_failed_call_decides_exit (demo.rt [])
           (demo.savingJob [demo.A; demo.B; demo.C] (Some 1)) demo.start
           (EvCreate 1 (newDBNews (demo.savingJob [] (Some 1)) demo.B)
              (Some "connection lost")));
    [in_trace | reflexivity].
Defined.

Lemma X2_witness : 3 <= reach PublishFailed.
Proof.
  apply (X2_exit_bounds_the_calls (demo.rt []) demo.publishFailsJob demo.start
           PublishFailed
           (EvCreate 0 (newDBNews demo.publishFailsJob demo.A) None) 3);
    [vm_compute; reflexivity | in_trace | reflexivity].
Defined.

Lemma X3_witness :
  callStage (EvCreate 0 (newDBNews (demo.savingJob [] None) demo.A) None) = Some 3
  /\ 3 <= 4.
Proof.
  split; [reflexivity |].
  apply (X3_calls_in_stage_order (demo.rt []) (demo.savingJob [demo.A] None)
           demo.start
           (take 5 (events (Run (demo.rt []) (demo.savingJob [demo.A] None)
                              demo.start)))
           [EvBreadcrumb "saveNews returned %d news" (Some 1)]
           (drop 8 (events (Run (demo.rt []) (demo.savingJob [demo.A] None)
                              demo.start)))
           (EvCreate 0 (newDBNews (demo.savingJob [] None) demo.A) None)
           (EvPublish 0 (newDBNews (demo.savingJob [] None) demo.A)
              (formatNews (demo.savingJob [] None)
                 (newDBNews (demo.savingJob [] None) demo.A))
              "msg" None));
    [vm_compute; reflexivity | reflexivity | reflexivity].
Defined.

Lemma X4_witness :
  Forall (fun e => isChatCompletion e = false)
         (events (Run (demo.rt []) (demo.job [demo.A] None) demo.start))
  /\ Forall (fun e => isFindAllByHashes e = false)
            (events (Run (demo.rt []) (demo.savingJob [demo.A] None) demo.start)).
Proof.
  split.
  - apply (proj1 (X4_disabled_stages_call_nobody (demo.rt [])
                    (demo.job [demo.A] None) demo.start)).
    reflexivity.
  - apply (proj2 (X4_disabled_stages_call_nobody (demo.rt [])
                    (demo.savingJob [demo.A] None) demo.start)).
    reflexivity.
Defined.

Lemma X5_witness :
  Run (demo.rt []) demo.knownJob demo.start
  = (Done NoUniqueNews, mkSt 0 (heap demo.start),
     EvGetLatestNews (until demo.knownJob) [demo.B] None
       :: fetchReport demo.knownJob None
       ++ [EvBreadcrumb "GetLatestNews returned %d news" (Some (length [demo.B]));
           EvFindAllByHashes (map journalist.ID [demo.B])
             [demo.record "B" false None] None;
           EvBreadcrumb "removeDuplicates returned %d news" (Some 0)]).
Proof.
  apply (X5_known_news_end_the_run (demo.rt []) demo.knownJob demo.start
           [demo.B] None 0 0 [demo.record "B" false None]);
    [reflexivity | reflexivity | reflexivity | discriminate
    | vm_compute; reflexivity | ].
  intros n Hn. apply list_elem_of_singleton in Hn. subst n. in_trace.
Defined.

Lemma X6_witness :
  length (heap (final (publish (demo.rt []) (demo.savingJob [] None) [0; 1]
                         demo.twoRecords)))
  = length (heap demo.twoRecords)
  /\ exists id at_,
       heap (final (publish (demo.rt []) (demo.savingJob [] None) [0; 1]
                      demo.twoRecords)) !! 1
       = Some (models.set_publication id at_ (demo.record "h1" false None)).
Proof.
  destruct (X6_publish_writes_only_publications (demo.rt [])
              (demo.savingJob [] None) [0; 1] demo.twoRecords) as [Hlen Hrec].
  split; [exact Hlen |].
  apply (Hrec 1 (demo.record "h1" false None)). reflexivity.
Defined.

Lemma X7_witness :
  result (publish (demo.rt []) demo.publishFailsJob [0; 1] demo.twoRecords)
  = Done ([], Some ("[Job.publish][publisher.Publish]: " +:+ "flood control"))
  /\ exists before,
       events (publish (demo.rt []) demo.publishFailsJob [0; 1] demo.twoRecords)
       = before
         ++ [EvPublish 0 (demo.record "h0" false (Some "{...}"))
               (formatNews demo.publishFailsJob
                  (demo.record "h0" false (Some "{...}")))
               "" (Some "flood control")]
       /\ Forall (fun ev => failureExit ev = None) before.
Proof.
  apply (X7_publish_stops_at_first_failure (demo.rt []) demo.publishFailsJob
           [0; 1] demo.twoRecords).
  in_trace.
Defined.

Lemma X8_witness :
  [0; 1] = [0; 1]
  /\ forall n r,
       n ∈ [0; 1] -> heap demo.twoRecords !! n = Some r ->
       (exists id now,
           EvPublish n r (formatNews (demo.savingJob [] None) r) id None
             ∈ events (publish (demo.rt []) (demo.savingJob [] None) [0; 1]
                         demo.twoRecords)
           /\ heap (final (publish (demo.rt []) (demo.savingJob [] None) [0; 1]
                             demo.twoRecords)) !! n
              = Some (models.set_publication id now r))
       \/ ((forall r0 text id err,
               EvPublish n r0 text id err
                 ∉ events (publish (demo.rt []) (demo.savingJob [] None) [0; 1]
                             demo.twoRecords))
           /\ heap (final (publish (demo.rt []) (demo.savingJob [] None) [0; 1]
                             demo.twoRecords)) !! n
              = Some r).
Proof.
  apply (X8_publish_marks_what_it_published (demo.rt [])
           (demo.savingJob [] None) [0; 1] [0; 1] demo.twoRecords);
    [compute_done | vm_compute; reflexivity].
Defined.

Lemma X9_witness :
  updateNews (demo.job [] None) [0; 1] demo.twoRecords
  = (Done None, demo.twoRecords, [])
  /\ ((result (updateNews (demo.savingJob [] None) [0; 1] demo.twoRecords)
       = Done None
       /\ updateCalls (events (updateNews (demo.savingJob [] None) [0; 1]
                                 demo.twoRecords))
          = map (fun r => (r, None)) (heap demo.twoRecords))
      \/ (exists k r e,
             heap demo.twoRecords !! k = Some r
             /\ result (updateNews (demo.savingJob [] None) [0; 1] demo.twoRecords)
                = Done (Some ("[Job.updateNews][News.Update]: " +:+ e))
             /\ updateCalls (events (updateNews (demo.savingJob [] None) [0; 1]
                                       demo.twoRecords))
                = map (fun r => (r, None)) (take k (heap demo.twoRecords))
                  ++ [(r, Some e)])).
Proof.
  split.
  - apply (proj1 (X9_updateNews_updates_in_order (demo.job [] None) [0; 1]
                    (heap demo.twoRecords) demo.twoRecords)).
    reflexivity.
  - apply (proj2 (X9_updateNews_updates_in_order (demo.savingJob [] None) [0; 1]
                    (heap demo.twoRecords) demo.twoRecords));
      [reflexivity | compute_done | repeat constructor].
Defined.

Lemma X10_witness :
  heap (final (saveNews (demo.rt []) (demo.savingJob [] None) demo.twoNews
                 demo.twoRecords)) !! 0
  = Some (demo.record "h0" false (Some "{...}"))
  /\ NoDup [2; 3]
  /\ Forall (fun p => heap demo.twoRecords !! p = None) [2; 3].
Proof.
  destruct (X10_saveNews_allocates_its_records (demo.rt [])
              (demo.savingJob [] None) demo.twoNews demo.twoRecords) as [Hold Hnew].
  split.
  - apply Hold. reflexivity.
  - apply Hnew. vm_compute. reflexivity.
Defined.

Lemma X12_witness :
  result (Compose (demo.rt []) demo.silentComposer [demo.A] demo.start)
  = Panicked "index out of range [0] with length 0".
Proof.
  apply (X12_Compose_panics_without_choices (demo.rt []) demo.silentComposer
           [demo.A] [demo.A] demo.start "A;" {| Choices := [] |} 0);
    [vm_compute; reflexivity | discriminate | reflexivity | reflexivity
    | reflexivity].
Defined.

Lemma X13_witness :
  Compose (demo.rt []) demo.theComposer [demo.yesterday] demo.start
  = (Done ([], None), demo.start, [])
  /\ exists resp err,
       events (Compose (demo.rt []) demo.theComposer [demo.stale; demo.A] demo.start)
       = [EvChatCompletion
            {| Model := "gpt-3.5-turbo-1106";
               Messages := [ {| Role := "system"; Content := "prompt" |};
                             {| Role := "user"; Content := "old;A;" |} ];
               Temperature := 1; MaxTokens := 2048; TopP := 1;
               FrequencyPenalty := 0; PresencePenalty := 0 |}
            resp err].
Proof.
  split.
  - apply (proj1 (X13_Compose_selects_by_day_of_month (demo.rt [])
                    demo.theComposer [demo.yesterday] demo.start demo.now
                    (fun w => eq_refl))).
    reflexivity.
  - apply (proj2 (X13_Compose_selects_by_day_of_month (demo.rt [])
                    demo.theComposer [demo.stale; demo.A] demo.start demo.now
                    (fun w => eq_refl)));
      [vm_compute; discriminate | reflexivity].
Defined.

Lemma X14_witness :
  result (Compose (demo.rt [demo.composedA]) demo.failingComposer [demo.A]
            demo.start)
  = Done ([], Some ("[Compose] error in OpenAiClient.CreateChatCompletion: "
                    +:+ "rate limit"))
  /\ result (Compose (demo.rt [demo.composedA]) demo.theComposer [demo.A]
               demo.start)
     = Done ([demo.composedA], None).
Proof.
  split.
  - apply (proj1 (proj2 (X14_Compose_returns_first_choice_or_error
                           (demo.rt [demo.composedA]) demo.failingComposer
                           [demo.A] [demo.A] demo.start "A;"
                           ltac:(vm_compute; reflexivity) ltac:(discriminate)))
             {| Choices := [] |} "rate limit" 0);
      reflexivity.
  - apply (proj2 (proj2 (X14_Compose_returns_first_choice_or_error
                           (demo.rt [demo.composedA]) demo.theComposer
                           [demo.A] [demo.A] demo.start "A;"
                           ltac:(vm_compute; reflexivity) ltac:(discriminate)))
             {| Choices := [ {| Role := "assistant"; Content := "[...]" |} ] |} 0
             {| Role := "assistant"; Content := "[...]" |} []
             [demo.composedA] None);
      reflexivity.
Defined.

Lemma X15_witness :
  mapComposedNews [demo.composedA; demo.composedAgain; demo.composedC] !! "A"
  = Some demo.composedAgain.
Proof.
  apply (proj2 (proj2 (X15_mapComposedNews_keeps_the_last_of_an_id
                         [demo.composedA; demo.composedAgain; demo.composedC] "A"))
           [demo.composedA] demo.composedAgain [demo.composedC]);
    [reflexivity | reflexivity |].
  intros c Hc. apply list_elem_of_singleton in Hc. subst c. discriminate.
Defined.

Lemma X16_witness :
  exists now before after,
    events (Run (demo.rt []) (demo.savingJob [demo.A] None) demo.start)
    = before
      ++ EvUpdate 0
           (models.set_publication "msg" now
              (newDBNews (demo.savingJob [] None) demo.A)) None
      :: after
    /\ EvPublish 0 (newDBNews (demo.savingJob [] None) demo.A)
         (formatNews (demo.savingJob [] None)
            (newDBNews (demo.savingJob [] None) demo.A))
         "msg" None ∈ before.
Proof.
  apply (X16_finished_run_writes_publications_back (demo.rt [])
           (demo.savingJob [demo.A] None) demo.start);
    [vm_compute; reflexivity | in_trace].
Defined.

Lemma X17_witness :
  Forall (fun e => callStage e = None \/ callStage e = Some 0 \/ callStage e = Some 2)
         (events (Run (demo.rt []) (demo.job [demo.A] None) demo.start))
  /\ forall x,
       result (Run (demo.rt []) (demo.job [demo.A] None) demo.start) = Done x ->
       x = NoNews \/ x = ComposeNewsFailed \/ x = Finished.
Proof.
  apply (X17_without_SaveToDB_only_fetch_and_compose (demo.rt [])
           (demo.job [demo.A] None) demo.start).
  reflexivity.
Defined.
